(** * zapmail-mcp: the request execution core and the rule-based planner

    A shallow embedding of the parts of [src/index.js] that the
    specification describes: the [Cache] and [RateLimiter] classes, the
    request executor [apiFetch], the composite purchase operation
    [purchaseDomains], the rule-based planner [planFromRules] with its
    regular expressions, the optional LLM planner and the planning part
    of the [plan_and_execute] tool. The second half of the definitions
    embeds what stands around these: the batch check of domains, the
    tools [generate_domains], [health_check], [bulk_update_mailboxes] and
    [clear_cache], the map of the dynamic tools, the class [Logger], the
    local generators of names, the framing of the requests read from the
    standard input, and the purchase scheduler of
    [scripts/schedule_purchases.js].

    Conventions of the embedding.
    - A JavaScript string is a Rocq [string]; each character stands for
      one code unit below 256.
    - Times, durations, HTTP status codes and loop counters are integers
      ([Z]); [Date.now()] is an explicit argument or the clock of the
      world. The numbers inside JSON documents are kept abstract (class
      [JsNumber]).
    - A JavaScript [Map] is an association list in insertion order.
    - An [async] function is a function from worlds to a result (a value
      or an exception) and a world; the network is a script of outcomes
      of the successive calls of [fetch].
    - A conversion of a value to a string or to a number that throws a
      [TypeError] is a conversion without result ([None]); the values
      come from JSON documents, so that no property of theirs is a
      function.
    - Inside the executor, logging and metrics have no influence on
      control flow and are left out: the world of the embedding holds
      neither the log nor the registry of the metrics, and no statement
      speaks of them. So are the URL and the headers of a request, which
      only the remote service sees, and with them the workspace key and
      the service provider; the values of a query are taken to be
      primitive, as their place in the URL requires. A timeout shows as a
      rejected [fetch]. *)

From Stdlib Require Import ZArith List String Ascii Bool Lia DecimalString.
Import ListNotations.

Set Warnings "-register-all".

Local Open Scope string_scope.
Local Open Scope list_scope.
Local Open Scope Z_scope.

(** ** JavaScript [Map]: insertion-ordered, one binding per key *)

Module JsMap.

Definition t (V : Type) : Type := list (string * V).

Definition empty {V} : t V := [].

(** [m.get(k)]; [None] is [undefined]. *)
Fixpoint get {V} (k : string) (m : t V) : option V :=
  match m with
  | [] => None
  | (k', v) :: m' => if String.eqb k k' then Some v else get k m'
  end.

Definition has {V} (k : string) (m : t V) : bool :=
  match get k m with Some _ => true | None => false end.

(** [m.set(k, v)]: an existing key keeps its position, a new key goes to
    the end. *)
Fixpoint set {V} (k : string) (v : V) (m : t V) : t V :=
  match m with
  | [] => [(k, v)]
  | (k', v') :: m' =>
      if String.eqb k k' then (k', v) :: m' else (k', v') :: set k v m'
  end.

(** [m.delete(k)]. *)
Definition delete {V} (k : string) (m : t V) : t V :=
  filter (fun p => negb (String.eqb k (fst p))) m.

(** [m.keys().next().value]; [None] is [undefined] (empty map). *)
Definition first_key {V} (m : t V) : option string :=
  match m with
  | [] => None
  | (k, _) :: _ => Some k
  end.

Definition size {V} (m : t V) : Z := Z.of_nat (List.length m).

Definition keys {V} (m : t V) : list string := map fst m.

(** The representation invariant of a [Map]: no key occurs twice. *)
Definition wf {V} (m : t V) : Prop := NoDup (keys m).

End JsMap.

(** ** class Cache (index.js, lines 296-335) *)

Module Cache.

Record Entry (V : Type) : Type := mkEntry { value : V; expires : Z }.
Arguments mkEntry {V} _ _.
Arguments value {V} _.
Arguments expires {V} _.

Record t (V : Type) : Type := mk {
  maxSize : Z;
  ttl : Z;
  cache : JsMap.t (Entry V)
}.
Arguments mk {V} _ _ _.
Arguments maxSize {V} _.
Arguments ttl {V} _.
Arguments cache {V} _.

(** [new Cache(maxSize, ttl)]; the defaults are 1000 and 300000. *)
Definition new {V} (maxSize ttl : Z) : t V := mk maxSize ttl JsMap.empty.
Definition new_default {V} : t V := new 1000 300000.

Definition with_cache {V} (c : t V) (m : JsMap.t (Entry V)) : t V :=
  mk (maxSize c) (ttl c) m.

(** [size()]. *)
Definition size {V} (c : t V) : Z := JsMap.size (cache c).

(** The eviction at the head of [set]: when [cache.size >= maxSize] the
    first key of the map is deleted; on an empty map [firstKey] is
    [undefined] and [delete] removes nothing. *)
Definition evict {V} (c : t V) : JsMap.t (Entry V) :=
  if size c >=? maxSize c then
    match JsMap.first_key (cache c) with
    | Some firstKey => JsMap.delete firstKey (cache c)
    | None => cache c
    end
  else cache c.

(** [set(key, value, ttl = this.ttl)] at time [now]; [ttl_arg = None]
    is the omitted third argument. *)
Definition set {V} (key : string) (v : V) (ttl_arg : option Z) (now : Z)
    (c : t V) : t V :=
  let ttl0 := match ttl_arg with Some x => x | None => ttl c end in
  with_cache c (JsMap.set key (mkEntry v (now + ttl0)) (evict c)).

(** [get(key)] at time [now]: the returned value ([None] is [null]) and
    the cache afterwards. *)
Definition get {V} (key : string) (now : Z) (c : t V) : option V * t V :=
  match JsMap.get key (cache c) with
  | None => (None, c)
  | Some item =>
      if now >? expires item
      then (None, with_cache c (JsMap.delete key (cache c)))
      else (Some (value item), c)
  end.

(** [clear()]. *)
Definition clear {V} (c : t V) : t V := with_cache c JsMap.empty.

(** A call of one of the mutating methods, with the time it is made at. *)
Inductive op (V : Type) : Type :=
| OpSet (key : string) (v : V) (ttl_arg : option Z) (now : Z)
| OpGet (key : string) (now : Z)
| OpClear.
Arguments OpSet {V} _ _ _ _.
Arguments OpGet {V} _ _.
Arguments OpClear {V}.

Definition step {V} (c : t V) (o : op V) : t V :=
  match o with
  | OpSet key v ttl_arg now => set key v ttl_arg now c
  | OpGet key now => snd (get key now c)
  | OpClear => clear c
  end.

Definition run {V} (ops : list (op V)) (c : t V) : t V :=
  fold_left step ops c.

(** The lifetime [set] gives an entry: its third argument or the
    default of the cache. *)
Definition effective_ttl {V} (c : t V) (ttl_arg : option Z) : Z :=
  match ttl_arg with Some x => x | None => ttl c end.

End Cache.

(** ** class RateLimiter (index.js, lines 343-371) *)

Module RateLimiter.

Record t : Type := mk {
  maxRequests : Z;
  windowMs : Z;
  requests : JsMap.t (list Z)
}.

(** [new RateLimiter(maxRequests, windowMs)]; defaults 10 and 60000. *)
Definition new (maxRequests windowMs : Z) : t :=
  mk maxRequests windowMs JsMap.empty.
Definition new_default : t := new 10 60000.

(** A number that may be [Infinity]: [Math.min()] of no argument. *)
Inductive ms : Type :=
| Finite (d : Z)
| Infinity.

(** [Math.min(...l)]. *)
Definition Math_min (l : list Z) : ms :=
  match l with
  | [] => Infinity
  | x :: l' => Finite (fold_left Z.min l' x)
  end.

(** [windowMs - (now - oldestRequest)]. *)
Definition waitTime (windowMs now : Z) (oldestRequest : ms) : ms :=
  match oldestRequest with
  | Finite o => Finite (windowMs - (now - o))
  | Infinity => Infinity
  end.

(** [requests.filter((time) => time > windowStart)]. *)
Definition recent (windowStart : Z) (l : list Z) : list Z :=
  filter (fun time => time >? windowStart) l.

(** [checkLimit(key)] entered at time [now]: the duration passed to
    [sleep] when the caller is suspended ([None]: no suspension), and
    the limiter afterwards. *)
Definition checkLimit (key : string) (now : Z) (rl : t) : option ms * t :=
  let windowStart := now - windowMs rl in
  let requests1 :=
    if JsMap.has key (requests rl) then requests rl
    else JsMap.set key [] (requests rl) in
  let reqs := match JsMap.get key requests1 with Some l => l | None => [] end in
  let recentRequests := recent windowStart reqs in
  let slept :=
    if Z.of_nat (List.length recentRequests) >=? maxRequests rl
    then Some (waitTime (windowMs rl) now (Math_min recentRequests))
    else None in
  (slept, mk (maxRequests rl) (windowMs rl)
             (JsMap.set key (recentRequests ++ [now]) requests1)).

(** Successive checks of one key at the given times, each paired with
    the suspension it caused. *)
Fixpoint checks (key : string) (times : list Z) (rl : t)
    : list (option ms) * t :=
  match times with
  | [] => ([], rl)
  | now :: times' =>
      let (w, rl1) := checkLimit key now rl in
      let (ws, rl2) := checks key times' rl1 in
      (w :: ws, rl2)
  end.

(** The timestamps recorded for [key]. *)
Definition current (key : string) (rl : t) : list Z :=
  match JsMap.get key (requests rl) with
  | Some l => l
  | None => []
  end.

End RateLimiter.

(** ** JavaScript strings *)

Module Str.

Definition code (c : ascii) : N := N_of_ascii c.

Definition between (lo hi : N) (c : ascii) : bool :=
  ((lo <=? code c) && (code c <=? hi))%N.

(** White space and line terminators below 256: TAB, LF, VT, FF, CR,
    SPACE and NO-BREAK SPACE. This is the set of [trim()] and of the
    regular expression class [\s]. *)
Definition is_space (c : ascii) : bool :=
  between 9 13 c || (code c =? 32)%N || (code c =? 160)%N.

Definition is_upper (c : ascii) : bool :=
  between 65 90 c || (between 192 222 c && negb (code c =? 215)%N).

Definition lower (c : ascii) : ascii :=
  if is_upper c then ascii_of_N (code c + 32) else c.

(** [s.toLowerCase()]. *)
Fixpoint toLowerCase (s : string) : string :=
  match s with
  | EmptyString => EmptyString
  | String c s' => String (lower c) (toLowerCase s')
  end.

Fixpoint trimStart (l : list ascii) : list ascii :=
  match l with
  | [] => []
  | c :: l' => if is_space c then trimStart l' else l
  end.

(** [s.trim()]. *)
Definition trim (s : string) : string :=
  string_of_list_ascii
    (rev (trimStart (rev (trimStart (list_ascii_of_string s))))).

(** [s.startsWith(p)]. *)
Definition startsWith (p s : string) : bool := String.prefix p s.

Definition is_empty (s : string) : bool :=
  match s with EmptyString => true | _ => false end.

(** [l.join(sep)]. *)
Fixpoint join (sep : string) (l : list string) : string :=
  match l with
  | [] => ""
  | [x] => x
  | x :: l' => x ++ sep ++ join sep l'
  end%string.

(** The decimal notation of an integer, as a template literal prints a
    status code or a count. *)
Definition of_Z (z : Z) : string := NilZero.string_of_int (Z.to_int z).

End Str.

(** ** JavaScript numbers

    The numbers that travel inside JSON documents (prices, balances,
    counts) are IEEE doubles in the program. The embedding does not fix
    their representation: it is parametric in the number type and in the
    few operations the program applies to it, so that every statement
    holds for doubles as well as for the integer instance used in the
    examples. *)

Class JsNumber (num : Type) : Type := {
  (** an integer literal of the program text *)
  lit : Z -> num;
  (** [a + b] and [a * b] *)
  add : num -> num -> num;
  mul : num -> num -> num;
  (** [a >= b] *)
  geb : num -> num -> bool;
  (** truthiness: false exactly for [0], [-0] and [NaN] *)
  nonzero : num -> bool;
  (** [Math.max(a, b)] *)
  Math_max : num -> num -> num;
  (** [parseInt(s, 10)] *)
  parseInt : string -> num;
  (** [Number(s)] on a string *)
  StringToNumber : string -> num;
  (** [String(n)] *)
  NumberToString : num -> string
}.

(** ** JSON values *)

Module Json.

Inductive t (num : Type) : Type :=
| JNull
| JBool (b : bool)
| JNum (n : num)
| JStr (s : string)
| JArr (items : list (t num))
| JObj (fields : list (string * t num)).
Arguments JNull {num}.
Arguments JBool {num} _.
Arguments JNum {num} _.
Arguments JStr {num} _.
Arguments JArr {num} _.
Arguments JObj {num} _.

Section Ops.
Context {num : Type} `{JsNumber num}.

(** A JavaScript value that may be [undefined] is an [option]. *)
Definition value : Type := option (t num).

Fixpoint lookup (name : string) (fields : list (string * t num)) : value :=
  match fields with
  | [] => None
  | (k, v) :: fields' =>
      if String.eqb name k then Some v else lookup name fields'
  end.

(** [v?.name] for the own data properties of a parsed document; on
    [undefined], [null], and on values that are not objects the result
    is [undefined]. *)
Definition prop (name : string) (v : value) : value :=
  match v with
  | Some (JObj fields) => lookup name fields
  | _ => None
  end.

(** [v?.[0]]. *)
Definition first (v : value) : value :=
  match v with
  | Some (JArr (x :: _)) => Some x
  | Some (JObj fields) => lookup "0" fields
  | Some (JStr (String c _)) => Some (JStr (String c EmptyString))
  | _ => None
  end.

(** Truthiness of a value. *)
Definition truthy (v : value) : bool :=
  match v with
  | None => false
  | Some JNull => false
  | Some (JBool b) => b
  | Some (JNum n) => nonzero n
  | Some (JStr s) => negb (Str.is_empty s)
  | Some (JArr _) => true
  | Some (JObj _) => true
  end.

(** [a || b]. *)
Definition or_else (a b : value) : value := if truthy a then a else b.

(** [a ?? b]. *)
Definition nullish (a b : value) : value :=
  match a with
  | None | Some JNull => b
  | _ => a
  end.

(** The texts of a list of conversions, when all of them succeed. *)
Definition all_converted (l : list (option string)) : option (list string) :=
  fold_right
    (fun o acc =>
       match o, acc with
       | Some s, Some rest => Some (s :: rest)
       | _, _ => None
       end)
    (Some []) l.

(** [String(v)], also the conversion inside a template literal and the
    one [JSON.parse] applies to its argument; [None] when the conversion
    throws the [TypeError] "Cannot convert object to primitive value".
    An object is converted by the [toString] it finds: the one of
    [Object.prototype], unless the object has an own property of that
    name. The value of such a property comes from a document and is no
    function, [valueOf] gives no primitive either, and the conversion
    throws. An array joins the conversions of its elements. *)
Fixpoint toString (v : t num) : option string :=
  match v with
  | JNull => Some "null"
  | JBool true => Some "true"
  | JBool false => Some "false"
  | JNum n => Some (NumberToString n)
  | JStr s => Some s
  | JArr items =>
      option_map (Str.join ",")
        (all_converted
           (map (fun e => match e with JNull => Some "" | _ => toString e end)
                items))
  | JObj fields =>
      match lookup "toString" fields with
      | Some _ => None
      | None => Some "[object Object]"
      end
  end.

Definition toString_value (v : value) : option string :=
  match v with
  | None => Some "undefined"
  | Some j => toString j
  end.

(** The message of the [TypeError] of a conversion. *)
Definition cannotConvert : string := "Cannot convert object to primitive value".

(** [typeof v === "number" ? v : otherwise]. *)
Definition number_or (v : value) (otherwise : option num) : option num :=
  match v with
  | Some (JNum n) => Some n
  | _ => otherwise
  end.

End Ops.

End Json.

Import Json.

(** [JSON.parse] and [JSON.stringify] are built into the language and
    taken as parameters; [JSON_parse s = None] when [JSON.parse(s)] throws
    a [SyntaxError]. *)
Class JsBuiltins (num : Type) : Type := {
  JSON_parse : string -> option (Json.t num);
  JSON_stringify : Json.t num -> string
}.

(** ** The request executor (index.js, lines 156-226 and 2541-2744) *)

Module Exec.
Section WithRuntime.

Context {num : Type} `{JsNumber num} `{JsBuiltins num}.

Local Abbreviation json := (Json.t num) (only parsing).
Local Abbreviation value := (@Json.value num) (only parsing).

(** *** The error classes

    [ZapmailError] carries a [code] and [details]; its two subclasses
    are [ValidationError] (code [VALIDATION_ERROR], details
    [{field, value}]) and [ApiError] (code [API_ERROR], details
    [{status, response}]). [OtherError] is an exception that is not of
    this family: what [fetch] or [resp.text()] rejects with (connection
    failure, abort on timeout), and the [TypeError] of an operation on
    a value that does not support it. *)
Inductive JsError : Type :=
| ValidationError (message field : string) (val : value)
| ApiError (message : string) (status : Z) (response : json)
| OtherError (message : string).

Definition error_name (e : JsError) : string :=
  match e with
  | ValidationError _ _ _ => "ValidationError"
  | ApiError _ _ _ => "ApiError"
  | OtherError _ => "Error"
  end.

(** [err.code]; [None] when the exception has no such property. *)
Definition error_code (e : JsError) : option string :=
  match e with
  | ValidationError _ _ _ => Some "VALIDATION_ERROR"
  | ApiError _ _ _ => Some "API_ERROR"
  | OtherError _ => None
  end.

Definition error_message (e : JsError) : string :=
  match e with
  | ValidationError m _ _ => m
  | ApiError m _ _ => m
  | OtherError m => m
  end.

(** *** The world the executor runs in *)

Record Response : Type := mkResponse {
  status : Z;
  statusText : string;
  text : string
}.

(** [resp.ok]. *)
Definition ok (r : Response) : bool :=
  (200 <=? status r) && (status r <=? 299).

(** What one call of [fetch] (with the reading of the body) comes to,
    and the time it takes. *)
Inductive Outcome : Type :=
| Responds (latency : Z) (r : Response)
| Rejects (latency : Z) (message : string).

Inductive Event : Type :=
| EvSleep (d : RateLimiter.ms)
| EvFetch (method path : string) (query payload : value).

(** The log and the metrics are not part of it. *)
Record World : Type := mkWorld {
  (** [Date.now()] *)
  clock : Z;
  (** the outcomes of the coming calls of [fetch], in order; when none
      is left the call is rejected *)
  network : list Outcome;
  (** [env.ZAPMAIL_API_KEY] and [env.ZAPMAIL_API_TOKEN] *)
  ZAPMAIL_API_KEY : option string;
  ZAPMAIL_API_TOKEN : option string;
  (** [CONFIG.maxRetries] *)
  CONFIG_maxRetries : Z;
  (** [const cache = CONFIG.enableCaching ? new Cache() : null] *)
  cache : option (Cache.t json);
  (** [const rateLimiter = new RateLimiter()] *)
  rateLimiter : RateLimiter.t;
  (** what happened so far, oldest first *)
  trace : list Event
}.

Inductive Result (A : Type) : Type :=
| Ok (a : A)
| Throw (e : JsError).
Arguments Ok {A} _.
Arguments Throw {A} _.

(** An [async] function: it runs in a world, changes it, and returns or
    throws. *)
Definition M (A : Type) : Type := World -> Result A * World.

Definition ret {A} (a : A) : M A := fun w => (Ok a, w).
Definition throw {A} (e : JsError) : M A := fun w => (Throw e, w).
Definition bind {A B} (m : M A) (f : A -> M B) : M B :=
  fun w =>
    match m w with
    | (Ok a, w') => f a w'
    | (Throw e, w') => (Throw e, w')
    end.
Definition gets {A} (f : World -> A) : M A := fun w => (Ok (f w), w).
Definition modify (f : World -> World) : M unit := fun w => (Ok tt, f w).

Notation "x <- m ;; k" := (bind m (fun x => k))
  (at level 61, m at next level, right associativity).
Notation "m ;;; k" := (bind m (fun _ => k))
  (at level 61, right associativity).

Definition set_clock (t : Z) (w : World) : World :=
  mkWorld t (network w) (ZAPMAIL_API_KEY w) (ZAPMAIL_API_TOKEN w)
    (CONFIG_maxRetries w) (cache w) (rateLimiter w) (trace w).
Definition set_network (n : list Outcome) (w : World) : World :=
  mkWorld (clock w) n (ZAPMAIL_API_KEY w) (ZAPMAIL_API_TOKEN w)
    (CONFIG_maxRetries w) (cache w) (rateLimiter w) (trace w).
Definition set_cache (c : option (Cache.t json)) (w : World) : World :=
  mkWorld (clock w) (network w) (ZAPMAIL_API_KEY w) (ZAPMAIL_API_TOKEN w)
    (CONFIG_maxRetries w) c (rateLimiter w) (trace w).
Definition set_rateLimiter (rl : RateLimiter.t) (w : World) : World :=
  mkWorld (clock w) (network w) (ZAPMAIL_API_KEY w) (ZAPMAIL_API_TOKEN w)
    (CONFIG_maxRetries w) (cache w) rl (trace w).
Definition log_event (e : Event) (w : World) : World :=
  mkWorld (clock w) (network w) (ZAPMAIL_API_KEY w) (ZAPMAIL_API_TOKEN w)
    (CONFIG_maxRetries w) (cache w) (rateLimiter w) (trace w ++ [e]).

(** The time a timer of [node:timers/promises] really waits: a delay
    outside [1 .. 2^31 - 1] is replaced by 1. *)
Definition timer_delay (d : RateLimiter.ms) : Z :=
  match d with
  | RateLimiter.Finite z => if (1 <=? z) && (z <=? 2147483647) then z else 1
  | RateLimiter.Infinity => 1
  end.

(** [await sleep(d)]. *)
Definition sleep (d : RateLimiter.ms) : M unit :=
  modify (fun w => set_clock (clock w + timer_delay d) (log_event (EvSleep d) w)).

Definition latency_of (o : Outcome) : Z :=
  match o with
  | Responds l _ => l
  | Rejects l _ => l
  end.

(** [await fetch(url, ...)] followed by [await resp.text()]. *)
Definition fetch (method path : string) (query payload : value) : M Outcome :=
  fun w =>
    let w1 := log_event (EvFetch method path query payload) w in
    match network w with
    | [] => (Ok (Rejects 0 "fetch failed"), w1)
    | o :: rest =>
        (Ok o, set_clock (clock w + Z.max 0 (latency_of o)) (set_network rest w1))
    end.

(** *** Validation (lines 184-208) *)

Definition validateRequired (v : value) (fieldName : string) : M json :=
  match v with
  | None => throw (ValidationError (fieldName ++ " is required")%string fieldName v)
  | Some JNull =>
      throw (ValidationError (fieldName ++ " is required")%string fieldName v)
  | Some (JStr EmptyString) =>
      throw (ValidationError (fieldName ++ " is required")%string fieldName v)
  | Some j => ret j
  end.

Definition validateString (v : value) (fieldName : string) : M string :=
  validated <- validateRequired v fieldName ;;
  match validated with
  | JStr s =>
      if (1000 <? Z.of_nat (String.length s))
      then throw (ValidationError
                    (fieldName ++ " exceeds maximum length of 1000")%string
                    fieldName (Some validated))
      else ret s
  | _ => throw (ValidationError (fieldName ++ " must be a string")%string
                  fieldName (Some validated))
  end.

(** *** [getApiKey] (lines 81-84) *)

Definition nonempty (o : option string) : bool :=
  match o with
  | Some s => negb (Str.is_empty s)
  | None => false
  end.

Definition getApiKey (w : World) : option string :=
  let key :=
    if nonempty (ZAPMAIL_API_KEY w) then ZAPMAIL_API_KEY w
    else ZAPMAIL_API_TOKEN w in
  if nonempty key then option_map Str.trim key else None.

(** *** [rateLimiter.checkLimit(key)] as the executor awaits it *)

Definition checkLimit (key : string) : M unit :=
  now <- gets clock ;;
  rl <- gets rateLimiter ;;
  let (wait, rl') := RateLimiter.checkLimit key now rl in
  match wait with
  | Some d => sleep d
  | None => ret tt
  end ;;;
  modify (set_rateLimiter rl').

(** *** [apiFetch] (lines 2561-2744) *)

Record Options : Type := mkOptions {
  (** [undefined] stands for the default ["GET"] *)
  opt_method : value;
  opt_query : value;
  opt_body : value;
  (** [None] stands for the default [CONFIG.maxRetries] *)
  opt_maxRetries : option Z
}.

(** [`${method}:${path}:${JSON.stringify(query || {})}`]. *)
Definition cacheKey (method path : string) (query : value) : string :=
  (method ++ ":" ++ path ++ ":" ++
   JSON_stringify (match Json.or_else query (Some (JObj [])) with
                   | Some q => q
                   | None => JObj []
                   end))%string.

(** The block "Check cache for GET requests": the cached value when the
    call is served from the cache. *)
Definition cacheLookup (method path : string) (query : value) : M value :=
  c <- gets cache ;;
  match c with
  | Some c0 =>
      if String.eqb method "GET" then
        now <- gets clock ;;
        let (cached, c1) := Cache.get (cacheKey method path query) now c0 in
        modify (set_cache (Some c1)) ;;;
        ret (if Json.truthy cached then cached else None)
      else ret None
  | None => ret None
  end.

(** The block "Cache successful GET requests". *)
Definition cacheStore (method path : string) (query : value) (result : json)
    : M unit :=
  c <- gets cache ;;
  match c with
  | Some c0 =>
      if String.eqb method "GET" then
        now <- gets clock ;;
        modify (set_cache
                  (Some (Cache.set (cacheKey method path query) result None now c0)))
      else ret tt
  | None => ret tt
  end.

(** [text ? JSON.parse(text) : null], with [null] when parsing throws. *)
Definition parseBody (text : string) : json :=
  if Str.is_empty text then JNull
  else match JSON_parse text with
       | Some j => j
       | None => JNull
       end.

(** [json?.message || resp.statusText || text], as the template literal
    prints it; [None] when the template literal throws. *)
Definition errorDetail (j : json) (resp : Response) : option string :=
  let m := Json.prop "message" (Some j) in
  if Json.truthy m then Json.toString_value m
  else if negb (Str.is_empty (statusText resp)) then Some (statusText resp)
  else Some (text resp).

(** What the statement
    [throw new ApiError(`HTTP ${resp.status}: ${msg}`, resp.status, json)]
    throws: the [ApiError], which carries the parsed body [json] ([null]
    for a body that is no JSON), or the [TypeError] of its template
    literal. *)
Definition thrownFor (j : json) (resp : Response) : JsError :=
  match errorDetail j resp with
  | Some msg =>
      ApiError ("HTTP " ++ Str.of_Z (status resp) ++ ": " ++ msg)%string
               (status resp) j
  | None => OtherError Json.cannotConvert
  end.

Definition retryable (st : Z) : bool := (st =? 429) || (st >=? 500).

(** [Math.min(2500 * (attempt + 1), 9000)]. *)
Definition backoff (attempt : Z) : Z := Z.min (2500 * (attempt + 1)) 9000.

(** The [for] loop of [apiFetch], entered with the counter at
    [attempt]. [fuel] bounds the number of iterations; falling out of
    the loop returns [undefined]. *)
Fixpoint attempts (method path : string) (query payload : value)
    (maxRetries : Z) (fuel : nat) (attempt : Z) : M value :=
  match fuel with
  | O => ret None
  | S fuel' =>
      if attempt <=? maxRetries then
        let next := attempts method path query payload maxRetries fuel'
                      (attempt + 1) in
        let catch (err : JsError) : M value :=
          if attempt =? maxRetries then throw err
          else sleep (RateLimiter.Finite (700 * (attempt + 1))) ;;; next in
        o <- fetch method path query payload ;;
        match o with
        | Rejects _ message => catch (OtherError message)
        | Responds _ resp =>
            let j := parseBody (text resp) in
            (* from [clearTimeout(timer)] to [return result] *)
            let settle : M value :=
              if negb (ok resp) then catch (thrownFor j resp)
              else
                let result :=
                  match j with
                  | JNull => JObj [("raw", JStr (text resp))]
                  | _ => j
                  end in
                cacheStore method path query result ;;;
                ret (Some result) in
            if retryable (status resp) then
              if attempt <? maxRetries then
                sleep (RateLimiter.Finite (backoff attempt)) ;;; next
              else settle
            else settle
        end
      else ret None
  end.

(** [maxRetries = CONFIG.maxRetries] unless the caller gives it. *)
Definition retriesOf (o : Options) (w : World) : Z :=
  match opt_maxRetries o with
  | Some n => n
  | None => CONFIG_maxRetries w
  end.

(** The body that is serialized into the request: none for [GET], none
    when [body] is [undefined] or [null]. *)
Definition payloadOf (method : string) (o : Options) : value :=
  match opt_body o with
  | None | Some JNull => None
  | Some b => if String.eqb method "GET" then None else Some b
  end.

(** The body of the outer [try]. The outer [catch] (lines 2727-2743)
    writes the exception to the log, counts it in the metrics and throws
    it again: it changes no part of the world. *)
Definition apiFetch (path : value) (o : Options) : M value :=
  let method0 :=
    match opt_method o with
    | None => Some (JStr "GET")
    | m => m
    end in
  path <- validateString path "path" ;;
  method <- validateString method0 "method" ;;
  checkLimit "api" ;;;
  cached <- cacheLookup method path (opt_query o) ;;
  match cached with
  | Some c => ret (Some c)
  | None =>
      apiKey <- gets getApiKey ;;
      if negb (nonempty apiKey) then
        throw (ValidationError "ZAPMAIL_API_KEY not configured" "apiKey"
                 (Some JNull))
      else
        maxRetries <- gets (retriesOf o) ;;
        attempts method path (opt_query o) (payloadOf method o) maxRetries
          (Z.to_nat (maxRetries + 1)) 0
  end.

(** *** High-level primitives (lines 2786-2950) *)

(** [s.toUpperCase()] on the method names the program uses. *)
Definition toUpperCase (s : string) : string :=
  string_of_list_ascii
    (map (fun c => if Str.between 97 122 c
                   then ascii_of_N (Str.code c - 32) else c)
         (list_ascii_of_string s)).

(** [p.replace(/^\/api\//i, "/")]. *)
Definition stripApiPrefix (p : string) : string :=
  if String.eqb (Str.toLowerCase (String.substring 0 5 p)) "/api/"
  then String.substring 4 (String.length p - 4) p
  else p.

(** [invokeSlug] called with both [method] and [path] and without
    [pathParams], as the primitives below call it: the documentation of
    the slug is then not consulted. *)
Definition invokeSlug (method path : string) (body : value) : M value :=
  let p := if Str.startsWith "/" path then path else ("/" ++ path)%string in
  apiFetch (Some (JStr (stripApiPrefix p)))
    (mkOptions (Some (JStr (toUpperCase method))) None body None).

Definition getWalletBalance : M num :=
  data <- apiFetch (Some (JStr "/v2/wallet/balance"))
            (mkOptions (Some (JStr "GET")) None None None) ;;
  ret (match
         Json.number_or (Json.prop "walletBalance" data)
           (Json.number_or (Json.prop "balance" data)
              (Json.number_or (Json.prop "walletBalance" (Json.prop "data" data))
                 (Some (lit 0))))
       with
       | Some balance => balance
       | None => lit 0
       end).

Definition checkDomainAvailabilitySingle (domainName : string) (years : num)
    : M value :=
  invokeSlug "POST" "/v2/domains/available"
    (Some (JObj [("domainName", JStr domainName); ("years", JNum years)])).

(** [Number(v)] for a value that is not [undefined]; [None] when the
    conversion of an array or an object throws. *)
Definition Number (v : json) : option num :=
  match v with
  | JNull => Some (lit 0)
  | JBool true => Some (lit 1)
  | JBool false => Some (lit 0)
  | JNum n => Some n
  | JStr s => Some (StringToNumber s)
  | other => option_map StringToNumber (Json.toString other)
  end.

(** The predicate of [list.find] in [purchaseDomains]. *)
Definition sameDomain (d : string) (item : json) : bool :=
  match Json.prop "domainName" (Some item) with
  | Some (JStr name) => String.eqb (Str.toLowerCase name) (Str.toLowerCase d)
  | _ => false
  end.

(** The price of domain [d] as [purchaseDomains] reads it from the
    availability response [avail]; [None] when a call of [Number]
    throws. *)
Definition resolvePrice (avail : value) (d : string) : option num :=
  let list :=
    Json.or_else (Json.prop "availableDomains" avail)
                 (Json.prop "availableDomains" (Json.prop "data" avail)) in
  let price :=
    match list with
    | Some (JArr (first :: rest)) =>
        match List.find (sameDomain d) (first :: rest) with
        | Some m =>
            match Json.prop "domainPrice" (Some m) with
            | Some p => Number p
            | None =>
                match Json.prop "domainPrice" (Some first) with
                | Some p => Number p
                | None => Some (lit 0)
                end
            end
        | None =>
            match Json.prop "domainPrice" (Some first) with
            | Some p => Number p
            | None => Some (lit 0)
            end
        end
    | _ => Some (lit 0)
    end in
  match price with
  | Some price =>
      if nonzero price then Some price
      else
        match Json.nullish (Json.prop "price" avail)
                (Json.nullish (Json.prop "price" (Json.prop "data" avail))
                   (Some (JNum (lit 0)))) with
        | Some p => Number p
        | None => Some (lit 0)
        end
  | None => None
  end.

(** [(price || 0) * years]. *)
Definition cost (price years : num) : num :=
  mul (if nonzero price then price else lit 0) years.

(** The [for (const d of domains)] loop: the accumulated [total] and the
    prices in the order of the domains. *)
Fixpoint priceLoop (domains : list string) (years : num) (total : num)
    : M (num * list num) :=
  match domains with
  | [] => ret (total, [])
  | d :: domains' =>
      avail <- checkDomainAvailabilitySingle d years ;;
      match resolvePrice avail d with
      | Some price =>
          r <- priceLoop domains' years (add total (cost price years)) ;;
          ret (fst r, price :: snd r)
      | None => throw (OtherError Json.cannotConvert)
      end
  end.

Record PurchaseResult : Type := mkPurchaseResult {
  useWallet : bool;
  total : num;
  result : value
}.

(** [purchaseDomains({domains, years = 1, preferWallet = true})]. *)
Definition purchaseDomains (domains : list string) (years : option num)
    (preferWallet : option bool) : M PurchaseResult :=
  let years := match years with Some y => y | None => lit 1 end in
  let preferWallet := match preferWallet with Some b => b | None => true end in
  r <- priceLoop domains years (lit 0) ;;
  let total := fst r in
  useWallet <-
    (if preferWallet then
       bal <- getWalletBalance ;;
       ret (geb bal total)
     else ret false) ;;
  let payload :=
    JObj [("domains",
           JArr (map (fun d => JObj [("domainName", JStr d); ("years", JNum years)])
                     domains));
          ("useWallet", JBool useWallet)] in
  result <- invokeSlug "POST" "/v2/domains/buy" (Some payload) ;;
  ret (mkPurchaseResult useWallet total result).

(** *** Vocabulary for the statements about the executor *)

(** A response with one of the statuses the loop retries on. *)
Definition retryable_response (o : Outcome) : Prop :=
  match o with
  | Responds _ r => retryable (status r) = true
  | Rejects _ _ => False
  end.

(** The events of [n] rounds "request, then back off" of a call, the
    first round being attempt number [attempt]. *)
Fixpoint rounds (method path : string) (query payload : value) (n : nat)
    (attempt : Z) : list Event :=
  match n with
  | O => []
  | S n' =>
      EvFetch method path query payload
        :: EvSleep (RateLimiter.Finite (backoff attempt))
        :: rounds method path query payload n' (attempt + 1)
  end.

(** The exception of a response that is not [ok]. *)
Definition apiError (r : Response) : JsError :=
  thrownFor (parseBody (text r)) r.

(** [json ?? { raw: text }]. *)
Definition resultOf (r : Response) : json :=
  match parseBody (text r) with
  | JNull => JObj [("raw", JStr (text r))]
  | _ => parseBody (text r)
  end.

(** A string [validateString] accepts. *)
Definition valid (s : string) : Prop :=
  s <> "" /\ Z.of_nat (String.length s) <= 1000.

(** The method a call is made with. *)
Definition methodOf (o : Options) (m : string) : Prop :=
  match opt_method o with
  | None => m = "GET"
  | Some j => j = JStr m
  end.

(** What [apiFetch] does between the validation of its arguments and the
    check of the credential: the rate-limit gate and the cache lookup. *)
Definition beforeKeyCheck (path method : string) (o : Options) : M value :=
  bind (checkLimit "api") (fun _ => cacheLookup method path (opt_query o)).

(** The parts of the world that only [fetch] and the environment
    determine. *)
Definition same_outside (w w' : World) : Prop :=
  network w' = network w
  /\ ZAPMAIL_API_KEY w' = ZAPMAIL_API_KEY w
  /\ ZAPMAIL_API_TOKEN w' = ZAPMAIL_API_TOKEN w
  /\ CONFIG_maxRetries w' = CONFIG_maxRetries w.

Definition is_sleep (e : Event) : Prop := exists d, e = EvSleep d.

End WithRuntime.

Arguments Ok {num A} a.
Arguments Throw {num A} e.

End Exec.

(** ** Regular expressions

    A backtracking matcher for the fragment of JavaScript regular
    expressions the planner uses: characters and classes, sequence,
    ordered alternation, the greedy star, the word boundary [\b] and
    capturing groups (none of which stands under a star). Alternatives are
    tried left to right and a star first tries one more iteration, as the
    language prescribes, so that the match found and its groups are the
    ones [exec] reports. *)

Module Regex.

Inductive re : Type :=
| Eps
| Chr (f : ascii -> bool)
| Seq (a b : re)
| Alt (a b : re)
| Star (a : re)
| WordBoundary
| Group (i : nat) (a : re).

(** A position in the subject: the character before it (if any), the
    characters from it on, and the groups captured so far. *)
Record pos : Type := mkPos {
  prev : option ascii;
  rest : list ascii;
  groups : list (nat * string)
}.

(** [\w]. *)
Definition is_word (c : ascii) : bool :=
  Str.between 97 122 c || Str.between 65 90 c || Str.between 48 57 c
  || (Str.code c =? 95)%N.

Definition word_before (p : pos) : bool :=
  match prev p with Some c => is_word c | None => false end.

Definition word_after (p : pos) : bool :=
  match rest p with c :: _ => is_word c | [] => false end.

(** The text between two positions of one subject, the first one being
    the earlier. *)
Definition between (p q : pos) : string :=
  string_of_list_ascii
    (firstn (List.length (rest p) - List.length (rest q)) (rest p)).

(** [m r p k]: match [r] at [p] and continue with [k]; [None] is
    failure. *)
Fixpoint m (r : re) (p : pos) (k : pos -> option pos) {struct r}
    : option pos :=
  match r with
  | Eps => k p
  | Chr f =>
      match rest p with
      | c :: l => if f c then k (mkPos (Some c) l (groups p)) else None
      | [] => None
      end
  | Seq a b => m a p (fun p' => m b p' k)
  | Alt a b =>
      match m a p k with
      | Some e => Some e
      | None => m b p k
      end
  | Star a =>
      (fix loop (fuel : nat) (p : pos) {struct fuel} : option pos :=
         match fuel with
         | O => k p
         | S fuel' =>
             match m a p (fun p' =>
                            if (List.length (rest p') <? List.length (rest p))%nat
                            then loop fuel' p' else None) with
             | Some e => Some e
             | None => k p
             end
         end) (List.length (rest p)) p
  | WordBoundary => if xorb (word_before p) (word_after p) then k p else None
  | Group i a =>
      m a p (fun p' => k (mkPos (prev p') (rest p') ((i, between p p') :: groups p')))
  end.

(** A match: the matched text, the groups, and the position after it. *)
Record found : Type := mkFound {
  whole : string;
  captured : list (nat * string);
  after : pos
}.

(** The group numbered [i] of a match ([m[i]]). *)
Fixpoint group (i : nat) (gs : list (nat * string)) : option string :=
  match gs with
  | [] => None
  | (j, s) :: gs' => if Nat.eqb i j then Some s else group i gs'
  end.

(** The first match at or after position [p], trying each start from left
    to right. *)
Fixpoint search (r : re) (fuel : nat) (p : pos) : option found :=
  match m r (mkPos (prev p) (rest p) []) (fun e => Some e) with
  | Some e => Some (mkFound (between p e) (groups e) e)
  | None =>
      match fuel, rest p with
      | S fuel', c :: l => search r fuel' (mkPos (Some c) l [])
      | _, _ => None
      end
  end.

Definition start (s : string) : pos := mkPos None (list_ascii_of_string s) [].

(** [r.exec(s)] and [s.match(r)] for an expression without the [g] flag. *)
Definition exec (r : re) (s : string) : option found :=
  search r (String.length s) (start s).

(** [r.test(s)]. *)
Definition test (r : re) (s : string) : bool :=
  match exec r s with Some _ => true | None => false end.

(** The successive matches of an expression with the [g] flag, as the loop
    [while ((m = re.exec(text)) !== null)] sees them. A match always
    consumes a character here. *)
Fixpoint execAll (r : re) (fuel : nat) (p : pos) : list found :=
  match fuel with
  | O => []
  | S fuel' =>
      match search r (List.length (rest p)) p with
      | Some f =>
          if (List.length (rest (after f)) <? List.length (rest p))%nat
          then f :: execAll r fuel' (mkPos (prev (after f)) (rest (after f)) [])
          else [f]
      | None => []
      end
  end.

(** *** Building expressions *)

Definition upper (c : ascii) : ascii :=
  if Str.between 97 122 c then ascii_of_N (Str.code c - 32) else c.

(** A literal character under the [i] flag. *)
Definition chr_i (x : ascii) : re :=
  Chr (fun c => Ascii.eqb (upper c) (upper x)).

(** A literal string under the [i] flag. *)
Fixpoint str_i (s : string) : re :=
  match s with
  | EmptyString => Eps
  | String x EmptyString => chr_i x
  | String x s' => Seq (chr_i x) (str_i s')
  end.

Fixpoint seqs (l : list re) : re :=
  match l with
  | [] => Eps
  | [r] => r
  | r :: l' => Seq r (seqs l')
  end.

(** [(a|b|...)] without the group. *)
Fixpoint alts (l : list re) : re :=
  match l with
  | [] => Chr (fun _ => false)
  | [r] => r
  | r :: l' => Alt r (alts l')
  end.

(** [r?], [r+] and [r{2,}]. *)
Definition opt (r : re) : re := Alt r Eps.
Definition plus (r : re) : re := Seq r (Star r).
Definition two_or_more (r : re) : re := Seq r (Seq r (Star r)).

(** [.]: any character but a line terminator. *)
Definition dot : re :=
  Chr (fun c => negb ((Str.code c =? 10)%N || (Str.code c =? 13)%N)).

(** [.*] *)
Definition any : re := Star dot.

(** [\d], [\s], and the classes [[a-z0-9-]], [[a-zA-Z0-9.-]], [[a-zA-Z]],
    the first one under the [i] flag. *)
Definition digit : re := Chr (Str.between 48 57).
Definition space : re := Chr Str.is_space.
Definition is_letter (c : ascii) : bool :=
  Str.between 97 122 c || Str.between 65 90 c.
Definition host_char : re :=
  Chr (fun c => is_letter c || Str.between 48 57 c || (Str.code c =? 45)%N).
Definition host_dot_char : re :=
  Chr (fun c => is_letter c || Str.between 48 57 c || (Str.code c =? 46)%N
                || (Str.code c =? 45)%N).
Definition letter : re := Chr is_letter.

Definition b : re := WordBoundary.

(** [\b(w1|w2|...)\b] with the group numbered [i]. *)
Definition word (i : nat) (ws : list re) : re :=
  seqs [b; Group i (alts ws); b].

End Regex.

(** ** The natural-language planner (index.js, lines 3217-3697) *)

Module Planner.

Import Regex.

Inductive Intent : Type :=
| LIST_WORKSPACES
| LIST_DOMAINS
| CHECK_DOMAIN
| BUY_DOMAINS
| CREATE_MAILBOXES_EMPTY
| CONNECT_EXPORT_APP
| EXPORT_TO_REACHINBOX
| EXPORT_TO_INSTANTLY
| EXPORT_TO_SMARTLEAD
| EXPORT_TO_REPLYIO
| EXPORT_MAILBOXES
| EXPORT_CSV
| EXPORT_SPECIFIC
| EXPORT_BY_DOMAIN
| CREATE_AND_CONNECT.

(** Pieces that occur in several patterns. *)
Definition domains_ : re := Seq (str_i "domain") (opt (str_i "s")).
Definition domain_or_domains : list re := [str_i "domain"; domains_].
Definition mailboxes_ : re := Seq (str_i "mailboxe") (opt (str_i "s")).
Definition inboxes_ : re := Seq (str_i "inboxe") (opt (str_i "s")).
Definition emails_ : re := Seq (str_i "email") (opt (str_i "s")).
Definition contacts_ : re := Seq (str_i "contact") (opt (str_i "s")).
(** [reply\.?io] *)
Definition reply_io : re := seqs [str_i "reply"; opt (str_i "."); str_i "io"].

(** [INTENT_PATTERNS], in the order of the source. *)
Definition INTENT_PATTERNS : list (Intent * re) :=
  [ (LIST_WORKSPACES,
      (* /\b(list|show|get)\b.*\bworkspaces?\b/i *)
      seqs [word 1 [str_i "list"; str_i "show"; str_i "get"]; any;
            b; str_i "workspace"; opt (str_i "s"); b]);
    (LIST_DOMAINS,
      (* /\b(list|show|get)\b.*\bdomains?\b/i *)
      seqs [word 1 [str_i "list"; str_i "show"; str_i "get"]; any;
            b; domains_; b]);
    (CHECK_DOMAIN,
      (* /\b(check|is|are)\b.*\b(domain|domains?)\b.*\bavailable\b/i *)
      seqs [word 1 [str_i "check"; str_i "is"; str_i "are"]; any;
            word 2 domain_or_domains; any; b; str_i "available"; b]);
    (BUY_DOMAINS,
      (* /\b(buy|purchase|register)\b.*\b(domain|domains?)\b/i *)
      seqs [word 1 [str_i "buy"; str_i "purchase"; str_i "register"]; any;
            word 2 domain_or_domains]);
    (CREATE_MAILBOXES_EMPTY,
      (* /\b(create|add|setup)\b.*\b(mailboxes?|inboxes?)\b.*\b(0|zero)\b.*\bdomains?\b/i *)
      seqs [word 1 [str_i "create"; str_i "add"; str_i "setup"]; any;
            word 2 [mailboxes_; inboxes_]; any;
            word 3 [str_i "0"; str_i "zero"]; any; b; domains_; b]);
    (CONNECT_EXPORT_APP,
      (* /\b(connect|link|add)\b.*\b(instantly|reachinbox|smartlead|reply\.?io)\b/i *)
      seqs [word 1 [str_i "connect"; str_i "link"; str_i "add"]; any;
            word 2 [str_i "instantly"; str_i "reachinbox"; str_i "smartlead";
                    reply_io]]);
    (EXPORT_TO_REACHINBOX,
      (* /\b(export|send|transfer)\b.*\b(reachinbox|reachin)\b/i *)
      seqs [word 1 [str_i "export"; str_i "send"; str_i "transfer"]; any;
            word 2 [str_i "reachinbox"; str_i "reachin"]]);
    (EXPORT_TO_INSTANTLY,
      (* /\b(export|send|transfer)\b.*\b(instantly)\b/i *)
      seqs [word 1 [str_i "export"; str_i "send"; str_i "transfer"]; any;
            word 2 [str_i "instantly"]]);
    (EXPORT_TO_SMARTLEAD,
      (* /\b(export|send|transfer)\b.*\b(smartlead)\b/i *)
      seqs [word 1 [str_i "export"; str_i "send"; str_i "transfer"]; any;
            word 2 [str_i "smartlead"]]);
    (EXPORT_TO_REPLYIO,
      (* /\b(export|send|transfer)\b.*\b(reply\.?io|replyio)\b/i *)
      seqs [word 1 [str_i "export"; str_i "send"; str_i "transfer"]; any;
            word 2 [reply_io; str_i "replyio"]]);
    (EXPORT_MAILBOXES,
      (* /\b(export|download|get)\b.*\b(mailboxes?|emails?|contacts?)\b/i *)
      seqs [word 1 [str_i "export"; str_i "download"; str_i "get"]; any;
            word 2 [mailboxes_; emails_; contacts_]]);
    (EXPORT_CSV,
      (* /\b(export|download|get)\b.*\b(csv|file|spreadsheet)\b/i *)
      seqs [word 1 [str_i "export"; str_i "download"; str_i "get"]; any;
            word 2 [str_i "csv"; str_i "file"; str_i "spreadsheet"]]);
    (EXPORT_SPECIFIC,
      (* /\b(export|send)\b.*\b(specific|certain|selected)\b.*\b(mailboxes?|emails?)\b/i *)
      seqs [word 1 [str_i "export"; str_i "send"]; any;
            word 2 [str_i "specific"; str_i "certain"; str_i "selected"]; any;
            word 3 [mailboxes_; emails_]]);
    (EXPORT_BY_DOMAIN,
      (* /\b(export|send)\b.*\b(domain|domains?)\b.*\b(mailboxes?|emails?)\b/i *)
      seqs [word 1 [str_i "export"; str_i "send"]; any;
            word 2 domain_or_domains; any;
            word 3 [mailboxes_; emails_]]) ].

(** [/\b(mailboxes?|inboxes?)\b.*\b(connect|link)\b/i], the test of the
    compound fallback. *)
Definition compound_re : re :=
  seqs [word 1 [mailboxes_; inboxes_]; any;
        word 2 [str_i "connect"; str_i "link"]].

(** [/\b([a-z0-9-]+\.(?:com|net|org|io|ai|app|co|in))\b/gi] *)
Definition domain_re : re :=
  seqs [b;
        Group 1 (seqs [plus host_char; str_i ".";
                       alts [str_i "com"; str_i "net"; str_i "org"; str_i "io";
                             str_i "ai"; str_i "app"; str_i "co"; str_i "in"]]);
        b].

(** [/\b(\d+)\s*(?:year|years|yr|yrs)\b/i] *)
Definition years_re : re :=
  seqs [b; Group 1 (plus digit); Star space;
        alts [str_i "year"; str_i "years"; str_i "yr"; str_i "yrs"]; b].

(** [/\b(\d+)\s*(?:mailboxes?|inboxes?)\b/i] *)
Definition mailbox_count_re : re :=
  seqs [b; Group 1 (plus digit); Star space; alts [mailboxes_; inboxes_]; b].

(** [/\b(?:from|in|to)\s+([a-zA-Z0-9.-]+\.[a-zA-Z]{2,})\b/i] *)
Definition export_domain_re : re :=
  seqs [b; alts [str_i "from"; str_i "in"; str_i "to"]; plus space;
        Group 1 (seqs [plus host_dot_char; str_i "."; two_or_more letter]); b].

(** A [Set] of strings spread into an array: first occurrences, in
    order. *)
Fixpoint unique (seen l : list string) : list string :=
  match l with
  | [] => []
  | x :: l' =>
      if existsb (String.eqb x) seen then unique seen l'
      else x :: unique (x :: seen) l'
  end.

Definition simpleParseDomains (text : string) : list string :=
  unique []
    (map (fun f => Str.toLowerCase
                     (match group 1 (captured f) with Some s => s | None => "" end))
         (execAll domain_re (S (String.length text)) (start text))).

Section WithNumbers.

Context {num : Type} `{JsNumber num}.

Local Abbreviation json := (Json.t num) (only parsing).
Local Abbreviation value := (@Json.value num) (only parsing).

Definition simpleParseYears (text : string) : num :=
  match exec years_re text with
  | Some f =>
      Math_max (lit 1)
        (parseInt (match group 1 (captured f) with Some s => s | None => "" end))
  | None => lit 1
  end.

Definition simpleParseMailboxCount (text : string) : num :=
  match exec mailbox_count_re text with
  | Some f =>
      Math_max (lit 1)
        (parseInt (match group 1 (captured f) with Some s => s | None => "" end))
  | None => lit 3
  end.

Record Plan : Type := mkPlan {
  strategy : string;
  steps : list json
}.

(** The second argument of [planFromRules]. *)
Record Hints : Type := mkHints {
  email : value;
  password : value
}.

(** The first pattern that matches. *)
Fixpoint firstMatch (patterns : list (Intent * re)) (q : string)
    : option Intent :=
  match patterns with
  | [] => None
  | (intent, r) :: patterns' =>
      if test r q then Some intent else firstMatch patterns' q
  end.

(** The intent [planFromRules] switches on. *)
Definition matchIntent (q : string) : option Intent :=
  match firstMatch INTENT_PATTERNS q with
  | Some i => Some i
  | None => if test compound_re q then Some CREATE_AND_CONNECT else None
  end.

(** [String(nl || "").trim()]; [None] when [String] throws. *)
Definition normalize (nl : value) : option string :=
  option_map Str.trim (if Json.truthy nl then Json.toString_value nl else Some "").

(** The application a connect step names. *)
Definition chooseApp (q : string) : string :=
  if test (str_i "reachinbox") q then "REACHINBOX"
  else if test (str_i "smartlead") q then "SMARTLEAD"
  else if test reply_io q then "REPLY_IO"
  else "INSTANTLY".

Definition str (s : string) : json := JStr s.

Definition or_string (v : value) (default : string) : json :=
  match Json.or_else v (Some (JStr default)) with
  | Some j => j
  | None => JStr default
  end.

(** The three steps of an export to a named platform. *)
Definition exportTo (platform app : string) (options : Hints) : list json :=
  [ JObj [("action", str "info");
          ("note", str ("Export to " ++ platform
                        ++ " requires credentials. Please provide your "
                        ++ platform ++ " email and password.")%string)];
    JObj [("action", str "api");
          ("path", str "/v2/exports/accounts/third-party");
          ("method", str "POST");
          ("body", JObj [("email", or_string (email options) "REQUIRED");
                         ("password", or_string (password options) "REQUIRED");
                         ("app", str app)]);
          ("description", str ("Add " ++ platform ++ " account credentials")%string)];
    JObj [("action", str "api");
          ("path", str "/v2/exports/mailboxes");
          ("method", str "POST");
          ("body", JObj [("apps", JArr [str app]); ("status", str "ACTIVE")]);
          ("description",
            str ("Export all active mailboxes to " ++ platform)%string)] ].

Definition connectStep (q : string) (options : Hints) (prefix : string) : json :=
  let app := chooseApp q in
  JObj [("action", str "api");
        ("path", str "/v2/exports/accounts/third-party");
        ("method", str "POST");
        ("body", JObj [("email", or_string (email options) "placeholder@example.com");
                       ("password", or_string (password options) "APP_PASSWORD");
                       ("app", str app)]);
        ("description", str (prefix ++ app)%string)].

Definition exportStep (body : json) (description : string) : json :=
  JObj [("action", str "api");
        ("path", str "/v2/exports/mailboxes");
        ("method", str "POST");
        ("body", body);
        ("description", str description)].

(** The [switch (matched)] of [planFromRules]. *)
Definition stepsFor (matched : option Intent) (q : string) (options : Hints)
    : list json :=
  match matched with
  | Some LIST_WORKSPACES =>
      [ JObj [("action", str "api"); ("slug", JNull);
              ("path", str "/v2/workspaces"); ("method", str "GET");
              ("description", str "List all workspaces")] ]
  | Some LIST_DOMAINS =>
      [ JObj [("action", str "api"); ("slug", JNull);
              ("path", str "/v2/domains"); ("method", str "GET");
              ("description", str "List domains in current workspace")] ]
  | Some CHECK_DOMAIN =>
      let domains := simpleParseDomains q in
      JObj [("action", str "decision");
            ("note", str "Wallet-first is irrelevant for availability; proceed to availability check.")]
      :: map (fun d =>
                JObj [("action", str "api");
                      ("slug", str "get-available-domains-for-registration-13521189e0");
                      ("path", str "/v2/domains/available");
                      ("method", str "POST");
                      ("body", JObj [("domainName", str d);
                                     ("years", JNum (simpleParseYears q))]);
                      ("description", str ("Check availability for " ++ d)%string)])
             domains
  | Some BUY_DOMAINS =>
      let domains := simpleParseDomains q in
      let years := simpleParseYears q in
      [ JObj [("action", str "api"); ("path", str "/v2/wallet/balance");
              ("method", str "GET"); ("description", str "Get wallet balance")];
        JObj [("action", str "compute");
              ("note", str "Check availability & price for each domain, compute total, prefer wallet if sufficient.")];
        JObj [("action", str "api"); ("path", str "/v2/domains/buy");
              ("method", str "POST"); ("bodyFrom", str "purchaseDomains");
              ("years", JNum years); ("domains", JArr (map str domains));
              ("description",
                str ("Purchase " ++ Str.of_Z (Z.of_nat (List.length domains))
                     ++ " domains (wallet-first)")%string)] ]
  | Some CREATE_MAILBOXES_EMPTY =>
      let count := simpleParseMailboxCount q in
      [ JObj [("action", str "api"); ("path", str "/v2/domains");
              ("method", str "GET"); ("description", str "List domains")];
        JObj [("action", str "compute");
              ("note", str "Filter domains with 0 mailboxes")];
        JObj [("action", str "api"); ("path", str "/v2/mailboxes");
              ("method", str "POST");
              ("bodyFrom", str "createMailboxesForZeroDomains");
              ("count", JNum count);
              ("description",
                str ("Create " ++ NumberToString count
                     ++ " mailboxes on each zero-mailbox domain")%string)] ]
  | Some CONNECT_EXPORT_APP =>
      [ connectStep q options "Connect third-party app " ]
  | Some EXPORT_TO_REACHINBOX => exportTo "Reachinbox" "REACHINBOX" options
  | Some EXPORT_TO_INSTANTLY => exportTo "Instantly" "INSTANTLY" options
  | Some EXPORT_TO_SMARTLEAD => exportTo "Smartlead" "SMARTLEAD" options
  | Some EXPORT_TO_REPLYIO => exportTo "Reply.io" "REPLY_IO" options
  | Some EXPORT_MAILBOXES =>
      [ JObj [("action", str "info");
              ("note", str "Export mailboxes. Please specify target platform or use MANUAL for CSV export.")];
        exportStep (JObj [("apps", JArr [str "MANUAL"]); ("status", str "ACTIVE")])
          "Export all active mailboxes as CSV" ]
  | Some EXPORT_CSV =>
      [ exportStep (JObj [("apps", JArr [str "MANUAL"]); ("status", str "ACTIVE")])
          "Export all active mailboxes as CSV file" ]
  | Some EXPORT_SPECIFIC =>
      [ JObj [("action", str "info");
              ("note", str "Export specific mailboxes requires mailbox IDs. Please provide the IDs or use filters.")];
        exportStep (JObj [("apps", JArr [str "MANUAL"]);
                          ("ids", JArr [str "REQUIRED_MAILBOX_IDS"])])
          "Export specific mailboxes as CSV" ]
  | Some EXPORT_BY_DOMAIN =>
      match exec export_domain_re q with
      | Some f =>
          let domain := match group 1 (captured f) with Some s => s | None => "" end in
          [ exportStep (JObj [("apps", JArr [str "MANUAL"]);
                              ("contains", str domain);
                              ("status", str "ACTIVE")])
              ("Export mailboxes from domain " ++ domain ++ " as CSV")%string ]
      | None =>
          [ JObj [("action", str "info");
                  ("note", str "Export by domain requires domain name. Please specify the domain.")];
            exportStep (JObj [("apps", JArr [str "MANUAL"]);
                              ("contains", str "DOMAIN_NAME");
                              ("status", str "ACTIVE")])
              "Export mailboxes from specified domain as CSV" ]
      end
  | Some CREATE_AND_CONNECT =>
      let count := simpleParseMailboxCount q in
      [ JObj [("action", str "api"); ("path", str "/v2/domains");
              ("method", str "GET"); ("description", str "List domains")];
        JObj [("action", str "compute");
              ("note", str "Filter domains with 0 mailboxes, choose target domains")];
        JObj [("action", str "api"); ("path", str "/v2/mailboxes");
              ("method", str "POST");
              ("bodyFrom", str "createMailboxesForZeroDomains");
              ("count", JNum count);
              ("description",
                str ("Create " ++ NumberToString count ++ " mailboxes/domain")%string)];
        connectStep q options "Connect " ]
  | None =>
      [ JObj [("action", str "info");
              ("note", str "No rule matched. Use dynamic endpoint tools or specify slug/path.")] ]
  end.

(** [step.action]. *)
Definition action (step : json) : value := Json.prop "action" (Some step).

Definition noRuleMatched : json :=
  JObj [("action", str "info");
        ("note", str "No rule matched. Use dynamic endpoint tools or specify slug/path.")].

Definition availabilityDecision : json :=
  JObj [("action", str "decision");
        ("note", str "Wallet-first is irrelevant for availability; proceed to availability check.")].

(** [planFromRules(nl, options = {})]; [None] when the call throws,
    which only the conversion of [nl] in its first line can do. *)
Definition planFromRules (nl : value) (options : Hints) : option Plan :=
  match normalize nl with
  | Some q => Some (mkPlan "rules" (stepsFor (matchIntent q) q options))
  | None => None
  end.

(** *** The optional LLM planner and the [plan_and_execute] tool
    (lines 3656-3697 and 4723-4746) *)

Context `{JsBuiltins num}.

(** What the request to the completion service comes to: [fetch] rejects,
    [res.json()] rejects, or a document arrives. *)
Inductive LlmReply : Type :=
| FetchRejects
| JsonRejects
| Data (data : json).

Definition llmFailed : Plan :=
  mkPlan "llm-failed"
    [ JObj [("action", str "info");
            ("note", str "LLM planning failed; fallback to rules.")] ].

(** [data?.choices?.[0]?.message?.content || "{}"], as [JSON.parse]
    reads it; [None] when [JSON.parse] cannot convert it to a string. *)
Definition replyText (data : json) : option string :=
  let content :=
    Json.prop "content"
      (Json.prop "message" (Json.first (Json.prop "choices" (Some data)))) in
  if Json.truthy content then Json.toString_value content else Some "{}".

(** [planFromLLM(nl)], given the reply of the service. *)
Definition planFromLLM (reply : LlmReply) : Plan :=
  match reply with
  | Data data =>
      match replyText data with
      | Some text =>
          match JSON_parse text with
          | Some JNull => llmFailed
          | Some j =>
              match Json.prop "steps" (Some j) with
              | Some (JArr items) => mkPlan "llm" items
              | _ => llmFailed
              end
          | None => llmFailed
          end
      | None => llmFailed
      end
  | FetchRejects => llmFailed
  | JsonRejects => llmFailed
  end.

(** The plan [plan_and_execute] goes on with; [llmPlanner] is
    [FEATURE_FLAGS.llmPlanner]. [None] when [planFromRules] throws. *)
Definition selectPlan (llmPlanner : bool) (reply : LlmReply)
    (instruction : string) (options : Hints) : option Plan :=
  match planFromRules (Some (JStr instruction)) options with
  | Some rulePlan =>
      Some (if llmPlanner then
              let llm := planFromLLM reply in
              if (0 <? Z.of_nat (List.length (steps llm)))
                 && negb (String.eqb (strategy llm) "llm-failed")
              then llm else rulePlan
            else rulePlan)
  | None => None
  end.

Record DryRun : Type := mkDryRun {
  mode : string;
  dr_strategy : string;
  dr_steps : list json
}.

Inductive Answer : Type :=
| Returned (r : DryRun)
| Thrown (message : string).

(** The branch [name === "plan_and_execute"] of [handleToolsInvoke] for
    an input without [execute] (or with [execute: false]). *)
Definition plan_and_execute (llmPlanner : bool) (reply : LlmReply)
    (instruction : value) (options : Hints) : Answer :=
  match instruction with
  | Some (JStr (String c i)) =>
      match selectPlan llmPlanner reply (String c i) options with
      | Some plan => Returned (mkDryRun "dry-run" (strategy plan) (steps plan))
      | None => Thrown Json.cannotConvert
      end
  | _ => Thrown "'instruction' is required"
  end.

End WithNumbers.
End Planner.

(** ** The integer instance

    Integers are the numbers of the examples: on them (below 2^53) the
    operations of doubles are exact. [NaN] has no counterpart; where the
    program would produce it ([Number] of a text that is no numeral) the
    instance gives 0, which the program never tells apart from [NaN]
    (see [resolvePrice] and [cost]). *)

Module Sample.

Fixpoint digits (acc : Z) (l : list ascii) : Z :=
  match l with
  | c :: l' =>
      if Str.between 48 57 c
      then digits (10 * acc + Z.of_N (Str.code c - 48)) l'
      else acc
  | [] => acc
  end.

Definition numeral (s : string) : Z :=
  match list_ascii_of_string (Str.trim s) with
  | "-"%char :: l => - digits 0 l
  | l => digits 0 l
  end.

#[export] Instance Z_number : JsNumber Z := {|
  lit := fun z => z;
  add := Z.add;
  mul := Z.mul;
  geb := Z.geb;
  nonzero := fun z => negb (z =? 0);
  Math_max := Z.max;
  parseInt := numeral;
  StringToNumber := numeral;
  NumberToString := Str.of_Z
|}.

Definition quote : string := String (ascii_of_N 34) EmptyString.

(** [JSON.stringify] on documents whose strings need no escaping. *)
Fixpoint print (j : Json.t Z) : string :=
  match j with
  | JNull => "null"
  | JBool true => "true"
  | JBool false => "false"
  | JNum n => Str.of_Z n
  | JStr s => quote ++ s ++ quote
  | JArr items => "[" ++ Str.join "," (map print items) ++ "]"
  | JObj fields =>
      "{" ++ Str.join ","
               (map (fun kv => quote ++ fst kv ++ quote ++ ":" ++ print (snd kv))
                    fields)
          ++ "}"
  end%string.

(** [JSON.parse] restricted to the texts of a table; every other text is
    taken not to be JSON. *)
Definition builtins (table : list (string * Json.t Z)) : JsBuiltins Z := {|
  JSON_parse := fun s => Json.lookup s table;
  JSON_stringify := print
|}.

(** A server with caching on, an answer ready on the network, and no
    credential in the environment. *)
Definition no_key_world : @Exec.World Z :=
  Exec.mkWorld 0 [Exec.Responds 5 (Exec.mkResponse 200 "OK" "[1,2]")]
    None None 3 (Some Cache.new_default) RateLimiter.new_default [].

(** A call with all options left out. *)
Definition no_options : @Exec.Options Z := Exec.mkOptions None None None None.

(** The purchase scenario: the availability service prices
    [example.com] at [p1] and [test.com] at [p2] a year, the wallet
    holds [balance], and the purchase is acknowledged. *)
Definition availability (domain : string) (price : Z) : Json.t Z :=
  JObj [("availableDomains",
         JArr [JObj [("domainName", JStr domain); ("domainPrice", JNum price)]])].

Definition wallet (balance : Z) : Json.t Z :=
  JObj [("walletBalance", JNum balance)].

Definition receipt : Json.t Z := JObj [("status", JStr "ok")].

Definition shop_documents (p1 p2 balance : Z) : list (Json.t Z) :=
  [availability "example.com" p1; availability "test.com" p2;
   wallet balance; receipt].

Definition shop_builtins (p1 p2 balance : Z) : JsBuiltins Z :=
  builtins (map (fun j => (print j, j)) (shop_documents p1 p2 balance)).

Definition shop_world (p1 p2 balance : Z) : @Exec.World Z :=
  Exec.mkWorld 0
    (map (fun j => Exec.Responds 20 (Exec.mkResponse 200 "OK" (print j)))
         (shop_documents p1 p2 balance))
    (Some "secret") None 3 (Some Cache.new_default) RateLimiter.new_default [].

End Sample.

Import Sample.

(** ** More of the executor's surroundings (index.js, lines 2877-2895) *)

Module Ops.

Import Exec.

Section WithRuntime.

Context {num : Type} `{JsNumber num} `{JsBuiltins num}.

Local Abbreviation json := (Json.t num) (only parsing).
Local Abbreviation value := (@Json.value num) (only parsing).

Local Notation "x <- m ;; k" := (bind m (fun x => k))
  (at level 61, m at next level, right associativity).
Local Notation "m ;;; k" := (bind m (fun _ => k))
  (at level 61, right associativity).

(** The requests in a trace, and their number. *)
Definition is_fetch (e : @Event num) : bool :=
  match e with
  | EvFetch _ _ _ _ => true
  | EvSleep _ => false
  end.

Definition fetches (t : list (@Event num)) : nat := List.length (filter is_fetch t).

(** What the environment fixes: the credentials and the number of
    retries. *)
Definition env (w : @World num) : option string * option string * Z :=
  (ZAPMAIL_API_KEY w, ZAPMAIL_API_TOKEN w, CONFIG_maxRetries w).

(** An event of a call of [apiFetch] with the given arguments: a pause,
    or the request the arguments describe. *)
Definition from_call (path : value) (o : @Options num) (e : @Event num) : Prop :=
  is_sleep e
  \/ exists p m,
       path = Some (JStr p) /\ methodOf o m
       /\ e = EvFetch m p (opt_query o) (payloadOf m o).

(** The body of the purchase request of [purchaseDomains]. *)
Definition buyPayload (domains : list string) (years : num) (useWallet : bool)
    : json :=
  JObj [("domains",
         JArr (map (fun d => JObj [("domainName", JStr d); ("years", JNum years)])
                   domains));
        ("useWallet", JBool useWallet)].

(** [checkDomainAvailabilityBatch(domains, years)]: the pairs
    [{domainName, result}], with a pause of 150 ms after each check. *)
Fixpoint checkDomainAvailabilityBatch (domains : list string) (years : num)
    : M (list (string * value)) :=
  match domains with
  | [] => ret []
  | d :: domains' =>
      res <- checkDomainAvailabilitySingle d years ;;
      sleep (RateLimiter.Finite 150) ;;;
      out <- checkDomainAvailabilityBatch domains' years ;;
      ret ((d, res) :: out)
  end.

(** The failed attempts the loop of [apiFetch] handles in its [catch]:
    a rejected [fetch], or an answer that is neither 2xx nor 429 nor
    5xx. *)
Definition caught_outcome (o : Outcome) : Prop :=
  match o with
  | Rejects _ _ => True
  | Responds _ r => ok r = false /\ retryable (status r) = false
  end.

(** The exception such an attempt raises. *)
Definition errorOf (o : Outcome) : @JsError num :=
  match o with
  | Rejects _ message => OtherError message
  | Responds _ r => apiError r
  end.

(** The events of [n] rounds "request, then pause after an exception",
    the first round being attempt number [attempt]. *)
Fixpoint caught_rounds (method path : string) (query payload : value)
    (n : nat) (attempt : Z) : list (@Event num) :=
  match n with
  | O => []
  | S n' =>
      EvFetch method path query payload
        :: EvSleep (RateLimiter.Finite (700 * (attempt + 1)))
        :: caught_rounds method path query payload n' (attempt + 1)
  end.

End WithRuntime.

End Ops.


(** ** Worlds for the examples of the executor *)

Module Scenario.

(** [JSON.parse] that knows the bodies of the examples. *)
Definition parser : JsBuiltins Z :=
  Sample.builtins
    [("[1,2]", JArr [JNum 1; JNum 2]);
     ("{}", JObj [])].

(** A server with a credential, caching on, and [answers] waiting on the
    network. *)
Definition keyed_world (answers : list Exec.Outcome) : @Exec.World Z :=
  Exec.mkWorld 0 answers (Some "secret") None 3 (Some Cache.new_default)
    RateLimiter.new_default [].

Definition answer (status : Z) (statusText text : string) : Exec.Outcome :=
  Exec.Responds 5 (Exec.mkResponse status statusText text).

End Scenario.

(** ** The shape of the steps of a plan *)

Module PlanShape.

Import Planner.

Section WithNumbers.

Context {num : Type} `{JsNumber num}.

Local Abbreviation json := (Json.t num) (only parsing).

(** The requests the rule-based plans are made of. *)
Definition endpoints : list (string * string) :=
  [ ("GET", "/v2/workspaces");
    ("GET", "/v2/domains");
    ("POST", "/v2/domains/available");
    ("GET", "/v2/wallet/balance");
    ("POST", "/v2/domains/buy");
    ("POST", "/v2/mailboxes");
    ("POST", "/v2/exports/accounts/third-party");
    ("POST", "/v2/exports/mailboxes") ].

Definition is_endpoint (method path : string) : bool :=
  existsb (fun e => String.eqb (fst e) method && String.eqb (snd e) path)
    endpoints.

Definition has_string (field : string) (step : json) : bool :=
  match Json.prop field (Some step) with
  | Some (JStr _) => true
  | _ => false
  end.

(** A step is a request to one of the [endpoints] with a description, or
    a note of one of the kinds [info], [compute] and [decision]. *)
Definition step_ok (step : json) : bool :=
  match action step with
  | Some (JStr a) =>
      if String.eqb a "api" then
        match Json.prop "method" (Some step), Json.prop "path" (Some step) with
        | Some (JStr method), Some (JStr path) =>
            is_endpoint method path && has_string "description" step
        | _, _ => false
        end
      else
        (String.eqb a "info" || String.eqb a "compute" || String.eqb a "decision")
        && has_string "note" step
  | _ => false
  end.

End WithNumbers.

End PlanShape.

(** ** The dynamic tools (index.js, lines 2499-2530) *)

Module Tools.

(** An entry of [ENDPOINTS]. *)
Record Endpoint : Type := mkEndpoint {
  slug : string;
  title : string;
  description : string
}.

Definition RESERVED_NAMES : list string :=
  [ "set_context"; "wallet_balance"; "list_workspaces"; "list_domains";
    "check_domain_availability"; "purchase_domains";
    "create_mailboxes_for_zero_domains"; "add_third_party_account";
    "call_endpoint"; "generate_usernames"; "generate_name_pairs";
    "generate_domains"; "check_domain_availability_batch";
    "plan_and_execute" ].

(** [RESERVED_NAMES.has(name)]. *)
Definition reserved (name : string) : bool :=
  existsb (String.eqb name) RESERVED_NAMES.

(** [slug.replace(/-/g, "_")]. *)
Fixpoint toolName (slug : string) : string :=
  match slug with
  | EmptyString => EmptyString
  | String c s => String (if Ascii.eqb c "-" then "_"%char else c) (toolName s)
  end.

(** The own properties of an object that starts as [{}] and holds
    strings. The order of the list is the order of creation; the program
    never enumerates the properties in order. *)
Definition Obj : Type := JsMap.t string.

(** [Object.prototype.hasOwnProperty.call(o, name)]. *)
Definition hasOwnProperty (o : Obj) (name : string) : bool := JsMap.has name o.

(** [o[name] = v] for a string [v]: the name [__proto__] is the accessor
    of [Object.prototype], whose setter ignores a string. *)
Definition assign (name v : string) (o : Obj) : Obj :=
  if String.eqb name "__proto__" then o else JsMap.set name v o.

Definition buildDynamicToolMap (ENDPOINTS : list Endpoint) : Obj :=
  fold_left
    (fun map e =>
       let name := toolName (slug e) in
       if negb (reserved name) && negb (hasOwnProperty map name)
       then assign name (slug e) map
       else map)
    ENDPOINTS JsMap.empty.

(** The test and the lookup of lines 5456-5457: the slug of the dynamic
    tool of that name, if any. *)
Definition dynamicSlug (DYNAMIC_TOOL_MAP : Obj) (name : string) : option string :=
  if hasOwnProperty DYNAMIC_TOOL_MAP name then JsMap.get name DYNAMIC_TOOL_MAP
  else None.

(** The names [handleToolsInvoke] compares the tool name with, in the
    order of its branches [if (name === "...")] (lines 4507-5454). Every
    branch ends with [return] and cannot be left otherwise than by
    returning or throwing. *)
Definition builtinNames : list string :=
  [ "set_context"; "wallet_balance"; "list_workspaces"; "list_domains";
    "check_domain_availability"; "purchase_domains";
    "create_mailboxes_for_zero_domains"; "add_third_party_account";
    "call_endpoint"; "generate_usernames"; "generate_name_pairs";
    "generate_domains"; "check_domain_availability_batch";
    "plan_and_execute"; "get_metrics"; "clear_cache"; "health_check";
    "bulk_update_mailboxes"; "search_mailboxes"; "get_server_info";
    "get_export_info"; "get_export_scenario"; "validate_export_request";
    "export_guidance"; "get_api_info"; "search_api_endpoints";
    "get_api_scenarios"; "get_api_best_practices"; "generate_api_examples" ].

Definition builtin (name : string) : bool :=
  existsb (String.eqb name) builtinNames.

(** Where [handleToolsInvoke] takes a call. *)
Inductive Dispatch : Type :=
| Builtin (name : string)
| Dynamic (slug : string)
| UnknownTool.

(** The dispatch of [handleToolsInvoke] (lines 4502-5489) on a tool name
    that is a string: the branch of a built-in name, else the dynamic
    tool of that name, else the error -32601 "Unknown tool". *)
Definition dispatch (DYNAMIC_TOOL_MAP : Obj) (name : string) : Dispatch :=
  if builtin name then Builtin name
  else
    match dynamicSlug DYNAMIC_TOOL_MAP name with
    | Some slug => Dynamic slug
    | None => UnknownTool
    end.

(** The first endpoint of the manifest whose slug gives the name. *)
Definition firstNamed (name : string) (ENDPOINTS : list Endpoint)
    : option Endpoint :=
  find (fun e => String.eqb (toolName (slug e)) name) ENDPOINTS.

End Tools.

(** ** class Logger (index.js, lines 117-150) *)

Module Logger.

(** What [LOG_LEVELS[name]] evaluates to: one of the four numbers,
    [undefined], or a member of [Object.prototype] (a function, or the
    prototype itself for [__proto__]). *)
Inductive Slot : Type :=
| Level (n : Z)
| Missing
| Inherited.

Definition Object_prototype : list string :=
  [ "constructor"; "hasOwnProperty"; "isPrototypeOf"; "propertyIsEnumerable";
    "toLocaleString"; "toString"; "valueOf"; "__proto__";
    "__defineGetter__"; "__defineSetter__"; "__lookupGetter__";
    "__lookupSetter__" ].

Definition LOG_LEVELS (name : string) : Slot :=
  if String.eqb name "DEBUG" then Level 0
  else if String.eqb name "INFO" then Level 1
  else if String.eqb name "WARN" then Level 2
  else if String.eqb name "ERROR" then Level 3
  else if existsb (String.eqb name) Object_prototype then Inherited
  else Missing.

(** The field [this.level]: a number, or a value that compares as [NaN]. *)
Inductive t : Type :=
| Threshold (n : Z)
| NotANumber.

(** [new Logger(level)]: [LOG_LEVELS[level] || LOG_LEVELS.INFO]; [None]
    is the omitted argument, which stands for ["INFO"]. *)
Definition new (level : option string) : t :=
  match LOG_LEVELS (match level with Some l => l | None => "INFO" end) with
  | Level n => if n =? 0 then Threshold 1 else Threshold n
  | Missing => Threshold 1
  | Inherited => NotANumber
  end.

(** [log(level, message, data)]: whether an entry is written, that is
    [LOG_LEVELS[level] >= this.level]. *)
Definition log (lg : t) (level : string) : bool :=
  match LOG_LEVELS level, lg with
  | Level n, Threshold l => n >=? l
  | _, _ => false
  end.

Definition debug (lg : t) : bool := log lg "DEBUG".
Definition info (lg : t) : bool := log lg "INFO".
Definition warn (lg : t) : bool := log lg "WARN".
Definition error (lg : t) : bool := log lg "ERROR".

(** A string as [toUpperCase] leaves it: no letter [a]-[z]. *)
Definition upper_case (s : string) : Prop :=
  forall c, In c (list_ascii_of_string s) -> Str.between 97 122 c = false.

End Logger.

(** ** The tool [generate_domains] (index.js, lines 4656-4708)

    The input is taken as its schema declares it: [keywords],
    [tlds] and [excludeDomains] are arrays of strings and [desiredCount]
    is an integer; the last three may be left out. *)

Module Generate.

Definition candidates : list string :=
  [ "pro"; "hub"; "tech"; "digital"; "connect"; "bridge"; "flow"; "sync";
    "link"; "net"; "web"; "app"; "io"; "ai" ].

(** [s.replace(/[^a-z]/g, "")]. *)
Fixpoint lettersOnly (s : string) : string :=
  match s with
  | EmptyString => EmptyString
  | String c s' =>
      if Str.between 97 122 c then String c (lettersOnly s') else lettersOnly s'
  end.

(** [keywords.map((k) => String(k).toLowerCase().replace(/[^a-z]/g, "")).filter(Boolean)]. *)
Definition base (keywords : list string) : list string :=
  filter (fun s => negb (Str.is_empty s))
    (map (fun k => lettersOnly (Str.toLowerCase k)) keywords).

(** [tlds && tlds.length ? tlds : [".com"]]; [None] is the omitted
    [tlds], which is [[".com"]]. *)
Definition suff (tlds : option (list string)) : list string :=
  match tlds with
  | Some (t :: l) => t :: l
  | _ => [".com"]
  end.

(** [uniq.has(dom)] and [excludeDomains.includes(dom)]. *)
Definition mem (x : string) (l : list string) : bool :=
  existsb (String.eqb x) l.

(** The variables [uniq] and [out]. *)
Record State : Type := mkState {
  uniq : list string;
  out : list string
}.

Definition len (st : State) : Z := Z.of_nat (List.length (out st)).

Section Loops.

Variables (excludeDomains : list string) (desiredCount : Z).

(** [for (const t of suff)] for one keyword and one suffix. *)
Fixpoint forTlds (kw sfx : string) (ts : list string) (st : State) : State :=
  match ts with
  | [] => st
  | t :: ts' =>
      let dom := (kw ++ sfx ++ t)%string in
      if negb (mem dom (uniq st)) && negb (mem dom excludeDomains) then
        let st' := mkState (uniq st ++ [dom]) (out st ++ [dom]) in
        if len st' >=? desiredCount then st' else forTlds kw sfx ts' st'
      else forTlds kw sfx ts' st
  end.

(** [for (const sfx of candidates)] for one keyword. *)
Fixpoint forSuffixes (ts : list string) (kw : string) (sfxs : list string)
    (st : State) : State :=
  match sfxs with
  | [] => st
  | sfx :: sfxs' =>
      let st' := forTlds kw sfx ts st in
      if len st' >=? desiredCount then st' else forSuffixes ts kw sfxs' st'
  end.

(** [for (const kw of base)]. *)
Fixpoint forKeywords (ts : list string) (kws : list string) (st : State)
    : State :=
  match kws with
  | [] => st
  | kw :: kws' =>
      let st' := forSuffixes ts kw candidates st in
      if len st' >=? desiredCount then st' else forKeywords ts kws' st'
  end.

(** The [while] loop; [None] when it has not ended after [fuel] passes. *)
Fixpoint while (ts kws : list string) (fuel : nat) (st : State)
    : option State :=
  if (len st <? desiredCount) && (len st <? 200) then
    match fuel with
    | O => None
    | S fuel' => while ts kws fuel' (forKeywords ts kws st)
    end
  else Some st.

(** The three loops as one loop over the names in their order. *)
Fixpoint scan (doms : list string) (st : State) : State :=
  match doms with
  | [] => st
  | dom :: doms' =>
      if negb (mem dom (uniq st)) && negb (mem dom excludeDomains) then
        let st' := mkState (uniq st ++ [dom]) (out st ++ [dom]) in
        if len st' >=? desiredCount then st' else scan doms' st'
      else scan doms' st
  end.

End Loops.

(** [l.slice(0, n)]. *)
Definition slice0 (n : Z) (l : list string) : list string :=
  if n <? 0 then firstn (List.length l - Z.to_nat (- n)) l
  else firstn (Z.to_nat n) l.

Inductive Outcome : Type :=
| Throws (message : string)
| Returns (domains : list string).

(** The defaults of [excludeDomains] and [desiredCount]; [None] is the
    omitted property. *)
Definition excluded (excludeDomains : option (list string)) : list string :=
  match excludeDomains with Some l => l | None => [] end.

Definition wanted (desiredCount : option Z) : Z :=
  match desiredCount with Some n => n | None => 10 end.

(** The branch [name === "generate_domains"] of [handleToolsInvoke];
    [None] when the loop is still running after [fuel] passes. *)
Definition generate_domains (fuel : nat) (keywords : list string)
    (tlds : option (list string)) (excludeDomains : option (list string))
    (desiredCount : option Z) : option Outcome :=
  match keywords with
  | [] => Some (Throws "'keywords' must be a non-empty array of strings")
  | _ :: _ =>
      match while (excluded excludeDomains) (wanted desiredCount) (suff tlds)
              (base keywords) fuel (mkState [] []) with
      | Some st => Some (Returns (slice0 (wanted desiredCount) (out st)))
      | None => None
      end
  end.

(** The names the loops go through, in their order. *)
Definition enumeration (keywords : list string) (tlds : option (list string))
    : list string :=
  flat_map (fun kw =>
              flat_map (fun sfx => map (fun t => (kw ++ sfx ++ t)%string) (suff tlds))
                candidates)
    (base keywords).

(** The members of [l] that are neither in [seen] nor excluded, each
    once, in the order of [l]. *)
Fixpoint fresh (excludeDomains seen l : list string) : list string :=
  match l with
  | [] => []
  | x :: l' =>
      if negb (mem x seen) && negb (mem x excludeDomains)
      then x :: fresh excludeDomains (seen ++ [x]) l'
      else fresh excludeDomains seen l'
  end.

(** The names the tool can offer. *)
Definition pool (keywords : list string) (tlds : option (list string))
    (excludeDomains : option (list string)) : list string :=
  fresh (excluded excludeDomains) [] (enumeration keywords tlds).

End Generate.

(** ** The tools [health_check] and [bulk_update_mailboxes]
    (index.js, lines 4853-5003) *)

Module Handlers.

Import Exec.

Section WithRuntime.

Context {num : Type} `{JsNumber num} `{JsBuiltins num}.

Local Abbreviation json := (Json.t num) (only parsing).
Local Abbreviation value := (@Json.value num) (only parsing).

Local Notation "x <- m ;; k" := (bind m (fun x => k))
  (at level 61, m at next level, right associativity).
Local Notation "m ;;; k" := (bind m (fun _ => k))
  (at level 61, right associativity).

(** [try { m } catch (error) { handler }]. *)
Definition try {A} (m : M A) (handler : @JsError num -> M A) : M A :=
  fun w =>
    match m w with
    | (Ok a, w') => (Ok a, w')
    | (Throw e, w') => handler e w'
    end.

(** *** [health_check]

    The report without its [timestamp] and without the sections
    [configuration], [cache] and [metrics], which are read off the
    configuration and the counters after the connectivity check.
    [apiResponse] and [apiError] are present in a detailed report only. *)
Record Health : Type := mkHealth {
  h_status : string;
  h_apiKey : string;
  h_apiConnectivity : string;
  h_apiResponse : option value;
  h_apiError : option string
}.

(** The [try] block of the source also encloses the reading of the key,
    which does not throw. *)
Definition health_check (detailed : bool) : M Health :=
  apiKey <- gets getApiKey ;;
  if nonempty apiKey then
    try
      (testResponse <- apiFetch (Some (JStr "/v2/user"))
                         (mkOptions None None None None) ;;
       ret (mkHealth "healthy" "configured" "connected"
              (if detailed then Some testResponse else None) None))
      (fun error =>
         ret (mkHealth "degraded" "configured" "failed" None
                (if detailed then Some (error_message error) else None)))
  else
    ret (mkHealth "healthy" "missing" "no_api_key" None None).

(** *** [bulk_update_mailboxes] *)

(** An entry of [results] and an entry of [errors]; the entry for an
    update without fields has no [mailboxId]. *)
Record Updated : Type := mkUpdated {
  u_index : Z;
  u_mailboxId : value;
  u_data : value
}.

Record Failed : Type := mkFailed {
  f_index : Z;
  f_mailboxId : option value;
  f_error : string
}.

Record Bulk : Type := mkBulk {
  total : Z;
  successful : Z;
  failed : Z;
  results : list Updated;
  errors : list Failed
}.

(** [if (update.f) updateData.f = validateString(update.f, "f")]: the
    properties added to [updateData]. *)
Definition field (update : json) (f : string) : M (list (string * json)) :=
  if Json.truthy (Json.prop f (Some update)) then
    s <- validateString (Json.prop f (Some update)) f ;;
    ret [(f, JStr s)]
  else ret [].

(** Reading a property of [null] throws a [TypeError]. *)
Definition propertyOfNull (f : string) : @JsError num :=
  OtherError ("Cannot read properties of null (reading '" ++ f ++ "')").

(** One turn of the loop, for an [update] that is not [null]: the entry
    it adds to [results] or to [errors]. [last] tells whether
    [i < updates.length - 1] fails. *)
Definition updateOne (rateLimitDelay : Z) (i : Z) (last : bool) (update : json)
    : M (Updated + Failed) :=
  let mailboxId := Json.prop "mailboxId" (Some update) in
  try
    (validateString mailboxId "mailboxId" ;;;
     firstName <- field update "firstName" ;;
     lastName <- field update "lastName" ;;
     username <- field update "username" ;;
     let updateData := firstName ++ lastName ++ username in
     match updateData with
     | [] => ret (inr (mkFailed i None "No valid update fields provided"))
     | _ :: _ =>
         data <- apiFetch (Some (JStr "/v2/mailboxes"))
                   (mkOptions (Some (JStr "PUT")) None
                      (Some (JObj [("mailboxData",
                                    JArr [JObj (match mailboxId with
                                                | Some j => ("mailboxId", j) :: updateData
                                                | None => updateData
                                                end)])]))
                      None) ;;
         (if last then ret tt else sleep (RateLimiter.Finite rateLimitDelay)) ;;;
         ret (inl (mkUpdated i mailboxId data))
     end)
    (fun error => ret (inr (mkFailed i (Some mailboxId) (error_message error)))).

(** The [for] loop from index [i] on, [n] being [updates.length]. *)
Fixpoint updateFrom (rateLimitDelay : Z) (n i : Z) (updates : list json)
    : M (list Updated * list Failed) :=
  match updates with
  | [] => ret ([], [])
  | update :: updates' =>
      entry <- match update with
               | JNull => throw (propertyOfNull "mailboxId")
               | _ => updateOne rateLimitDelay i (negb (i <? n - 1)) update
               end ;;
      rest <- updateFrom rateLimitDelay n (i + 1) updates' ;;
      ret (match entry with
           | inl r => (r :: fst rest, snd rest)
           | inr e => (fst rest, e :: snd rest)
           end)
  end.

(** The branch [name === "bulk_update_mailboxes"]; [rateLimitDelay] is
    [CONFIG.rateLimitDelay]. *)
Definition bulk_update_mailboxes (rateLimitDelay : Z) (updates : value)
    : M Bulk :=
  match updates with
  | Some (JArr (u :: us)) =>
      let n := Z.of_nat (List.length (u :: us)) in
      out <- updateFrom rateLimitDelay n 0 (u :: us) ;;
      ret (mkBulk n (Z.of_nat (List.length (fst out)))
             (Z.of_nat (List.length (snd out))) (fst out) (snd out))
  | _ => throw (ValidationError "'updates' must be a non-empty array" "updates"
                  updates)
  end.

(** The indices [i, i + 1, ..., i + n - 1]. *)
Fixpoint indices (i : Z) (n : nat) : list Z :=
  match n with
  | O => []
  | S n' => i :: indices (i + 1) n'
  end.

(** What one turn of the loop leaves: an entry of [results] or an entry
    of [errors]. *)
Definition indexOf (entry : Updated + Failed) : Z :=
  match entry with
  | inl r => u_index r
  | inr e => f_index e
  end.

Fixpoint lefts (entries : list (Updated + Failed)) : list Updated :=
  match entries with
  | [] => []
  | inl r :: l => r :: lefts l
  | inr _ :: l => lefts l
  end.

Fixpoint rights (entries : list (Updated + Failed)) : list Failed :=
  match entries with
  | [] => []
  | inl _ :: l => rights l
  | inr e :: l => e :: rights l
  end.

End WithRuntime.

End Handlers.

(** ** The purchase scheduler (scripts/schedule_purchases.js)

    The script runs the server once per command, as a child process. A
    child is taken to start and to close; what it prints on the console
    of the script is left out. *)

Module Scheduler.

Definition DOMAINS_TO_PURCHASE : list string :=
  [ "coldomni.com"; "gtzpro.com"; "saasoptima.com"; "coldoptima.com";
    "gtmproapp.com" ].

Definition INITIAL_DELAY : Z := 10000.
Definition MAX_RETRIES : Z := 5.
Definition BACKOFF_MULTIPLIER : Z := 2.
Definition BATCH_SIZE : nat := 1.

(** How a child process ends: with code 0 and what it wrote to its
    standard output, or with another code ([None]: killed by a signal)
    and what it wrote to its standard error. *)
Inductive Exit : Type :=
| Closes (output : string)
| Fails (code : option Z) (errorOutput : string).

(** [s.includes(needle)]. *)
Fixpoint includes (needle s : string) : bool :=
  if String.prefix needle s then true
  else match s with
       | EmptyString => false
       | String _ s' => includes needle s'
       end.

(** The fields of the scheduler, with the children to come (the [n]-th
    process spawned ends as [children n]), the number of processes
    spawned so far and the pauses made so far, oldest first. *)
Record T : Type := mk {
  currentIndex : nat;
  successfulPurchases : list string;
  failedPurchases : list string;
  currentDelay : Z;
  children : nat -> Exit;
  spawned : nat;
  slept : list Z
}.

(** [new PurchaseScheduler()]. *)
Definition new (children : nat -> Exit) : T :=
  mk 0 [] [] INITIAL_DELAY children 0 [].

Definition sleep (ms : Z) (s : T) : T :=
  mk (currentIndex s) (successfulPurchases s) (failedPurchases s)
    (currentDelay s) (children s) (spawned s) (slept s ++ [ms]).

(** The message of the error [executeCommand] rejects with. *)
Definition failureMessage (code : option Z) (errorOutput : string) : string :=
  "Command failed with code "
  ++ match code with Some c => Str.of_Z c | None => "null" end
  ++ ": " ++ errorOutput.

(** [executeCommand(command)]: the output, or the message of the
    rejection. *)
Definition executeCommand (s : T) : (string + string) * T :=
  let s' := mk (currentIndex s) (successfulPurchases s) (failedPurchases s)
              (currentDelay s) (children s) (S (spawned s)) (slept s) in
  match children s (spawned s) with
  | Closes output => (inl output, s')
  | Fails code errorOutput => (inr (failureMessage code errorOutput), s')
  end.

Definition pushSuccessful (domain : string) (s : T) : T :=
  mk (currentIndex s) (successfulPurchases s ++ [domain]) (failedPurchases s)
    (currentDelay s) (children s) (spawned s) (slept s).

Definition pushFailed (domain : string) (s : T) : T :=
  mk (currentIndex s) (successfulPurchases s) (failedPurchases s ++ [domain])
    (currentDelay s) (children s) (spawned s) (slept s).

(** The text ["error"] with its quotation marks. *)
Definition quotedError : string := Sample.quote ++ "error" ++ Sample.quote.

(** The test of the [catch] block: the message speaks of a rate limit. *)
Definition rateLimitMessage (message : string) : bool :=
  includes "429" message || includes "Too Many Requests" message.

(** [purchaseDomain(domain, retryCount)]; [None] when the recursion is
    deeper than [fuel]. *)
Fixpoint purchaseDomain (fuel : nat) (domain : string) (retryCount : Z) (s : T)
    : option (bool * T) :=
  match fuel with
  | O => None
  | S fuel' =>
      let (result, s1) := executeCommand s in
      let catch (message : string) : option (bool * T) :=
        if rateLimitMessage message then
          if retryCount <? MAX_RETRIES then
            let delay := currentDelay s1 * BACKOFF_MULTIPLIER ^ retryCount in
            purchaseDomain fuel' domain (retryCount + 1) (sleep delay s1)
          else Some (false, pushFailed domain s1)
        else Some (false, pushFailed domain s1) in
      match result with
      | inl output =>
          if includes quotedError output then catch "API returned an error"
          else Some (true, pushSuccessful domain s1)
      | inr message => catch message
      end
  end.

(** The [for] loop of [processBatch]. *)
Fixpoint purchaseEach (fuel : nat) (batch : list string) (s : T) : option T :=
  match batch with
  | [] => Some s
  | domain :: batch' =>
      match purchaseDomain fuel domain 0 s with
      | Some (success, s1) =>
          purchaseEach fuel batch'
            (if success then sleep 5000 s1 else sleep (currentDelay s1) s1)
      | None => None
      end
  end.

(** [l.slice(from, from + size)]. *)
Definition slice (from size : nat) (l : list string) : list string :=
  firstn size (skipn from l).

Definition processBatch (fuel : nat) (domains : list string) (s : T) : option T :=
  match purchaseEach fuel (slice (currentIndex s) BATCH_SIZE domains) s with
  | Some s1 =>
      Some (mk (currentIndex s1 + BATCH_SIZE) (successfulPurchases s1)
              (failedPurchases s1) (currentDelay s1) (children s1) (spawned s1)
              (slept s1))
  | None => None
  end.

(** The [while] loop of [run]; [fuel] bounds its turns and the depth of
    the retries. *)
Fixpoint processAll (fuel : nat) (domains : list string) (s : T) : option T :=
  if (currentIndex s <? List.length domains)%nat then
    match fuel with
    | O => None
    | S fuel' =>
        match processBatch (S (Z.to_nat MAX_RETRIES)) domains s with
        | Some s1 =>
            processAll fuel' domains
              (if (currentIndex s1 <? List.length domains)%nat
               then sleep (currentDelay s1) s1 else s1)
        | None => None
        end
    end
  else Some s.

(** How [run] ends: with the summary, or in [process.exit(1)] after a
    fatal error. *)
Inductive Ending : Type :=
| Summary (s : T)
| Fatal (message : string) (s : T).

(** [run()] for the list [domains]. *)
Definition runOn (fuel : nat) (domains : list string) (s : T) : option Ending :=
  match executeCommand s with
  | (inr message, s1) => Some (Fatal message s1)
  | (inl _, s1) =>
      match processAll fuel domains (sleep 2000 s1) with
      | Some s2 => Some (Summary s2)
      | None => None
      end
  end.

(** [scheduler.run()]. *)
Definition run (fuel : nat) (children : nat -> Exit) : option Ending :=
  runOn fuel DOMAINS_TO_PURCHASE (new children).

(** The child of a purchase ends in a rate-limit failure the script
    retries. *)
Definition rateLimited (e : Exit) : bool :=
  match e with
  | Closes _ => false
  | Fails code errorOutput => rateLimitMessage (failureMessage code errorOutput)
  end.

(** The child of a purchase reports no error. *)
Definition succeeded (e : Exit) : bool :=
  match e with
  | Closes output => negb (includes quotedError output)
  | Fails _ _ => false
  end.

(** The number of rate-limit failures in a row from the process numbered
    [from] on, counted up to [cap]. *)
Fixpoint failuresInARow (children : nat -> Exit) (from cap : nat) : nat :=
  match cap with
  | O => O
  | S cap' =>
      if rateLimited (children from)
      then S (failuresInARow children (S from) cap')
      else O
  end.

(** The pauses before the retries numbered [retryCount] to
    [retryCount + n - 1]. *)
Fixpoint backoffs (delay retryCount : Z) (n : nat) : list Z :=
  match n with
  | O => []
  | S n' => delay * 2 ^ retryCount :: backoffs delay (retryCount + 1) n'
  end.

End Scheduler.

(** ** The outcomes of a run of the scheduler *)

Module Outcomes.

(** The domains of a list of outcomes that were purchased ([true]) or
    not ([false]), in order. *)
Definition select (b : bool) (outcomes : list (string * bool)) : list string :=
  map fst (filter (fun p => Bool.eqb (snd p) b) outcomes).

End Outcomes.

(** ** The local generators of names (index.js, lines 3012-3211) *)

Module Names.

(** [l.slice(0, n)]. *)
Definition slice0 {A} (n : Z) (l : list A) : list A :=
  if n <? 0 then firstn (List.length l - Z.to_nat (- n)) l
  else firstn (Z.to_nat n) l.

(** *** [generateUsernamesLocal]

    [toUpperCase] and [toLowerCase] stand for the methods of
    [String.prototype]; nothing is assumed about them. *)

Section Usernames.

Variables toUpperCase toLowerCase : string -> string.

(** [str.charAt(0)] and [str.slice(1)]. *)
Definition charAt0 (s : string) : string :=
  match s with
  | EmptyString => ""
  | String c _ => String c EmptyString
  end.

Definition slice1 (s : string) : string :=
  match s with
  | EmptyString => ""
  | String _ s' => s'
  end.

Definition capitalize (str : string) : string :=
  if Str.is_empty str then ""
  else (toUpperCase (charAt0 str) ++ toLowerCase (slice1 str))%string.

(** [s.replace(/\s+/g, " ")]; [inRun] tells that the character before was
    white space. *)
Fixpoint collapseFrom (inRun : bool) (s : list ascii) : list ascii :=
  match s with
  | [] => []
  | c :: s' =>
      if Str.is_space c then
        if inRun then collapseFrom true s' else " "%char :: collapseFrom true s'
      else c :: collapseFrom false s'
  end.

Definition collapse (s : list ascii) : list ascii := collapseFrom false s.

(** [s.split(" ")], the characters of the current piece being [piece]
    in reverse. *)
Fixpoint splitFrom (piece : list ascii) (s : list ascii) : list string :=
  match s with
  | [] => [string_of_list_ascii (rev piece)]
  | c :: s' =>
      if Ascii.eqb c " " then string_of_list_ascii (rev piece) :: splitFrom [] s'
      else splitFrom (c :: piece) s'
  end.

Definition split (s : string) : list string :=
  splitFrom [] (list_ascii_of_string s).

(** [s.replace(/[^a-z0-9._]/g, "")]. *)
Definition allowed (c : ascii) : bool :=
  Str.between 97 122 c || Str.between 48 57 c
  || (Str.code c =? 46)%N || (Str.code c =? 95)%N.

Fixpoint sanitize (s : string) : string :=
  match s with
  | EmptyString => EmptyString
  | String c s' => if allowed c then String c (sanitize s') else sanitize s'
  end.

(** [s.split("").join(".")]. *)
Fixpoint dotted (s : string) : string :=
  match s with
  | EmptyString => ""
  | String c EmptyString => String c EmptyString
  | String c s' => String c (String "." (dotted s'))
  end.

Record Suggestion : Type := mkSuggestion {
  firstname : string;
  lastname : string;
  username : string
}.

(** The variables [suggestions] and [out]. *)
Record State : Type := mkState {
  suggestions : list string;
  out : list Suggestion
}.

(** The inner function [add]. *)
Definition add (first last username : string) (st : State) : State :=
  let uname := sanitize (toLowerCase username) in
  if negb (existsb (String.eqb uname) (suggestions st))
     && negb (Str.is_empty uname)
     && (Z.of_nat (String.length uname) <=? 30)
  then mkState (suggestions st ++ [uname])
         (out st ++ [mkSuggestion first last uname])
  else st.

(** The loop on [idx] of the one-word case; it ends when [fuel] turns
    are enough, and [numberOfNames + 6] turns always are. *)
Fixpoint numbered (fuel : nat) (single s : string) (numberOfNames idx : Z)
    (st : State) : State :=
  match fuel with
  | O => st
  | S fuel' =>
      if (Z.of_nat (List.length (out st)) <? numberOfNames)
         && (idx <? numberOfNames + 6)
      then numbered fuel' single s numberOfNames (idx + 1)
             (add single "" (s ++ Str.of_Z idx)%string st)
      else st
  end.

Record Usernames : Type := mkUsernames {
  names : list Suggestion;
  note : option string
}.

(** [parts[parts.length - 1]]. *)
Definition lastPart (parts : list string) : string := List.last parts "".

Definition generateUsernamesLocal (name : string) (numberOfNames : Z)
    : Usernames :=
  if Str.is_empty name then mkUsernames [] None
  else
    let trimmed :=
      string_of_list_ascii (collapse (list_ascii_of_string (Str.trim name))) in
    let parts := split trimmed in
    let st0 := mkState [] [] in
    let st :=
      match parts with
      | _ :: _ :: _ =>
          let first := capitalize (List.hd "" parts) in
          let last := capitalize (lastPart parts) in
          let f := toLowerCase first in
          let l := toLowerCase last in
          fold_left (fun st u => add first last u st)
            [ f; (f ++ l)%string; (f ++ "." ++ l)%string;
              (f ++ "_" ++ l)%string; (charAt0 f ++ "." ++ l)%string;
              (f ++ "." ++ charAt0 l)%string; (l ++ "." ++ f)%string;
              (f ++ "." ++ charAt0 l)%string; (f ++ "." ++ l)%string;
              (charAt0 f ++ "." ++ l)%string ]
            st0
      | _ =>
          let single := capitalize (List.hd "" parts) in
          let s := toLowerCase single in
          numbered (Z.to_nat (numberOfNames + 6)) single s numberOfNames 1
            (add single "" (dotted s) (add single "" s st0))
      end in
    mkUsernames (slice0 numberOfNames (out st))
      (if Z.of_nat (List.length (out st)) <? numberOfNames
       then Some ("Generated " ++ Str.of_Z (Z.of_nat (List.length (out st)))
                  ++ " suggestions (requested " ++ Str.of_Z numberOfNames ++ ")")%string
       else None).

(** A username as the tool promises it: not empty, at most 30
    characters, all of them among [a-z], [0-9], [.] and [_]. *)
Definition ok_name (u : string) : Prop :=
  u <> ""
  /\ (String.length u <= 30)%nat
  /\ forallb allowed (list_ascii_of_string u) = true.

(** What [add] keeps: [suggestions] holds the usernames of [out], each
    once, and all of them are as promised. *)
Definition inv (st : State) : Prop :=
  suggestions st = map username (out st)
  /\ NoDup (suggestions st)
  /\ Forall ok_name (suggestions st).

End Usernames.

(** *** [generateNamePairsLocal] and [mailboxGeneratorForDomain] *)

(** The table [db]: for each ethnicity the male and the female names. *)
Definition db : list (string * (list (string * string) * list (string * string))) :=
  [ ("european",
      ([ ("John", "Smith"); ("Michael", "Johnson"); ("David", "Brown");
         ("Robert", "Davis"); ("James", "Taylor") ],
       [ ("Emma", "Smith"); ("Sophia", "Johnson"); ("Olivia", "Brown");
         ("Ava", "Davis"); ("Isabella", "Taylor") ]));
    ("south asian",
      ([ ("Arjun", "Patel"); ("Rahul", "Sharma"); ("Aman", "Kumar");
         ("Vikram", "Singh"); ("Karan", "Gupta") ],
       [ ("Priya", "Sharma"); ("Ananya", "Patel"); ("Riya", "Khan");
         ("Sneha", "Gupta"); ("Aisha", "Kumar") ]));
    ("east asian",
      ([ ("Wei", "Li"); ("Jun", "Wang"); ("Hao", "Zhang"); ("Bo", "Chen");
         ("Jiang", "Liu") ],
       [ ("Mei", "Li"); ("Xiao", "Wang"); ("Ling", "Zhang"); ("Yue", "Chen");
         ("Jia", "Liu") ]));
    ("middle eastern",
      ([ ("Ahmed", "Hassan"); ("Omar", "Ali"); ("Hassan", "Khan");
         ("Mustafa", "Yousef"); ("Yusuf", "Abdullah") ],
       [ ("Sara", "Ahmed"); ("Layla", "Hassan"); ("Fatima", "Ali");
         ("Aisha", "Khan"); ("Noor", "Yousef") ]));
    ("african",
      ([ ("Kwame", "Mensah"); ("Abebe", "Bekele"); ("Tunde", "Okoye");
         ("Chidi", "Nwosu"); ("Juma", "Ochieng") ],
       [ ("Ama", "Mensah"); ("Amina", "Bekele"); ("Chinwe", "Okoye");
         ("Zuri", "Nwosu"); ("Halima", "Ochieng") ]));
    ("hispanic/latino",
      ([ ("Juan", "Martinez"); ("Carlos", "Garcia"); ("Luis", "Rodriguez");
         ("Pedro", "Lopez"); ("Jorge", "Gonzalez") ],
       [ ("Maria", "Martinez"); ("Ana", "Garcia"); ("Lucia", "Rodriguez");
         ("Carmen", "Lopez"); ("Isabel", "Gonzalez") ])) ].

(** The keys that an object literal inherits from [Object.prototype]
    and that are in lower case: looked up in [db] or in a group they give
    a function or an object, not a list of names. *)
Definition inherited (key : string) : bool :=
  String.eqb key "constructor" || String.eqb key "__proto__".

(** [db[eKey] || db["european"]]. *)
Definition groupOf (eKey : string)
    : list (string * string) * list (string * string) :=
  match find (fun entry => String.eqb (fst entry) eKey) db with
  | Some entry => snd entry
  | None =>
      match find (fun entry => String.eqb (fst entry) "european") db with
      | Some entry => snd entry
      | None => ([], [])
      end
  end.

(** The value of [list] when the loop starts. *)
Definition listOf (group : list (string * string) * list (string * string))
    (gKey : string) : list (string * string) :=
  if String.eqb gKey "male" then fst group
  else if String.eqb gKey "female" then snd group
  else fst group ++ snd group.

(** [generateNamePairsLocal({numberOfNames, ethnicity, gender})] for
    strings [ethnicity] and [gender]; [None] when one of them, in lower
    case, is an [inherited] key, which is outside this embedding. *)
Definition generateNamePairsLocal (numberOfNames : Z) (ethnicity gender : string)
    : option (list (string * string)) :=
  let eKey := Str.toLowerCase ethnicity in
  let gKey := Str.toLowerCase gender in
  if inherited eKey || inherited gKey then None
  else
    let list := listOf (groupOf eKey) gKey in
    Some (map (fun i => nth (i mod List.length list) list ("", ""))
              (seq 0 (Z.to_nat numberOfNames))).

(** A group of the table: five male and five female names, all ten
    distinct. *)
Definition sound (group : list (string * string) * list (string * string)) : Prop :=
  NoDup (fst group ++ snd group)
  /\ List.length (fst group) = 5%nat /\ List.length (snd group) = 5%nat.

(** The number of names that the loop chooses from, for a gender. *)
Definition choices (gender : string) : nat :=
  let gKey := Str.toLowerCase gender in
  if String.eqb gKey "male" || String.eqb gKey "female" then 5%nat else 10%nat.

(** [generateNamePairsLocal({numberOfNames: 1, ethnicity: "european", gender: "neutral"}).names[0]]. *)
Definition neutralEuropeanPair : string * string :=
  match generateNamePairsLocal 1 "european" "neutral" with
  | Some (name :: _) => name
  | _ => ("", "")
  end.

(** [Math.floor(Math.random() * patterns.length)] for the four
    patterns. *)
Inductive Choice : Type := First | Second | Third | Fourth.

Record Mailbox : Type := mkMailbox {
  firstName : string;
  lastName : string;
  mailboxUsername : string;
  domainName : string
}.

Definition patterns (pair : string * string) : list string :=
  [ (Str.toLowerCase (fst pair) ++ "." ++ Str.toLowerCase (snd pair))%string;
    (Str.toLowerCase (fst pair) ++ Str.toLowerCase (snd pair))%string;
    (Str.toLowerCase (charAt0 (fst pair)) ++ "." ++ Str.toLowerCase (snd pair))%string;
    (Str.toLowerCase (snd pair) ++ "." ++ Str.toLowerCase (fst pair))%string ].

Definition pick (c : Choice) (l : list string) : string :=
  nth (match c with First => 0 | Second => 1 | Third => 2 | Fourth => 3 end)%nat
    l "".

(** The [while] loop of the generator: [random n] is the choice made in
    the turn numbered [n]; [fuel] bounds the turns, and [count * 10]
    turns are always enough. *)
Fixpoint mailboxLoop (fuel : nat) (random : nat -> Choice) (domain : string)
    (count : Z) (i : Z) (turn : nat) (used : list string)
    (result : list Mailbox) : list Mailbox :=
  match fuel with
  | O => result
  | S fuel' =>
      if (Z.of_nat (List.length result) <? count) && (i <? count * 10) then
        let pair := neutralEuropeanPair in
        let username := pick (random turn) (patterns pair) in
        if existsb (String.eqb username) used
        then mailboxLoop fuel' random domain count (i + 1) (S turn) used result
        else mailboxLoop fuel' random domain count (i + 1) (S turn)
               (used ++ [username])
               (result ++ [mkMailbox (fst pair) (snd pair) username domain])
      else result
  end.

(** [mailboxGeneratorForDomain()(domainName, count)]; [None] is the
    omitted [count], which is 3. *)
Definition mailboxGenerator (random : nat -> Choice) (domainName : string)
    (count : option Z) : list Mailbox :=
  let count := match count with Some c => c | None => 3 end in
  mailboxLoop (Z.to_nat (count * 10)) random domainName count 0 0 [] [].

(** A mailbox the generator can return for [domain]. *)
Definition good (domain : string) (m : Mailbox) : Prop :=
  firstName m = "John" /\ lastName m = "Smith" /\ domainName m = domain
  /\ In (mailboxUsername m) ["john.smith"; "johnsmith"; "j.smith"; "smith.john"].

End Names.

(** ** The framing of requests (index.js, lines 5723-5745)

    The handler of the [data] event of the standard input appends each
    chunk to a buffer and hands on the complete lines. *)

Module Rpc.

Definition newline : ascii := ascii_of_N 10.

(** [s.indexOf("\n")]; [None] is -1. *)
Fixpoint indexOfNewline (s : string) : option nat :=
  match s with
  | EmptyString => None
  | String c s' =>
      if Ascii.eqb c newline then Some 0%nat
      else option_map S (indexOfNewline s')
  end.

(** The [while] loop of the handler: the lines handed on to
    [JSON.parse], trimmed and not empty, and the buffer that is left.
    Each turn shortens the buffer, so that [fuel] turns are enough when
    [fuel] is the length of the buffer. *)
Fixpoint lines (fuel : nat) (buffer : string) : list string * string :=
  match fuel with
  | O => ([], buffer)
  | S fuel' =>
      match indexOfNewline buffer with
      | Some idx =>
          let line := Str.trim (String.substring 0 idx buffer) in
          let buffer' :=
            String.substring (S idx) (String.length buffer - S idx) buffer in
          let (rest, left) := lines fuel' buffer' in
          (if Str.is_empty line then rest else line :: rest, left)
      | None => ([], buffer)
      end
  end.

(** One [data] event. *)
Definition onData (buffer chunk : string) : list string * string :=
  lines (String.length (buffer ++ chunk)) (buffer ++ chunk).

(** The [data] events of a sequence of chunks. *)
Fixpoint feed (chunks : list string) (buffer : string) : list string * string :=
  match chunks with
  | [] => ([], buffer)
  | chunk :: chunks' =>
      let (first, buffer1) := onData buffer chunk in
      let (rest, left) := feed chunks' buffer1 in
      (first ++ rest, left)
  end.

End Rpc.

(** ** What a regular expression consumes *)

Module RegexSem.

Import Regex.

(** [matches r x]: the expression [r] can consume the characters [x],
    the conditions on the context (word boundaries) being left aside. *)
Inductive matches : re -> list ascii -> Prop :=
| M_Eps : matches Eps []
| M_Chr (f : ascii -> bool) (c : ascii) : f c = true -> matches (Chr f) [c]
| M_Seq (a b : re) (x y : list ascii) :
    matches a x -> matches b y -> matches (Seq a b) (x ++ y)
| M_AltL (a b : re) (x : list ascii) : matches a x -> matches (Alt a b) x
| M_AltR (a b : re) (x : list ascii) : matches b x -> matches (Alt a b) x
| M_StarNil (a : re) : matches (Star a) []
| M_StarCons (a : re) (x y : list ascii) :
    matches a x -> matches (Star a) y -> matches (Star a) (x ++ y)
| M_Boundary : matches WordBoundary []
| M_Group (i : nat) (a : re) (x : list ascii) : matches a x -> matches (Group i a) x.

(** The top-level domains [simpleParseDomains] knows. *)
Definition TLDS : list string :=
  ["com"; "net"; "org"; "io"; "ai"; "app"; "co"; "in"].

(** A lower-case letter, a digit or a hyphen. *)
Definition label_char (c : ascii) : bool :=
  Str.between 97 122 c || Str.between 48 57 c || (Str.code c =? 45)%N.

(** A name of one label under one of the [TLDS]. *)
Definition domain_shape (d : string) : Prop :=
  exists label tld,
    d = (string_of_list_ascii label ++ "." ++ tld)%string
    /\ label <> []
    /\ forallb label_char label = true
    /\ In tld TLDS.

End RegexSem.

(** ** The tool [clear_cache] (index.js, lines 4831-4851) *)

Module CacheTool.

Import Exec.

Section WithRuntime.

Context {num : Type} `{JsNumber num} `{JsBuiltins num}.

Local Abbreviation value := (@Json.value num) (only parsing).

(** What the tool answers: [sendResult] with a message and the size of
    the cache, or [sendError]. *)
Inductive Reply : Type :=
| Result (message : string) (cacheSize : Z)
| Error (code : Z) (message : string).

Definition clear_cache (confirm : value) : @M num Reply :=
  if negb (Json.truthy confirm) then
    ret (Error (-32000)
           "Cache clear requires confirmation. Set confirm: true to proceed.")
  else
    bind (gets cache)
      (fun c =>
         match c with
         | Some c0 =>
             bind (modify (set_cache (Some (Cache.clear c0))))
               (fun _ => ret (Result "Cache cleared successfully" 0))
         | None => ret (Result "Cache is not enabled" 0)
         end).

End WithRuntime.

End CacheTool.

(* ===================================================================== *)
(** * Properties *)

(** ** Facts about [JsMap] *)

Module JsMapFacts.

Lemma get_set_same {V} (k : string) (v : V) (m : JsMap.t V) :
  JsMap.get k (JsMap.set k v m) = Some v.
Proof.
  induction m as [|[k' v'] m IH]; simpl.
  - now rewrite String.eqb_refl.
  - destruct (String.eqb k k') eqn:E; simpl; rewrite E; auto.
Qed.

Lemma get_set_other {V} (k k' : string) (v : V) (m : JsMap.t V) :
  k <> k' -> JsMap.get k' (JsMap.set k v m) = JsMap.get k' m.
Proof.
  intros Hne. induction m as [|[k0 v0] m IH]; simpl.
  - destruct (String.eqb k' k) eqn:E; auto.
    apply String.eqb_eq in E. congruence.
  - destruct (String.eqb k k0) eqn:E; simpl.
    + apply String.eqb_eq in E. subst k0.
      destruct (String.eqb k' k) eqn:E'; auto.
      apply String.eqb_eq in E'. congruence.
    + now rewrite IH.
Qed.

Lemma get_delete_same {V} (k : string) (m : JsMap.t V) :
  JsMap.get k (JsMap.delete k m) = None.
Proof.
  induction m as [|[k0 v0] m IH]; simpl; auto.
  destruct (String.eqb k k0) eqn:E; simpl; auto.
  now rewrite E.
Qed.

Lemma get_delete_other {V} (k k' : string) (m : JsMap.t V) :
  k <> k' -> JsMap.get k' (JsMap.delete k m) = JsMap.get k' m.
Proof.
  intros Hne. induction m as [|[k0 v0] m IH]; simpl; auto.
  destruct (String.eqb k k0) eqn:E; simpl.
  - apply String.eqb_eq in E. subst k0.
    destruct (String.eqb k' k) eqn:E'; auto.
    apply String.eqb_eq in E'. congruence.
  - now rewrite IH.
Qed.

Lemma get_none_not_in {V} (k : string) (m : JsMap.t V) :
  JsMap.get k m = None <-> ~ In k (JsMap.keys m).
Proof.
  induction m as [|[k0 v0] m IH]; simpl.
  - tauto.
  - destruct (String.eqb k k0) eqn:E.
    + apply String.eqb_eq in E. subst. split; [discriminate | tauto].
    + apply String.eqb_neq in E. rewrite IH. split.
      * intros Hn [Heq | Hin]; [congruence | tauto].
      * tauto.
Qed.

Lemma delete_absent {V} (k : string) (m : JsMap.t V) :
  ~ In k (JsMap.keys m) -> JsMap.delete k m = m.
Proof.
  induction m as [|[k0 v0] m IH]; simpl; auto.
  intros Hn. destruct (String.eqb k k0) eqn:E; simpl.
  - apply String.eqb_eq in E. subst. tauto.
  - f_equal. apply IH. tauto.
Qed.

Lemma delete_head {V} (k : string) (v : V) (m : JsMap.t V) :
  ~ In k (JsMap.keys m) -> JsMap.delete k ((k, v) :: m) = m.
Proof.
  intros Hn. unfold JsMap.delete. simpl. rewrite String.eqb_refl. simpl.
  now apply delete_absent.
Qed.

Lemma length_delete_le {V} (k : string) (m : JsMap.t V) :
  (List.length (JsMap.delete k m) <= List.length m)%nat.
Proof. apply filter_length_le. Qed.

Lemma length_set_le {V} (k : string) (v : V) (m : JsMap.t V) :
  (List.length (JsMap.set k v m) <= S (List.length m))%nat.
Proof.
  induction m as [|[k0 v0] m IH]; simpl; auto.
  destruct (String.eqb k k0); simpl; lia.
Qed.

Lemma length_set_present {V} (k : string) (v : V) (m : JsMap.t V) :
  JsMap.has k m = true -> List.length (JsMap.set k v m) = List.length m.
Proof.
  unfold JsMap.has. induction m as [|[k0 v0] m IH]; simpl.
  - discriminate.
  - destruct (String.eqb k k0); simpl; auto.
Qed.

Lemma keys_set {V} (k : string) (v : V) (m : JsMap.t V) :
  JsMap.keys (JsMap.set k v m) =
  if JsMap.has k m then JsMap.keys m else JsMap.keys m ++ [k].
Proof.
  unfold JsMap.has. induction m as [|[k0 v0] m IH]; simpl; auto.
  destruct (String.eqb k k0) eqn:E; simpl; auto.
  rewrite IH. now destruct (JsMap.get k m).
Qed.

Lemma wf_set {V} (k : string) (v : V) (m : JsMap.t V) :
  JsMap.wf m -> JsMap.wf (JsMap.set k v m).
Proof.
  unfold JsMap.wf. intros Hwf. rewrite keys_set.
  destruct (JsMap.has k m) eqn:E; auto.
  assert (Hn : ~ In k (JsMap.keys m)).
  { apply get_none_not_in. unfold JsMap.has in E.
    now destruct (JsMap.get k m). }
  apply NoDup_app; [exact Hwf | constructor; [simpl; tauto | constructor] |].
  intros x Hx [<- | []]. tauto.
Qed.

Lemma wf_delete {V} (k : string) (m : JsMap.t V) :
  JsMap.wf m -> JsMap.wf (JsMap.delete k m).
Proof.
  unfold JsMap.wf, JsMap.keys, JsMap.delete.
  induction m as [|[k0 v0] m IH]; simpl; auto.
  intros Hwf. inversion Hwf as [|? ? Hn Hwf']; subst.
  destruct (String.eqb k k0); simpl; auto.
  constructor; auto.
  intros Hin. apply Hn. apply in_map_iff in Hin.
  destruct Hin as [p [Hp Hin]]. apply filter_In in Hin.
  apply in_map_iff. exists p. tauto.
Qed.

End JsMapFacts.

(** ** The cache *)

Module CacheFacts.

Import JsMapFacts.

Section Facts.

Context {V : Type}.
Implicit Types (c : Cache.t V) (key k : string) (v : V).

Lemma get_after_set c key v ttl_arg now now' :
  now' <= now + Cache.effective_ttl c ttl_arg ->
  Cache.get key now' (Cache.set key v ttl_arg now c)
  = (Some v, Cache.set key v ttl_arg now c).
Proof.
  intros Hle. unfold Cache.get, Cache.set, Cache.effective_ttl in *. simpl.
  rewrite get_set_same. simpl.
  destruct (Z.gtb_spec now' (now + match ttl_arg with Some x => x | None => Cache.ttl c end));
    [lia | reflexivity].
Qed.

Lemma get_expired c k item now :
  JsMap.get k (Cache.cache c) = Some item ->
  now > Cache.expires item ->
  Cache.get k now c
  = (None, Cache.with_cache c (JsMap.delete k (Cache.cache c))).
Proof.
  intros Hget Hgt. unfold Cache.get. rewrite Hget.
  destruct (Z.gtb_spec now (Cache.expires item)); [reflexivity | lia].
Qed.

Lemma get_fresh c k item now :
  JsMap.get k (Cache.cache c) = Some item ->
  now <= Cache.expires item ->
  Cache.get k now c = (Some (Cache.value item), c).
Proof.
  intros Hget Hle. unfold Cache.get. rewrite Hget.
  destruct (Z.gtb_spec now (Cache.expires item)); [lia | reflexivity].
Qed.

Lemma evict_full c k0 e0 rest :
  Cache.size c >= Cache.maxSize c ->
  Cache.cache c = (k0, e0) :: rest ->
  ~ In k0 (JsMap.keys rest) ->
  Cache.evict c = rest.
Proof.
  intros Hfull Hc Hn. unfold Cache.evict.
  destruct (Z.geb_spec (Cache.size c) (Cache.maxSize c)); [| lia].
  rewrite Hc. simpl. now apply delete_head.
Qed.

Lemma length_evict c :
  Cache.size c <= Cache.maxSize c -> 1 <= Cache.maxSize c ->
  Z.of_nat (List.length (Cache.evict c)) < Cache.maxSize c.
Proof.
  intros Hle Hpos. unfold Cache.evict, Cache.size, JsMap.size in *.
  destruct (Z.geb_spec (Z.of_nat (List.length (Cache.cache c))) (Cache.maxSize c)).
  - destruct (Cache.cache c) as [|[k0 e0] rest] eqn:E.
    + simpl in *. lia.
    + cbn [JsMap.first_key]. unfold JsMap.delete. cbn [filter fst].
      rewrite String.eqb_refl. cbn [negb].
      pose proof (length_delete_le k0 rest) as Hd. unfold JsMap.delete in Hd.
      cbn [List.length] in *. lia.
  - lia.
Qed.

Lemma size_set_le c key v ttl_arg now :
  Cache.size c <= Cache.maxSize c -> 1 <= Cache.maxSize c ->
  Cache.size (Cache.set key v ttl_arg now c) <= Cache.maxSize c.
Proof.
  intros Hle Hpos. pose proof (length_evict c Hle Hpos) as He.
  unfold Cache.set, Cache.size, JsMap.size. simpl.
  match goal with |- context [JsMap.set ?k ?e ?m] =>
    pose proof (length_set_le k e m) end.
  lia.
Qed.

Lemma size_get_le c key now :
  Cache.size (snd (Cache.get key now c)) <= Cache.size c.
Proof.
  unfold Cache.get. destruct (JsMap.get key (Cache.cache c)); simpl; [| lia].
  destruct (now >? Cache.expires e); simpl; [| lia].
  unfold Cache.size, JsMap.size. simpl.
  pose proof (length_delete_le key (Cache.cache c)). lia.
Qed.

Lemma maxSize_step c (o : Cache.op V) :
  Cache.maxSize (Cache.step c o) = Cache.maxSize c.
Proof.
  destruct o; simpl; auto.
  unfold Cache.get. destruct (JsMap.get key (Cache.cache c)); simpl; auto.
  now destruct (now >? Cache.expires e).
Qed.

Lemma size_step_le c (o : Cache.op V) :
  Cache.size c <= Cache.maxSize c -> 1 <= Cache.maxSize c ->
  Cache.size (Cache.step c o) <= Cache.maxSize c.
Proof.
  intros Hle Hpos. destruct o; simpl.
  - now apply size_set_le.
  - pose proof (size_get_le c key now). lia.
  - unfold Cache.clear, Cache.size, JsMap.size. simpl. lia.
Qed.

Lemma size_run_le (ops : list (Cache.op V)) c :
  Cache.size c <= Cache.maxSize c -> 1 <= Cache.maxSize c ->
  Cache.size (Cache.run ops c) <= Cache.maxSize c
  /\ Cache.maxSize (Cache.run ops c) = Cache.maxSize c.
Proof.
  revert c. induction ops as [|o ops IH]; intros c Hle Hpos; simpl.
  - split; [assumption | reflexivity].
  - assert (Hm := maxSize_step c o).
    destruct (IH (Cache.step c o)) as [H1 H2].
    + rewrite Hm. now apply size_step_le.
    + now rewrite Hm.
    + unfold Cache.run in *. rewrite Hm in *. split; assumption.
Qed.

Lemma wf_step c (o : Cache.op V) :
  JsMap.wf (Cache.cache c) -> JsMap.wf (Cache.cache (Cache.step c o)).
Proof.
  intros Hwf. destruct o; simpl.
  - apply wf_set. unfold Cache.evict.
    destruct (Cache.size c >=? Cache.maxSize c); auto.
    destruct (JsMap.first_key (Cache.cache c)); auto. now apply wf_delete.
  - unfold Cache.get. destruct (JsMap.get key (Cache.cache c)); simpl; auto.
    destruct (now >? Cache.expires e); simpl; auto. now apply wf_delete.
  - constructor.
Qed.

Lemma wf_run (ops : list (Cache.op V)) c :
  JsMap.wf (Cache.cache c) -> JsMap.wf (Cache.cache (Cache.run ops c)).
Proof.
  revert c. induction ops as [|o ops IH]; intros c Hwf; simpl; auto.
  apply IH. now apply wf_step.
Qed.

End Facts.

End CacheFacts.

(** C2. For a cache [c] and a call [set(key, v, ttl)] made at time [now]
    (the entry lives [ttl0] milliseconds, [ttl0] being the argument or the
    cache's default):
    - a [get(key)] made at once, or at any time up to [now + ttl0],
      returns the stored value and leaves the cache as it is;
    - a [get(k)] made strictly after the expiry time of the entry of [k]
      returns [null] and deletes that entry and no other;
    - a [get(k)] made no later than the expiry time returns the value and
      changes nothing, so the expiry time is not refreshed;
    - when [c] holds exactly [maxSize] entries, the [set] first removes
      the entry at the head of the insertion order (the oldest inserted)
      and keeps every other entry, in order. *)
Theorem cache_set_get_expire_evict {V : Type} (c : Cache.t V) (key : string)
    (v : V) (ttl_arg : option Z) (now : Z) :
  let ttl0 := Cache.effective_ttl c ttl_arg in
  let c' := Cache.set key v ttl_arg now c in
  (0 <= ttl0 -> Cache.get key now c' = (Some v, c'))
  /\ (forall later, later <= now + ttl0 ->
        Cache.get key later c' = (Some v, c'))
  /\ (forall k item later,
        JsMap.get k (Cache.cache c) = Some item ->
        later > Cache.expires item ->
        fst (Cache.get k later c) = None
        /\ JsMap.get k (Cache.cache (snd (Cache.get k later c))) = None
        /\ forall k', k' <> k ->
             JsMap.get k' (Cache.cache (snd (Cache.get k later c)))
             = JsMap.get k' (Cache.cache c))
  /\ (forall k item t,
        JsMap.get k (Cache.cache c) = Some item ->
        t <= Cache.expires item ->
        Cache.get k t c = (Some (Cache.value item), c))
  /\ (forall k0 e0 rest,
        Cache.size c = Cache.maxSize c ->
        Cache.cache c = (k0, e0) :: rest ->
        ~ In k0 (JsMap.keys rest) ->
        Cache.cache c' = JsMap.set key (Cache.mkEntry v (now + ttl0)) rest
        /\ (key <> k0 -> JsMap.get k0 (Cache.cache c') = None)
        /\ (forall k, k <> k0 -> k <> key ->
              JsMap.get k (Cache.cache c') = JsMap.get k (Cache.cache c))).
Proof.
  intros ttl0 c'. repeat split.
  - intros Hpos. apply CacheFacts.get_after_set. fold ttl0. lia.
  - intros later Hle. now apply CacheFacts.get_after_set.
  - rewrite (CacheFacts.get_expired c k item later); auto.
  - rewrite (CacheFacts.get_expired c k item later); auto. simpl.
    apply JsMapFacts.get_delete_same.
  - intros k' Hne. rewrite (CacheFacts.get_expired c k item later); auto. simpl.
    apply JsMapFacts.get_delete_other. congruence.
  - intros k item t Hget Hle. now apply CacheFacts.get_fresh.
  - subst c'. unfold Cache.set. simpl.
    rewrite (CacheFacts.evict_full c k0 e0 rest); auto. lia.
  - intros Hne. subst c'. unfold Cache.set. simpl.
    rewrite (CacheFacts.evict_full c k0 e0 rest); auto; [| lia].
    rewrite JsMapFacts.get_set_other; auto.
    now apply JsMapFacts.get_none_not_in.
  - intros k Hk0 Hkey. subst c'. unfold Cache.set. simpl.
    rewrite (CacheFacts.evict_full c k0 e0 rest); auto; [| lia].
    rewrite JsMapFacts.get_set_other; auto.
    match goal with H : Cache.cache c = _ |- _ => rewrite H end. simpl.
    destruct (String.eqb k k0) eqn:E; auto.
    apply String.eqb_eq in E. congruence.
Qed.

(** A cache of capacity 2 that holds ["a"] (set at time 0) and ["b"] (set
    at time 5), both living 1000 ms: setting ["c"] at time 10 evicts
    ["a"] and keeps ["b"]; ["c"] is read back at once; ["a"] read at time
    1001 is expired, at time 1000 it is not. *)
Lemma cache_set_get_expire_evict_witness :
  let c0 := Cache.run [Cache.OpSet "a" 1 None 0; Cache.OpSet "b" 2 None 5]
              (Cache.new 2 1000) in
  let c1 := Cache.set "c" 3 None 10 c0 in
  Cache.get "c" 10 c1 = (Some 3, c1)
  /\ Cache.get "c" 1010 c1 = (Some 3, c1)
  /\ fst (Cache.get "a" 1001 c0) = None
  /\ JsMap.get "a" (Cache.cache (snd (Cache.get "a" 1001 c0))) = None
  /\ Cache.get "a" 1000 c0 = (Some 1, c0)
  /\ JsMap.get "a" (Cache.cache c1) = None
  /\ JsMap.get "b" (Cache.cache c1) = JsMap.get "b" (Cache.cache c0).
Proof.
  intros c0 c1.
  destruct (cache_set_get_expire_evict c0 "c" 3 None 10)
    as (H1 & H2 & H3 & H4 & H5).
  destruct (H3 "a" (Cache.mkEntry 1 1000) 1001) as (H31 & H32 & _);
    [reflexivity | reflexivity |].
  destruct (H5 "a" (Cache.mkEntry 1 1000) [("b", Cache.mkEntry 2 1005)])
    as (_ & H52 & H53);
    [reflexivity | reflexivity | simpl; intros [E | []]; discriminate E |].
  split; [apply H1; vm_compute; discriminate |].
  split; [apply H2; vm_compute; discriminate |].
  split; [exact H31 |].
  split; [exact H32 |].
  split; [apply (H4 "a" (Cache.mkEntry 1 1000) 1000);
          [reflexivity | vm_compute; discriminate] |].
  split; [apply H52; discriminate |].
  apply H53; discriminate.
Defined.

(** C9. Starting from an empty cache of capacity [maxSize >= 1], after
    any sequence of [set], [get] and [clear] the number of entries is at
    most [maxSize]. And a [set] made when the cache holds exactly
    [maxSize] entries deletes the oldest-inserted entry even when its key
    is already present further down: the overwrite of a key that is not
    the oldest leaves one entry fewer, the oldest entry is gone and the
    key holds the new value. *)
Theorem cache_size_bounded_and_overwrite_evicts {V : Type} :
  (forall (maxSize ttl : Z) (ops : list (Cache.op V)),
      1 <= maxSize ->
      Cache.size (Cache.run ops (Cache.new maxSize ttl)) <= maxSize)
  /\ (forall (c : Cache.t V) key v ttl_arg now k0 e0 rest,
        Cache.size c = Cache.maxSize c ->
        Cache.cache c = (k0, e0) :: rest ->
        ~ In k0 (JsMap.keys rest) ->
        key <> k0 ->
        JsMap.has key rest = true ->
        let c' := Cache.set key v ttl_arg now c in
        Cache.size c' = Cache.size c - 1
        /\ Cache.size c' < Cache.maxSize c'
        /\ JsMap.get k0 (Cache.cache c') = None
        /\ JsMap.get key (Cache.cache c')
           = Some (Cache.mkEntry v (now + Cache.effective_ttl c ttl_arg))).
Proof.
  split.
  - intros maxSize ttl ops Hpos.
    destruct (CacheFacts.size_run_le ops (Cache.new (V:=V) maxSize ttl)) as [H1 _];
      simpl; try lia.
    + unfold Cache.size, JsMap.size. simpl. lia.
    + exact H1.
  - intros c key v ttl_arg now k0 e0 rest Hfull Hc Hn Hne Hhas c'.
    assert (Hc' : Cache.cache c'
                  = JsMap.set key
                      (Cache.mkEntry v (now + Cache.effective_ttl c ttl_arg)) rest).
    { subst c'. unfold Cache.set. simpl.
      rewrite (CacheFacts.evict_full c k0 e0 rest); auto. lia. }
    assert (Hsize : Cache.size c' = Cache.size c - 1).
    { unfold Cache.size, JsMap.size. rewrite Hc', Hc.
      rewrite JsMapFacts.length_set_present by assumption.
      cbn [List.length]. lia. }
    repeat split.
    + exact Hsize.
    + rewrite Hsize. subst c'. simpl. lia.
    + rewrite Hc'. rewrite JsMapFacts.get_set_other by assumption.
      now apply JsMapFacts.get_none_not_in.
    + rewrite Hc'. apply JsMapFacts.get_set_same.
Qed.

(** Capacity 2 holding ["a"] then ["b"]: writing ["b"] again evicts ["a"]
    and leaves a single entry; and no sequence of three operations on a
    fresh cache of capacity 1 leaves more than one entry. *)
Lemma cache_size_bounded_and_overwrite_evicts_witness :
  let c0 := Cache.run [Cache.OpSet "a" 1 None 0; Cache.OpSet "b" 2 None 5]
              (Cache.new 2 1000) in
  Cache.size
    (Cache.run [Cache.OpSet "a" 1 None 0; Cache.OpSet "b" 2 None 1;
                Cache.OpGet "a" 2] (Cache.new 1 1000)) <= 1
  /\ Cache.size (Cache.set "b" 7 None 10 c0) = Cache.size c0 - 1
  /\ JsMap.get "a" (Cache.cache (Cache.set "b" 7 None 10 c0)) = None.
Proof.
  intros c0.
  destruct (@cache_size_bounded_and_overwrite_evicts Z) as [H1 H2].
  split; [apply H1; lia |].
  destruct (H2 c0 "b" 7 None 10 "a" (Cache.mkEntry 1 1000)
              [("b", Cache.mkEntry 2 1005)]) as (H21 & _ & H23 & _);
    [reflexivity | reflexivity | simpl; intros [E | []]; discriminate E
    | discriminate | reflexivity |].
  split; [exact H21 | exact H23].
Defined.

(** The bound needs a positive capacity: on an empty cache of capacity 0
    the eviction finds no first key, and the entry is stored all the
    same. *)
Remark cache_capacity_zero_stores_one :
  Cache.size (Cache.set "a" 1 None 0 (Cache.new 0 1000)) = 1.
Proof. reflexivity. Qed.

(** ** The rate limiter *)

Module RateLimiterFacts.

Import RateLimiter.

#[local] Arguments checkLimit : simpl never.

Lemma fold_min_le (l : list Z) (x : Z) :
  fold_left Z.min l x <= x /\ Forall (fun y => fold_left Z.min l x <= y) l.
Proof.
  revert x. induction l as [|y l IH]; intros x; simpl.
  - split; [lia | constructor].
  - destruct (IH (Z.min x y)) as [H1 H2]. split; [lia |].
    constructor; [lia | exact H2].
Qed.

Lemma fold_min_in (l : list Z) (x : Z) :
  fold_left Z.min l x = x \/ In (fold_left Z.min l x) l.
Proof.
  revert x. induction l as [|y l IH]; intros x; simpl; auto.
  destruct (IH (Z.min x y)) as [H | H]; auto.
  rewrite H. destruct (Z.min_spec x y) as [[_ E] | [_ E]]; rewrite E; auto.
Qed.

(** [Math.min] of a non-empty list is its least element. *)
Lemma Math_min_least (l : list Z) :
  l <> [] ->
  exists o, Math_min l = Finite o /\ In o l /\ forall t, In t l -> o <= t.
Proof.
  destruct l as [|x l]; [congruence | intros _].
  exists (fold_left Z.min l x). simpl. split; [reflexivity |].
  destruct (fold_min_le l x) as [H1 H2]. split.
  - destruct (fold_min_in l x) as [E | Hin]; [left; now rewrite E | now right].
  - intros t [<- | Hin]; [exact H1 |].
    rewrite Forall_forall in H2. now apply H2.
Qed.


Lemma checkLimit_unfold (key : string) (now : Z) (rl : t) :
  let rec := recent (now - windowMs rl) (current key rl) in
  checkLimit key now rl
  = ((if Z.of_nat (List.length rec) >=? maxRequests rl
      then Some (waitTime (windowMs rl) now (Math_min rec)) else None),
     mk (maxRequests rl) (windowMs rl)
        (JsMap.set key (rec ++ [now])
           (if JsMap.has key (requests rl) then requests rl
            else JsMap.set key [] (requests rl)))).
Proof.
  unfold checkLimit, current, JsMap.has.
  destruct (JsMap.get key (requests rl)) eqn:E; simpl.
  - rewrite E. reflexivity.
  - rewrite JsMapFacts.get_set_same. reflexivity.
Qed.

Lemma current_checkLimit (key : string) (now : Z) (rl : t) :
  current key (snd (checkLimit key now rl))
  = recent (now - windowMs rl) (current key rl) ++ [now]
  /\ maxRequests (snd (checkLimit key now rl)) = maxRequests rl
  /\ windowMs (snd (checkLimit key now rl)) = windowMs rl.
Proof.
  rewrite checkLimit_unfold. simpl. unfold current at 1. simpl.
  rewrite JsMapFacts.get_set_same. auto.
Qed.







End RateLimiterFacts.



(** ** The request executor *)

Module ExecFacts.

Import Exec.

Section Facts.

Context {num : Type} `{JsNumber num} `{JsBuiltins num}.

Local Abbreviation json := (Json.t num) (only parsing).
Local Abbreviation value := (@Json.value num) (only parsing).

Variables (method path : string) (query payload : value) (maxRetries : Z).

Local Abbreviation loop := (attempts method path query payload maxRetries)
  (only parsing).

Lemma retryable_not_ok (r : Response) :
  retryable (status r) = true -> ok r = false.
Proof.
  unfold retryable, ok. intros Hr.
  apply orb_true_iff in Hr. destruct Hr as [Hr | Hr].
  - apply Z.eqb_eq in Hr. rewrite Hr. reflexivity.
  - destruct (Z.geb_spec (status r) 500); [| discriminate].
    destruct (Z.leb_spec (status r) 299); [lia |].
    now rewrite andb_false_r.
Qed.

(** One retry: the loop requests, backs off and goes round again. *)
Lemma attempts_retry (fuel : nat) (attempt : Z) (w : World)
    (lat : Z) (r : Response) (rest : list Outcome) :
  network w = Responds lat r :: rest ->
  retryable (status r) = true ->
  attempt < maxRetries ->
  loop (S fuel) attempt w
  = bind (fetch method path query payload)
      (fun _ => bind (sleep (RateLimiter.Finite (backoff attempt)))
                  (fun _ => loop fuel (attempt + 1))) w.
Proof.
  intros Hnet Hr Hlt. cbn [attempts].
  destruct (Z.leb_spec attempt maxRetries); [| lia].
  cbv zeta. unfold bind, fetch. rewrite Hnet. cbn beta iota.
  rewrite Hr. destruct (Z.ltb_spec attempt maxRetries); [| lia].
  reflexivity.
Qed.

(** [n] retries in a row. *)
Lemma attempts_rounds (n : nat) :
  forall (fuel : nat) (attempt : Z) (w : World) (outs rest : list Outcome),
    List.length outs = n ->
    Forall retryable_response outs ->
    network w = outs ++ rest ->
    attempt + Z.of_nat n <= maxRetries ->
    exists w',
      loop (n + fuel) attempt w = loop fuel (attempt + Z.of_nat n) w'
      /\ trace w' = trace w ++ rounds method path query payload n attempt
      /\ network w' = rest
      /\ cache w' = cache w.
Proof.
  induction n as [|n IH]; intros fuel attempt w outs rest Hlen Hall Hnet Hle.
  - destruct outs; [| discriminate]. exists w. simpl in *.
    rewrite Z.add_0_r, app_nil_r. auto.
  - destruct outs as [|o outs]; [discriminate |].
    inversion Hall as [|? ? Ho Hall']; subst.
    destruct o as [lat r | lat msg]; [| contradiction]. simpl in Ho.
    cbn [plus Nat.add]. rewrite (attempts_retry _ _ _ lat r (outs ++ rest)); auto;
      [| lia].
    unfold bind at 1, fetch. rewrite Hnet. cbn [app]. cbn beta iota.
    unfold bind at 1, sleep, modify. cbn beta iota.
    match goal with |- context [loop (n + fuel)%nat (attempt + 1) ?w1] =>
      destruct (IH fuel (attempt + 1) w1 outs rest) as (w' & He & Ht & Hn & Hc)
    end.
    { simpl in Hlen. lia. }
    { exact Hall'. }
    { reflexivity. }
    { lia. }
    exists w'. rewrite He. repeat split.
    + f_equal. lia.
    + rewrite Ht. simpl. rewrite <- !app_assoc. reflexivity.
    + exact Hn.
    + rewrite Hc. reflexivity.
Qed.

(** The last attempt allowed, answered with a retryable status: the
    response is thrown as an [ApiError]. *)
Lemma attempts_exhausted (fuel : nat) (w : World) (lat : Z) (r : Response)
    (rest : list Outcome) :
  network w = Responds lat r :: rest ->
  retryable (status r) = true ->
  exists w',
    loop (S fuel) maxRetries w = (Throw (apiError r), w')
    /\ trace w' = trace w ++ [EvFetch method path query payload]
    /\ network w' = rest.
Proof.
  intros Hnet Hr. cbn [attempts]. rewrite Z.leb_refl.
  unfold bind at 1, fetch. rewrite Hnet. cbn beta iota.
  cbv zeta. rewrite Hr, Z.ltb_irrefl, (retryable_not_ok r Hr). cbn [negb].
  rewrite Z.eqb_refl. unfold throw, apiError.
  eexists. split; [reflexivity |]. simpl. auto.
Qed.

(** An attempt answered with a 2xx status returns the parsed body. *)
Lemma attempts_success (fuel : nat) (attempt : Z) (w : World) (lat : Z)
    (r : Response) (rest : list Outcome) :
  network w = Responds lat r :: rest ->
  ok r = true ->
  attempt <= maxRetries ->
  exists w',
    loop (S fuel) attempt w = (Ok (Some (resultOf r)), w')
    /\ trace w' = trace w ++ [EvFetch method path query payload]
    /\ network w' = rest.
Proof.
  intros Hnet Hok Hle. cbn [attempts].
  destruct (Z.leb_spec attempt maxRetries); [| lia].
  unfold bind at 1, fetch. rewrite Hnet. cbn beta iota.
  assert (Hnr : retryable (status r) = false).
  { destruct (retryable (status r)) eqn:E; auto.
    apply retryable_not_ok in E. congruence. }
  cbv zeta. rewrite Hnr, Hok. cbn [negb].
  unfold cacheStore, bind, gets, modify, ret. cbn beta iota.
  fold (resultOf r).
  destruct (cache _) as [c0 |] eqn:Ec; cbn beta iota.
  - destruct (String.eqb method "GET"); cbn beta iota;
      eexists; (split; [reflexivity |]); simpl; auto.
  - eexists. split; [reflexivity |]. simpl. auto.
Qed.

End Facts.

End ExecFacts.

(** ** The credential check of [apiFetch] *)

Module KeyFacts.

Import Exec.

(** Run the first action of a sequence whose outcome [E] is known. *)
Ltac step E := unfold bind at 1; rewrite E.

Section Facts.

Context {num : Type} `{JsNumber num} `{JsBuiltins num}.

Local Abbreviation value := (@Json.value num) (only parsing).

Lemma validateString_valid (s fieldName : string) (w : @World num) :
  valid s -> validateString (Some (JStr s)) fieldName w = (Ok s, w).
Proof.
  intros [Hne Hlen]. unfold validateString, validateRequired, bind.
  destruct s as [|c s]; [congruence |]. unfold ret.
  destruct (Z.ltb_spec 1000 (Z.of_nat (String.length (String c s))));
    [lia | reflexivity].
Qed.

Lemma checkLimit_outside (key : string) (w : @World num) :
  exists w',
    checkLimit key w = (Ok tt, w')
    /\ same_outside w w'
    /\ (exists sleeps, trace w' = trace w ++ sleeps /\ Forall is_sleep sleeps).
Proof.
  unfold checkLimit, bind, gets.
  destruct (RateLimiter.checkLimit key (clock w) (rateLimiter w)) as [[d |] rl'];
    cbn; unfold modify; eexists; (split; [reflexivity |]);
    (split; [repeat split |]).
  - exists [EvSleep d]. split; [reflexivity |].
    repeat constructor. now exists d.
  - exists []. split; [now rewrite app_nil_r | constructor].
Qed.

Lemma cacheLookup_outside (method path : string) (query : value) (w : @World num) :
  exists v w',
    cacheLookup method path query w = (Ok v, w')
    /\ same_outside w w' /\ trace w' = trace w.
Proof.
  unfold cacheLookup, bind, gets, ret, same_outside.
  destruct (cache w) as [c0 |]; cbn.
  - destruct (String.eqb method "GET"); cbn.
    + destruct (Cache.get (cacheKey method path query) (clock w) c0) as [cached c1].
      cbn. do 2 eexists. split; [reflexivity |]. cbn. auto.
    + do 2 eexists. split; [reflexivity |]. auto.
  - do 2 eexists. split; [reflexivity |]. auto.
Qed.

Lemma getApiKey_outside (w w' : @World num) :
  same_outside w w' -> getApiKey w' = getApiKey w.
Proof.
  intros (_ & Hk & Ht & _). unfold getApiKey. now rewrite Hk, Ht.
Qed.

(** Without a credential a call that is not served from the cache throws
    before any request is made. *)
Lemma apiFetch_without_key (path method : string) (o : @Options num) (w : @World num) :
  valid path -> methodOf o method -> valid method ->
  nonempty (getApiKey w) = false ->
  fst (beforeKeyCheck path method o w) = Ok None ->
  apiFetch (Some (JStr path)) o w
  = (Throw (ValidationError "ZAPMAIL_API_KEY not configured" "apiKey"
              (Some JNull)),
     snd (beforeKeyCheck path method o w))
  /\ network (snd (beforeKeyCheck path method o w)) = network w
  /\ exists sleeps,
       trace (snd (beforeKeyCheck path method o w)) = trace w ++ sleeps
       /\ Forall is_sleep sleeps.
Proof.
  intros Hp Hm Hvm Hkey Hmiss.
  destruct (checkLimit_outside "api" w) as (w1 & E1 & O1 & sleeps & T1 & S1).
  destruct (cacheLookup_outside method path (opt_query o) w1)
    as (v & w2 & E2 & O2 & T2).
  assert (Eb : beforeKeyCheck path method o w = (Ok v, w2)).
  { unfold beforeKeyCheck, bind at 1. now rewrite E1. }
  rewrite Eb in *. cbn [fst snd] in *.
  assert (v = None) by congruence. subst v.
  assert (Hk2 : nonempty (getApiKey w2) = false).
  { rewrite (getApiKey_outside w1 w2 O2), (getApiKey_outside w w1 O1). exact Hkey. }
  split; [| split].
  - unfold apiFetch.
    step (validateString_valid path "path" w Hp).
    unfold methodOf in Hm.
    assert (Em : validateString (Some (JStr method)) "method" w = (Ok method, w))
      by now apply validateString_valid.
    destruct (opt_method o) as [j |]; subst;
      step Em; step E1; step E2;
      unfold bind at 1, gets; rewrite Hk2; reflexivity.
  - destruct O1 as (N1 & _). destruct O2 as (N2 & _). congruence.
  - exists sleeps. split; [congruence | exact S1].
Qed.

(** With a credential, a call that is not served from the cache enters
    the retry loop with the counter at 0. *)
Lemma apiFetch_with_key (path method : string) (o : @Options num) (w : @World num) :
  valid path -> methodOf o method -> valid method ->
  nonempty (getApiKey w) = true ->
  fst (beforeKeyCheck path method o w) = Ok None ->
  apiFetch (Some (JStr path)) o w
  = attempts method path (opt_query o) (payloadOf method o) (retriesOf o w)
      (Z.to_nat (retriesOf o w + 1)) 0 (snd (beforeKeyCheck path method o w)).
Proof.
  intros Hp Hm Hvm Hkey Hmiss.
  destruct (checkLimit_outside "api" w) as (w1 & E1 & O1 & _).
  destruct (cacheLookup_outside method path (opt_query o) w1)
    as (v & w2 & E2 & O2 & _).
  assert (Eb : beforeKeyCheck path method o w = (Ok v, w2)).
  { unfold beforeKeyCheck, bind at 1. now rewrite E1. }
  rewrite Eb in *. cbn [fst snd] in *.
  assert (v = None) by congruence. subst v.
  assert (Hk2 : nonempty (getApiKey w2) = true).
  { rewrite (getApiKey_outside w1 w2 O2), (getApiKey_outside w w1 O1). exact Hkey. }
  assert (Hr : retriesOf o w2 = retriesOf o w).
  { unfold retriesOf. destruct O1 as (_ & _ & _ & C1).
    destruct O2 as (_ & _ & _ & C2). destruct (opt_maxRetries o); congruence. }
  unfold apiFetch.
  step (validateString_valid path "path" w Hp).
  unfold methodOf in Hm.
  assert (Em : validateString (Some (JStr method)) "method" w = (Ok method, w))
    by now apply validateString_valid.
  destruct (opt_method o) as [j |]; subst;
    step Em; step E1; step E2;
    unfold bind at 1, gets; rewrite Hk2; cbn [negb];
    step Hr; reflexivity.
Qed.

End Facts.

End KeyFacts.

(** C1, as the code has it. The retry loop of [apiFetch].
    - A call with valid path and method and a configured credential that
      is not served from the cache enters the loop with the attempt
      counter at 0, after the rate-limit gate and the cache lookup.
    - An attempt numbered [attempt] that is answered with status 429 or
      with a status of 500 or more, while [attempt < maxRetries], is
      followed by a pause of [min(2500 * (attempt + 1), 9000)] ms and by
      the next attempt.
    - With [maxRetries = 2] and the answers 429, 429, 200 the loop makes
      three requests, pauses 2500 ms and then 5000 ms between them, and
      returns the body of the third answer: the parsed document (or
      [{raw: text}] when the text is empty, [null] or not JSON).
    - With [maxRetries >= 0], when the first [maxRetries + 1] answers all
      carry status 429 or 5xx, the loop makes [maxRetries + 1] requests
      with [maxRetries] pauses of that length between them and throws.
      What it throws is an [ApiError] whose [status] is the status of the
      last answer, whose [response] is the parsed body of the last answer
      and whose message is
      ["HTTP <status>: <json.message || statusText || text>"]; only when
      [json.message] is an object or an array that cannot be converted to
      a string, the [TypeError] of the template literal is thrown in its
      place. The [response] is [null] when the body is empty or not JSON:
      the error does not carry the raw text, which shows in the message
      alone, and there only when the body has no [message] and the status
      line no text. *)
Theorem apiFetch_retry_policy {num : Type} `{JsNumber num} `{JsBuiltins num}
    (method path : string) (query payload : @Json.value num) :
  (forall (p m : string) (o : @Exec.Options num) (w : @Exec.World num),
      Exec.valid p -> Exec.methodOf o m -> Exec.valid m ->
      Exec.nonempty (Exec.getApiKey w) = true ->
      fst (Exec.beforeKeyCheck p m o w) = Exec.Ok None ->
      Exec.apiFetch (Some (JStr p)) o w
      = Exec.attempts m p (Exec.opt_query o) (Exec.payloadOf m o)
          (Exec.retriesOf o w) (Z.to_nat (Exec.retriesOf o w + 1)) 0
          (snd (Exec.beforeKeyCheck p m o w)))
  /\ (forall (maxRetries : Z) (fuel : nat) (attempt : Z) (w : @Exec.World num)
          lat r rest,
      Exec.network w = Exec.Responds lat r :: rest ->
      Exec.status r = 429 \/ 500 <= Exec.status r ->
      attempt < maxRetries ->
      Exec.attempts method path query payload maxRetries (S fuel) attempt w
      = Exec.bind (Exec.fetch method path query payload)
          (fun _ =>
             Exec.bind
               (Exec.sleep
                  (RateLimiter.Finite (Z.min (2500 * (attempt + 1)) 9000)))
               (fun _ =>
                  Exec.attempts method path query payload maxRetries fuel
                    (attempt + 1))) w)
  /\ (forall (w : @Exec.World num) l1 r1 l2 r2 l3 r3 rest,
        Exec.network w
        = [Exec.Responds l1 r1; Exec.Responds l2 r2; Exec.Responds l3 r3]
          ++ rest ->
        Exec.status r1 = 429 -> Exec.status r2 = 429 ->
        Exec.status r3 = 200 ->
        exists w',
          Exec.attempts method path query payload 2 (Z.to_nat (2 + 1)) 0 w
          = (Exec.Ok (Some (Exec.resultOf r3)), w')
          /\ Exec.trace w'
             = Exec.trace w
               ++ [Exec.EvFetch method path query payload;
                   Exec.EvSleep (RateLimiter.Finite 2500);
                   Exec.EvFetch method path query payload;
                   Exec.EvSleep (RateLimiter.Finite 5000);
                   Exec.EvFetch method path query payload]
          /\ Exec.network w' = rest
          /\ (forall j, Exec.text r3 <> "" ->
                        JSON_parse (Exec.text r3) = Some j -> j <> JNull ->
                        Exec.resultOf r3 = j))
  /\ (forall (maxRetries : Z) (w : @Exec.World num) outs lat r rest,
        0 <= maxRetries ->
        Z.of_nat (List.length outs) = maxRetries ->
        Forall Exec.retryable_response outs ->
        Exec.status r = 429 \/ 500 <= Exec.status r ->
        Exec.network w = outs ++ Exec.Responds lat r :: rest ->
        exists err w',
          Exec.attempts method path query payload maxRetries
            (Z.to_nat (maxRetries + 1)) 0 w
          = (Exec.Throw err, w')
          /\ Exec.trace w'
             = Exec.trace w
               ++ Exec.rounds method path query payload
                    (List.length outs) 0
               ++ [Exec.EvFetch method path query payload]
          /\ Exec.network w' = rest
          /\ (let j := Exec.parseBody (Exec.text r) in
              let message := Json.prop "message" (Some j) in
              match
                (if Json.truthy message then Json.toString_value message
                 else if negb (Str.is_empty (Exec.statusText r))
                      then Some (Exec.statusText r)
                      else Some (Exec.text r))
              with
              | Some msg =>
                  err = Exec.ApiError
                          ("HTTP " ++ Str.of_Z (Exec.status r) ++ ": " ++ msg)%string
                          (Exec.status r) j
              | None => err = Exec.OtherError Json.cannotConvert
              end)
          /\ (Exec.text r = "" \/ JSON_parse (Exec.text r) = None ->
              Exec.parseBody (Exec.text r) = JNull)).
Proof.
  assert (Hretry : forall r : Exec.Response,
             Exec.status r = 429 \/ 500 <= Exec.status r ->
             Exec.retryable (Exec.status r) = true).
  { intros r [E | E]; unfold Exec.retryable.
    - rewrite E. reflexivity.
    - destruct (Z.geb_spec (Exec.status r) 500); [| lia]. apply orb_true_r. }
  split; [| split; [| split]].
  - intros p m o w Hp Hm Hvm Hkey Hmiss.
    now apply KeyFacts.apiFetch_with_key.
  - intros maxRetries fuel attempt w lat r rest Hnet Hst Hlt.
    apply (ExecFacts.attempts_retry method path query payload maxRetries
             fuel attempt w lat r rest); auto.
  - intros w l1 r1 l2 r2 l3 r3 rest Hnet H1 H2 H3.
    destruct (ExecFacts.attempts_rounds method path query payload 2 2%nat 1%nat 0 w
                [Exec.Responds l1 r1; Exec.Responds l2 r2]
                (Exec.Responds l3 r3 :: rest))
      as (w1 & He & Ht & Hn & _); auto.
    { repeat constructor; simpl; apply Hretry; auto. }
    { simpl. lia. }
    destruct (ExecFacts.attempts_success method path query payload 2 0%nat
                (0 + Z.of_nat 2) w1 l3 r3 rest)
      as (w2 & He2 & Ht2 & Hn2); auto.
    { unfold Exec.ok. rewrite H3. reflexivity. }
    { simpl. lia. }
    exists w2. change (Z.to_nat (2 + 1)) with (2 + 1)%nat.
    rewrite He, He2, Ht2, Ht, <- app_assoc. repeat split; auto.
    intros j Hne Hp Hj. unfold Exec.resultOf, Exec.parseBody.
    destruct (Exec.text r3); [congruence |]. cbn [Str.is_empty].
    rewrite Hp. destruct j; congruence.
  - intros maxRetries w outs lat r rest Hpos Hlen Hall Hst Hnet.
    destruct (ExecFacts.attempts_rounds method path query payload maxRetries
                (List.length outs) 1%nat 0 w outs (Exec.Responds lat r :: rest))
      as (w1 & He & Ht & Hn & _); auto; [lia |].
    rewrite Z.add_0_l, Hlen in He.
    destruct (ExecFacts.attempts_exhausted method path query payload maxRetries
                0%nat w1 lat r rest) as (w2 & He2 & Ht2 & Hn2); auto.
    exists (Exec.apiError r), w2.
    replace (Z.to_nat (maxRetries + 1)) with (List.length outs + 1)%nat by lia.
    rewrite He, He2, Ht2, Ht, <- app_assoc.
    split; [reflexivity |]. split; [reflexivity |]. split; [exact Hn2 |]. split.
    + cbv zeta. unfold Exec.apiError, Exec.thrownFor, Exec.errorDetail.
      cbv zeta.
      destruct (if Json.truthy (Json.prop "message"
                                  (Some (Exec.parseBody (Exec.text r))))
                then _ else _); reflexivity.
    + intros [E | E]; unfold Exec.parseBody; rewrite E; [reflexivity |].
      now destruct (Str.is_empty (Exec.text r)).
Qed.

(** The answers 429, 429, 200 (the last with body [[1,2]]): the call
    [apiFetch("/v2/domains/buy", {method: "POST", maxRetries: 2})] returns
    the parsed body after three requests and pauses of 2500 and 5000 ms;
    with [maxRetries = 1] the loop gives up after two requests with an
    [ApiError] of status 429 whose [response] is [null]. *)
Lemma apiFetch_retry_policy_witness :
  let B := Sample.builtins [("[1,2]", JArr [JNum 1; JNum 2])] in
  let busy := Exec.mkResponse 429 "Too Many Requests" "slow down" in
  let w0 :=
    Exec.mkWorld 0
      [Exec.Responds 5 busy; Exec.Responds 5 busy;
       Exec.Responds 5 (Exec.mkResponse 200 "OK" "[1,2]")]
      (Some "key") None 3 None RateLimiter.new_default [] in
  let request := Exec.EvFetch "POST" "/v2/domains/buy" None None in
  let o := Exec.mkOptions (Some (JStr "POST")) None None (Some 2) in
  (exists w',
      Exec.apiFetch (H0:=B) (Some (JStr "/v2/domains/buy")) o w0
      = (Exec.Ok (Some (JArr [JNum 1; JNum 2])), w')
      /\ Exec.trace w'
         = [request; Exec.EvSleep (RateLimiter.Finite 2500);
            request; Exec.EvSleep (RateLimiter.Finite 5000); request])
  /\ (Exec.attempts (H0:=B) "POST" "/v2/domains/buy" None None 2 3 0 w0
      = Exec.bind (Exec.fetch "POST" "/v2/domains/buy" None None)
          (fun _ =>
             Exec.bind (Exec.sleep (RateLimiter.Finite 2500))
               (fun _ =>
                  Exec.attempts (H0:=B) "POST" "/v2/domains/buy" None None 2 2 1))
          w0)
  /\ (exists w',
        Exec.attempts (H0:=B) "POST" "/v2/domains/buy" None None 1 2 0 w0
        = (Exec.Throw
             (Exec.ApiError "HTTP 429: Too Many Requests" 429 JNull), w')
        /\ Exec.trace w'
           = [request; Exec.EvSleep (RateLimiter.Finite 2500); request]).
Proof.
  intros B busy w0 request o.
  destruct (apiFetch_retry_policy (H0:=B) "POST" "/v2/domains/buy" None None)
    as (Pe & Pa & Pb & Pc).
  split; [| split].
  - destruct (Pb (snd (Exec.beforeKeyCheck (H0:=B) "/v2/domains/buy" "POST" o w0))
                5 busy 5 busy 5 (Exec.mkResponse 200 "OK" "[1,2]") [])
      as (w' & E & T & _); [reflexivity | reflexivity | reflexivity
                           | reflexivity |].
    exists w'. split; [| exact T].
    rewrite (Pe "/v2/domains/buy" "POST" o w0);
      [exact E | split; [discriminate | vm_compute; discriminate] | reflexivity
      | split; [discriminate | vm_compute; discriminate] | reflexivity
      | reflexivity].
  - apply (Pa 2 2%nat 0 w0 5 busy
             [Exec.Responds 5 busy;
              Exec.Responds 5 (Exec.mkResponse 200 "OK" "[1,2]")]);
      [reflexivity | left; reflexivity | reflexivity].
  - destruct (Pc 1 w0 [Exec.Responds 5 busy] 5 busy
                [Exec.Responds 5 (Exec.mkResponse 200 "OK" "[1,2]")])
      as (err & w' & E & T & _ & Herr & _);
      [discriminate | reflexivity | repeat constructor | left; reflexivity
      | reflexivity |].
    vm_compute in Herr. subst err.
    exists w'. split; [exact E | exact T].
Defined.

(** C1 as stated fails in its last part. Two answers of status 429 with
    the body [slow down], which is not JSON, to a call with
    [maxRetries = 1]: the [ApiError] thrown carries the status 429, but
    its [response] is [null]. It is neither the raw text nor the document
    [{raw: text}] that a successful answer with this body is returned
    as, and the message does not hold the text either. *)
Lemma exhausted_retries_error_lacks_raw_body :
  let B := Sample.builtins [] in
  let busy := Exec.mkResponse 429 "Too Many Requests" "slow down" in
  let w0 :=
    Exec.mkWorld 0 [Exec.Responds 5 busy; Exec.Responds 5 busy]
      (Some "key") None 3 None RateLimiter.new_default [] in
  let o := Exec.mkOptions (Some (JStr "POST")) None None (Some 1) in
  exists message response w',
    Exec.apiFetch (H0:=B) (Some (JStr "/v2/domains/buy")) o w0
    = (Exec.Throw (Exec.ApiError message 429 response), w')
    /\ Exec.trace w'
       = [Exec.EvFetch "POST" "/v2/domains/buy" None None;
          Exec.EvSleep (RateLimiter.Finite 2500);
          Exec.EvFetch "POST" "/v2/domains/buy" None None]
    /\ message = "HTTP 429: Too Many Requests"
    /\ response = JNull
    /\ response <> JStr (Exec.text busy)
    /\ response <> Exec.resultOf (H0:=B) busy
    /\ Exec.resultOf (H0:=B) busy = JObj [("raw", JStr "slow down")].
Proof.
  intros B busy w0 o. do 3 eexists.
  split; [vm_compute; reflexivity |].
  repeat split; discriminate.
Qed.

(** With a negative [maxRetries] the loop is not entered: no request is
    made and the call returns [undefined]. *)
Remark attempts_negative_retries {num : Type} `{JsNumber num} `{JsBuiltins num}
    (method path : string) (query payload : @Json.value num) (maxRetries : Z)
    (w : @Exec.World num) :
  maxRetries < 0 ->
  Exec.attempts method path query payload maxRetries
    (Z.to_nat (maxRetries + 1)) 0 w = (Exec.Ok None, w).
Proof.
  intros Hneg. replace (Z.to_nat (maxRetries + 1)) with 0%nat by lia.
  reflexivity.
Qed.


(** C4, as the code has it. When [apiFetch] is called with a valid path
    and method, no API key is configured and the call is not served from
    the cache, it throws before any request is made: the network is
    untouched, the only events are pauses of the rate limiter, and there
    is no retry. The exception is a [ValidationError] (code
    [VALIDATION_ERROR], field ["apiKey"]): the program has no separate
    class or code for a missing credential, so the failure has the same
    kind as the rejection of a malformed argument. *)
Theorem apiFetch_missing_key_is_validation_error {num : Type}
    `{JsNumber num} `{JsBuiltins num}
    (path method : string) (o : @Exec.Options num) (w : @Exec.World num) :
  Exec.valid path -> Exec.methodOf o method -> Exec.valid method ->
  Exec.nonempty (Exec.getApiKey w) = false ->
  fst (Exec.beforeKeyCheck path method o w) = Exec.Ok None ->
  exists e w',
    Exec.apiFetch (Some (JStr path)) o w = (Exec.Throw e, w')
    /\ e = Exec.ValidationError "ZAPMAIL_API_KEY not configured" "apiKey"
             (Some JNull)
    /\ Exec.error_name e = "ValidationError"
    /\ Exec.error_code e = Some "VALIDATION_ERROR"
    /\ Exec.network w' = Exec.network w
    /\ (exists sleeps,
          Exec.trace w' = Exec.trace w ++ sleeps
          /\ Forall Exec.is_sleep sleeps)
    /\ (forall w0 : @Exec.World num,
          exists e0 w0',
            Exec.apiFetch (Some (JStr "")) o w0 = (Exec.Throw e0, w0')
            /\ Exec.error_name e0 = Exec.error_name e
            /\ Exec.error_code e0 = Exec.error_code e).
Proof.
  intros Hp Hm Hvm Hkey Hmiss.
  destruct (KeyFacts.apiFetch_without_key path method o w Hp Hm Hvm Hkey Hmiss)
    as (E & N & T).
  do 2 eexists. split; [exact E |].
  repeat split; auto.
  intros w0. do 2 eexists. split; [reflexivity | split; reflexivity].
Qed.

(** The call [apiFetch("/v2/workspaces")] in a world without credential. *)
Lemma apiFetch_missing_key_is_validation_error_witness :
  exists e w',
    Exec.apiFetch (H0:=Sample.builtins []) (Some (JStr "/v2/workspaces"))
      Sample.no_options Sample.no_key_world = (Exec.Throw e, w')
    /\ e = Exec.ValidationError "ZAPMAIL_API_KEY not configured" "apiKey"
             (Some JNull)
    /\ Exec.network w' = Exec.network Sample.no_key_world.
Proof.
  destruct (apiFetch_missing_key_is_validation_error (H0:=Sample.builtins [])
              "/v2/workspaces" "GET" Sample.no_options Sample.no_key_world)
    as (e & w' & E & He & _ & _ & N & _).
  - split; [discriminate | vm_compute; discriminate].
  - reflexivity.
  - split; [discriminate | vm_compute; discriminate].
  - reflexivity.
  - reflexivity.
  - exists e, w'. auto.
Defined.

(** C4 as stated fails: the exception thrown for the missing credential
    is not of a configuration-error kind. It is a [ValidationError] with
    code [VALIDATION_ERROR], exactly the kind of the exception thrown for
    an empty path. *)
Lemma apiFetch_missing_key_not_a_configuration_error :
  exists e e0,
    fst (Exec.apiFetch (H0:=Sample.builtins []) (Some (JStr "/v2/workspaces"))
           Sample.no_options Sample.no_key_world) = Exec.Throw e
    /\ fst (Exec.apiFetch (H0:=Sample.builtins []) (Some (JStr ""))
              Sample.no_options Sample.no_key_world) = Exec.Throw e0
    /\ Exec.error_name e = "ValidationError"
    /\ Exec.error_name e <> "ConfigurationError"
    /\ Exec.error_name e = Exec.error_name e0
    /\ Exec.error_code e = Exec.error_code e0.
Proof.
  do 2 eexists. split; [vm_compute; reflexivity |].
  split; [vm_compute; reflexivity |].
  repeat split. discriminate.
Qed.

(** ** The composite purchase *)

Module PurchaseFacts.

Import Exec.

Section Facts.

Context {num : Type} `{JsNumber num} `{JsBuiltins num}.

(** What the pricing loop returns: one price per domain, in order, each
    resolved from an answer of the availability check of that domain, and
    the total accumulated from them. *)
Lemma priceLoop_total (domains : list string) (years : num) :
  forall (total0 : num) (w : @World num) total1 prices w',
    priceLoop domains years total0 w = (Ok (total1, prices), w') ->
    Forall2 (fun d price =>
               exists avail wa wb,
                 checkDomainAvailabilitySingle d years wa = (Ok avail, wb)
                 /\ resolvePrice avail d = Some price)
            domains prices
    /\ total1 = fold_left (fun acc price => add acc (cost price years))
                          prices total0.
Proof.
  induction domains as [|d domains IH]; intros total0 w total1 prices w' Hrun.
  - cbn in Hrun. inversion Hrun; subst. split; [constructor | reflexivity].
  - cbn [priceLoop] in Hrun. unfold bind at 1 in Hrun.
    destruct (checkDomainAvailabilitySingle d years w) as [[avail | e] w1] eqn:Ea;
      [| discriminate].
    destruct (resolvePrice avail d) as [price |] eqn:Ep; [| discriminate].
    unfold bind at 1 in Hrun.
    destruct (priceLoop domains years (add total0 (cost price years)) w1)
      as [[[t ps] | e] w2] eqn:Eloop; [| discriminate].
    cbn in Hrun. inversion Hrun; subst.
    destruct (IH _ _ _ _ _ Eloop) as [Hall Htot].
    split.
    + constructor; [now exists avail, w, w1 | exact Hall].
    + exact Htot.
Qed.

End Facts.

End PurchaseFacts.

(** C5. When [purchaseDomains] is called with [preferWallet] true (given
    or by default) and returns, the [useWallet] flag of its result is
    [balance >= total], where [balance] is what [getWalletBalance]
    fetched after the pricing loop and [total], also returned, is the sum
    over the requested domains, in order and starting from 0, of the
    price of the domain times [years]: the price resolved from the answer
    of the availability check of that domain, with 0 in the place of a
    price that is falsy (0 or [NaN]). In the scenario where two domains
    cost 100 and 50 for the one year of the default, a balance of 100
    gives [useWallet = false] and a balance of 200 gives
    [useWallet = true], with [total = 150] in both; and so it is where
    they cost 30 and 20 a year and are bought for three years. *)
Theorem purchaseDomains_useWallet :
  (forall (num : Type) (Hn : JsNumber num) (Hb : JsBuiltins num)
          (domains : list string) (years : option num)
          (preferWallet : option bool) (w : @Exec.World num) r w',
      preferWallet = None \/ preferWallet = Some true ->
      Exec.purchaseDomains domains years preferWallet w = (Exec.Ok r, w') ->
      let y := match years with Some y => y | None => lit 1 end in
      exists prices balance w1 w2,
        Exec.priceLoop domains y (lit 0) w
        = (Exec.Ok (Exec.total r, prices), w1)
        /\ Exec.getWalletBalance w1 = (Exec.Ok balance, w2)
        /\ Forall2 (fun d price =>
                      exists avail wa wb,
                        Exec.checkDomainAvailabilitySingle d y wa
                        = (Exec.Ok avail, wb)
                        /\ Exec.resolvePrice avail d = Some price)
                   domains prices
        /\ Exec.total r
           = fold_left
               (fun acc price =>
                  add acc (mul (if nonzero price then price else lit 0) y))
               prices (lit 0)
        /\ Exec.useWallet r = geb balance (Exec.total r))
  /\ fst (Exec.purchaseDomains (H0:=Sample.shop_builtins 100 50 100)
            ["example.com"; "test.com"] None (Some true)
            (Sample.shop_world 100 50 100))
     = Exec.Ok (Exec.mkPurchaseResult false 150 (Some Sample.receipt))
  /\ fst (Exec.purchaseDomains (H0:=Sample.shop_builtins 100 50 200)
            ["example.com"; "test.com"] None (Some true)
            (Sample.shop_world 100 50 200))
     = Exec.Ok (Exec.mkPurchaseResult true 150 (Some Sample.receipt))
  /\ fst (Exec.purchaseDomains (H0:=Sample.shop_builtins 30 20 100)
            ["example.com"; "test.com"] (Some 3) None
            (Sample.shop_world 30 20 100))
     = Exec.Ok (Exec.mkPurchaseResult false 150 (Some Sample.receipt))
  /\ fst (Exec.purchaseDomains (H0:=Sample.shop_builtins 30 20 200)
            ["example.com"; "test.com"] (Some 3) None
            (Sample.shop_world 30 20 200))
     = Exec.Ok (Exec.mkPurchaseResult true 150 (Some Sample.receipt)).
Proof.
  split; [| repeat split; vm_compute; reflexivity].
  intros num Hn Hb domains years preferWallet w r w' Hpref Hrun y.
  unfold Exec.purchaseDomains in Hrun. fold y in Hrun.
  unfold Exec.bind at 1 in Hrun.
  destruct (Exec.priceLoop domains y (lit 0) w) as [[[t prices] | e] w1] eqn:Eloop;
    [| discriminate].
  cbn [fst] in Hrun.
  assert (Hwallet :
            exists balance w2,
              Exec.getWalletBalance w1 = (Exec.Ok balance, w2)
              /\ Exec.useWallet r = geb balance t /\ Exec.total r = t).
  { destruct Hpref; subst preferWallet;
      unfold Exec.bind at 1 in Hrun; unfold Exec.bind at 1 in Hrun;
      destruct (Exec.getWalletBalance w1) as [[balance | e] w2];
      try discriminate;
      unfold Exec.ret at 1 in Hrun; unfold Exec.bind at 1 in Hrun;
      match type of Hrun with
      | context [Exec.invokeSlug ?m ?p ?b ?w] =>
          destruct (Exec.invokeSlug m p b w) as [[res | e] w3]
      end; try discriminate;
      unfold Exec.ret in Hrun; inversion Hrun; subst;
      exists balance, w2; auto. }
  destruct Hwallet as (balance & w2 & Ew & Hu & Ht). subst t.
  destruct (PurchaseFacts.priceLoop_total domains y (lit 0) w _ _ _ Eloop)
    as [Hall Htot].
  exists prices, balance, w1, w2. auto.
Qed.

(** The scenario of three years run with a balance of 100, read through
    the general statement: the prices resolved are 30 and 20, the total
    is [(0 + 30 * 3) + 20 * 3], the balance fetched is 100, and the flag
    is [100 >= 150]. *)
Lemma purchaseDomains_useWallet_witness :
  let B := Sample.shop_builtins 30 20 100 in
  let w := Sample.shop_world 30 20 100 in
  exists r prices balance,
    fst (Exec.purchaseDomains (H0:=B) ["example.com"; "test.com"] (Some 3)
           (Some true) w) = Exec.Ok r
    /\ prices = [30; 20]
    /\ balance = 100
    /\ Exec.total r = (0 + 30 * 3) + 20 * 3
    /\ Exec.useWallet r = (balance >=? Exec.total r).
Proof.
  intros B w.
  destruct purchaseDomains_useWallet as [P _].
  assert (E : Exec.purchaseDomains (H0:=B) ["example.com"; "test.com"] (Some 3)
                (Some true) w
              = (Exec.Ok (Exec.mkPurchaseResult false 150 (Some Sample.receipt)),
                 snd (Exec.purchaseDomains (H0:=B) ["example.com"; "test.com"]
                        (Some 3) (Some true) w)))
    by (vm_compute; reflexivity).
  destruct (P Z Sample.Z_number B ["example.com"; "test.com"] (Some 3) (Some true)
              w _ _ (or_intror eq_refl) E)
    as (prices & balance & w1 & w2 & E1 & E2 & _ & E3 & E4).
  vm_compute in E1. injection E1 as Hp Hw. subst prices w1.
  vm_compute in E2. injection E2 as Hb _. subst balance.
  exists (Exec.mkPurchaseResult false 150 (Some Sample.receipt)), [30; 20], 100.
  split; [now rewrite E |]. split; [reflexivity |]. split; [reflexivity |].
  split; [exact E3 | exact E4].
Defined.

(** ** The planner *)

Module PlanFacts.

Section Facts.

Context {num : Type} `{JsNumber num}.

(** A string is its own conversion. *)
Lemma normalize_string (s : string) :
  Planner.normalize (num:=num) (Some (JStr s)) = Some (Str.trim s).
Proof. destruct s; reflexivity. Qed.

(** Called with a string, [planFromRules] returns. *)
Lemma planFromRules_string (s : string) (options : @Planner.Hints num) :
  Planner.planFromRules (Some (JStr s)) options
  = Some (Planner.mkPlan "rules"
            (Planner.stepsFor (Planner.matchIntent (Str.trim s)) (Str.trim s)
               options)).
Proof. unfold Planner.planFromRules. now rewrite normalize_string. Qed.


End Facts.

End PlanFacts.

(** C6, evaluated. For the instruction of the claim the pattern
    [CREATE_MAILBOXES_EMPTY] is the first to match, so the compound
    fallback is never consulted and the plan is the stand-alone sequence
    of three steps, without any connect step. *)
Theorem planFromRules_create_and_connect_instruction :
  let instruction :=
    "create 3 mailboxes on zero domains and connect to instantly" in
  Planner.matchIntent instruction = Some Planner.CREATE_MAILBOXES_EMPTY
  /\ Regex.test Planner.compound_re instruction = true
  /\ Planner.planFromRules (num:=Z) (Some (JStr instruction))
       (Planner.mkHints None None)
     = Some
         (Planner.mkPlan "rules"
            [ JObj [("action", JStr "api"); ("path", JStr "/v2/domains");
                    ("method", JStr "GET"); ("description", JStr "List domains")];
              JObj [("action", JStr "compute");
                    ("note", JStr "Filter domains with 0 mailboxes")];
              JObj [("action", JStr "api"); ("path", JStr "/v2/mailboxes");
                    ("method", JStr "POST");
                    ("bodyFrom", JStr "createMailboxesForZeroDomains");
                    ("count", JNum 3);
                    ("description",
                      JStr "Create 3 mailboxes on each zero-mailbox domain")] ])
  /\ option_map Planner.steps
       (Planner.planFromRules (num:=Z) (Some (JStr instruction))
          (Planner.mkHints None None))
     <> Some (Planner.stepsFor (Some Planner.CREATE_AND_CONNECT) instruction
                (Planner.mkHints None None)).
Proof.
  intros instruction. repeat split; try (vm_compute; reflexivity).
  vm_compute. discriminate.
Qed.

(** The example of the comment above the compound fallback, ["setup 100
    mailboxes and connect to instantly"], does not reach the fallback
    either: [CONNECT_EXPORT_APP] matches first. *)
Lemma planFromRules_comment_example :
  Planner.matchIntent "setup 100 mailboxes and connect to instantly"
  = Some Planner.CONNECT_EXPORT_APP
  /\ Planner.matchIntent "setup 100 mailboxes and connect"
     = Some Planner.CREATE_AND_CONNECT.
Proof. split; vm_compute; reflexivity. Qed.

(** C7, evaluated. The instruction of the claim matches no pattern (the
    availability pattern asks for the word "domain"), so the plan is the
    single note "No rule matched" and holds no request at all. *)
Theorem planFromRules_availability_instruction :
  let instruction := "check if example.com is available for 1 year" in
  Planner.matchIntent instruction = None
  /\ Planner.planFromRules (num:=Z) (Some (JStr instruction))
       (Planner.mkHints None None)
     = Some (Planner.mkPlan "rules" [Planner.noRuleMatched])
  /\ Planner.plan_and_execute (num:=Z) (H0:=Sample.builtins []) false
       Planner.FetchRejects (Some (JStr instruction)) (Planner.mkHints None None)
     = Planner.Returned
         (Planner.mkDryRun "dry-run" "rules" [Planner.noRuleMatched]).
Proof. intros instruction. repeat split; vm_compute; reflexivity. Qed.

(** With the word "domain" in it the same request is planned as the
    claim describes. *)
Lemma planFromRules_availability_with_keyword :
  Planner.planFromRules (num:=Z)
    (Some (JStr "check if domain example.com is available for 1 year"))
    (Planner.mkHints None None)
  = Some
      (Planner.mkPlan "rules"
         [ Planner.availabilityDecision;
           JObj [("action", JStr "api");
                 ("slug", JStr "get-available-domains-for-registration-13521189e0");
                 ("path", JStr "/v2/domains/available");
                 ("method", JStr "POST");
                 ("body", JObj [("domainName", JStr "example.com");
                                ("years", JNum 1)]);
                 ("description", JStr "Check availability for example.com")] ]).
Proof. vm_compute; reflexivity. Qed.

(** C8, as the code has it. Every way the LLM tier can fail (the request
    is rejected, the body of the reply is not JSON, the content cannot be
    converted to a string or is not JSON, or the document has no [steps]
    array) makes [planFromLLM] return the plan marked ["llm-failed"]; and
    whenever it does, [plan_and_execute] with the tier enabled answers
    with the rule-based plan and throws nothing. The [strategy] of the
    answer is ["rules"]: the mark ["llm-failed"] is dropped with the
    failed plan. *)
Theorem llm_failure_falls_back_to_rules {num : Type} `{JsNumber num}
    `{JsBuiltins num} (reply : @Planner.LlmReply num) (c : ascii) (i : string)
    (options : @Planner.Hints num) :
  let instruction := String c i in
  (reply = Planner.FetchRejects \/ reply = Planner.JsonRejects
   \/ (exists data, reply = Planner.Data data
                    /\ Planner.replyText data = None)
   \/ (exists data text,
          reply = Planner.Data data
          /\ Planner.replyText data = Some text
          /\ JSON_parse text = None)
   \/ (exists data text j,
          reply = Planner.Data data
          /\ Planner.replyText data = Some text
          /\ JSON_parse text = Some j
          /\ forall items, Json.prop "steps" (Some j) <> Some (JArr items)) ->
   Planner.planFromLLM reply = Planner.llmFailed)
  /\ (Planner.strategy (Planner.planFromLLM reply) = "llm-failed" ->
      exists rulePlan,
        Planner.planFromRules (Some (JStr instruction)) options = Some rulePlan
        /\ Planner.plan_and_execute true reply (Some (JStr instruction)) options
           = Planner.Returned
               (Planner.mkDryRun "dry-run" "rules" (Planner.steps rulePlan))).
Proof.
  intros instruction. split.
  - intros [-> | [-> | [(data & -> & Ht)
                       | [(data & text & -> & Ht & Hp)
                         | (data & text & j & -> & Ht & Hp & Hs)]]]];
      try reflexivity; unfold Planner.planFromLLM; rewrite Ht;
      [reflexivity | rewrite Hp; reflexivity | rewrite Hp].
    destruct j; try reflexivity.
    destruct (Json.prop "steps" (Some (JObj fields))) as [[]|] eqn:E;
      try reflexivity.
    exfalso. eapply Hs. reflexivity.
  - intros Hfailed. eexists. split; [apply PlanFacts.planFromRules_string |].
    subst instruction. unfold Planner.plan_and_execute, Planner.selectPlan.
    rewrite PlanFacts.planFromRules_string, Hfailed.
    cbn [String.eqb]. rewrite andb_false_r. reflexivity.
Qed.

(** The request to the completion service is rejected while the
    instruction ["list all workspaces"] is planned. *)
Lemma llm_failure_falls_back_to_rules_witness :
  Planner.planFromLLM (num:=Z) (H0:=Sample.builtins []) Planner.FetchRejects
  = Planner.llmFailed
  /\ exists rulePlan,
       Planner.planFromRules (Some (JStr "list all workspaces"))
         (Planner.mkHints None None) = Some rulePlan
       /\ Planner.plan_and_execute (num:=Z) (H0:=Sample.builtins []) true
            Planner.FetchRejects (Some (JStr "list all workspaces"))
            (Planner.mkHints None None)
          = Planner.Returned
              (Planner.mkDryRun "dry-run" "rules" (Planner.steps rulePlan)).
Proof.
  destruct (llm_failure_falls_back_to_rules (num:=Z) (H0:=Sample.builtins [])
              Planner.FetchRejects "l"%char "ist all workspaces"
              (Planner.mkHints None None)) as [P1 P2].
  split; [apply P1; left; reflexivity | apply P2; reflexivity].
Defined.

(** C8 as stated fails: with the LLM tier enabled and its request
    rejected, the strategy of the answer is ["rules"], not a mark of
    failure, and the whole answer equals the one given with the tier
    disabled. *)
Lemma llm_failure_is_not_marked :
  exists r,
    Planner.plan_and_execute (num:=Z) (H0:=Sample.builtins []) true
      Planner.FetchRejects (Some (JStr "list all workspaces"))
      (Planner.mkHints None None) = Planner.Returned r
    /\ Planner.dr_strategy r = "rules"
    /\ Planner.dr_strategy r <> "llm-failed"
    /\ Planner.plan_and_execute (num:=Z) (H0:=Sample.builtins []) false
         Planner.FetchRejects (Some (JStr "list all workspaces"))
         (Planner.mkHints None None) = Planner.Returned r.
Proof.
  eexists. split; [vm_compute; reflexivity |].
  repeat split. discriminate.
Qed.




(* ===================================================================== *)
(** * Further properties of the executor *)

Module OpsFacts.

Import Exec Ops.

Section Facts.

Context {num : Type} `{JsNumber num} `{JsBuiltins num}.

Local Abbreviation json := (Json.t num) (only parsing).
Local Abbreviation value := (@Json.value num) (only parsing).

(** [valid] is decidable. *)
Lemma valid_dec (s : string) : {valid s} + {~ valid s}.
Proof.
  unfold valid. destruct (string_dec s "") as [-> | Hne].
  - right. tauto.
  - destruct (Z_le_dec (Z.of_nat (String.length s)) 1000).
    + left. tauto.
    + right. tauto.
Qed.

(** [validateString] accepts exactly the valid strings, and rejects
    everything else with a [ValidationError] that names the field and
    carries the offending value; it never changes the world. *)
Lemma validateString_cases (v : value) (fieldName : string) (w : @World num) :
  (exists s, v = Some (JStr s) /\ valid s
             /\ validateString v fieldName w = (Ok s, w))
  \/ ((forall s, v = Some (JStr s) -> ~ valid s)
      /\ exists message,
           validateString v fieldName w
           = (Throw (ValidationError message fieldName v), w)).
Proof.
  destruct v as [j |].
  - destruct j as [| b | n | s | items | fields];
      try (right; split; [intros s E; discriminate E |];
           eexists; reflexivity).
    destruct (valid_dec s) as [Hv | Hn].
    + left. exists s. repeat split; try apply Hv.
      now apply KeyFacts.validateString_valid.
    + right. split; [intros s' E; inversion E; subst; exact Hn |].
      unfold valid in Hn. destruct s as [| c s].
      * eexists. reflexivity.
      * unfold validateString, validateRequired, bind, ret.
        destruct (Z.ltb_spec 1000 (Z.of_nat (String.length (String c s)))).
        -- eexists. reflexivity.
        -- exfalso. apply Hn. split; [discriminate | lia].
  - right. split; [intros s E; discriminate E |]. eexists. reflexivity.
Qed.

Lemma fetches_app (a b : list (@Event num)) :
  fetches (a ++ b) = (fetches a + fetches b)%nat.
Proof. unfold fetches. now rewrite filter_app, length_app. Qed.

Lemma fetches_sleeps (l : list (@Event num)) :
  Forall is_sleep l -> fetches l = 0%nat.
Proof.
  induction 1 as [| e l [d ->] _ IH]; [reflexivity |]. exact IH.
Qed.

Section Loop.

Variables (method path : string) (query payload : value) (maxRetries : Z).

Local Abbreviation loop := (attempts method path query payload maxRetries)
  (only parsing).

(** What one call of [fetch] does to the world. *)
Lemma fetch_effect (w : @World num) :
  exists o w1,
    fetch method path query payload w = (Ok o, w1)
    /\ trace w1 = trace w ++ [EvFetch method path query payload]
    /\ cache w1 = cache w
    /\ network w1 = tl (network w)
    /\ clock w <= clock w1.
Proof.
  unfold fetch. destruct (network w) as [| o rest] eqn:En; do 2 eexists;
    (split; [reflexivity |]);
    cbn [trace cache network clock set_clock set_network log_event tl];
    rewrite ?En; repeat split; lia.
Qed.

Lemma cacheStore_effect (result : json) (w : @World num) :
  exists w1,
    cacheStore method path query result w = (Ok tt, w1)
    /\ trace w1 = trace w /\ network w1 = network w /\ clock w1 = clock w
    /\ cache w1
       = match cache w with
         | Some c0 =>
             if String.eqb method "GET"
             then Some (Cache.set (cacheKey method path query) result None
                          (clock w) c0)
             else cache w
         | None => None
         end.
Proof.
  unfold cacheStore, bind, gets, modify, ret.
  destruct (cache w) as [c0 |] eqn:Ec; cbn beta iota.
  - destruct (String.eqb method "GET"); eexists; (split; [reflexivity |]);
      cbn; rewrite ?Ec; auto.
  - eexists. split; [reflexivity |]. rewrite Ec. auto.
Qed.

(** The loop makes at most [fuel] requests. *)
Lemma attempts_fetches (fuel : nat) :
  forall (attempt : Z) (w : @World num),
    (fetches (trace (snd (loop fuel attempt w))) <= fetches (trace w) + fuel)%nat.
Proof.
  induction fuel as [| fuel IH]; intros attempt w.
  - cbn. lia.
  - cbn [attempts]. destruct (attempt <=? maxRetries); [| cbn; lia].
    destruct (fetch_effect w) as (o & w1 & Ef & Ht & _).
    unfold bind at 1. rewrite Ef. cbv zeta.
    assert (Hf : fetches (trace w1) = S (fetches (trace w))).
    { rewrite Ht, fetches_app. cbn. lia. }
    assert (Hnext : forall d,
      le (fetches (trace (snd (bind (sleep d) (fun _ => loop fuel (attempt + 1)) w1))))
         (fetches (trace w) + S fuel)%nat).
    { intros d. unfold bind, sleep, modify.
      etransitivity; [apply IH |]. cbn [trace set_clock log_event].
      rewrite fetches_app, Hf. cbn. lia. }
    assert (Hcatch : forall err,
      le (fetches (trace (snd ((if attempt =? maxRetries then throw err
                             else bind (sleep (RateLimiter.Finite (700 * (attempt + 1))))
                                    (fun _ => loop fuel (attempt + 1))) w1))))
         (fetches (trace w) + S fuel)%nat).
    { intros err. destruct (attempt =? maxRetries); [cbn; lia | apply Hnext]. }
    destruct o as [lat r | lat message]; [| apply Hcatch].
    assert (Hsettle :
      le (fetches (trace (snd ((if negb (ok r)
           then (if attempt =? maxRetries then throw (apiError r)
                 else bind (sleep (RateLimiter.Finite (700 * (attempt + 1))))
                        (fun _ => loop fuel (attempt + 1)))
           else bind (cacheStore method path query (resultOf r))
                  (fun _ => ret (Some (resultOf r)))) w1))))
         (fetches (trace w) + S fuel)%nat).
    { destruct (negb (ok r)); [apply Hcatch |].
      destruct (cacheStore_effect (resultOf r) w1) as (w2 & Es & Ht2 & _).
      unfold bind. rewrite Es. cbn. rewrite Ht2. lia. }
    destruct (retryable (status r)).
    + destruct (attempt <? maxRetries); [apply Hnext | apply Hsettle].
    + apply Hsettle.
Qed.

(** What the loop leaves in the cache when it returns a result. *)
Lemma attempts_returns (fuel : nat) :
  forall (attempt : Z) (w w1 : @World num) (v : json),
    loop fuel attempt w = (Ok (Some v), w1) ->
    cache w1
    = match cache w with
      | Some c0 =>
          if String.eqb method "GET"
          then Some (Cache.set (cacheKey method path query) v None (clock w1) c0)
          else cache w
      | None => None
      end.
Proof.
  induction fuel as [| fuel IH]; intros attempt w w1 v E.
  - discriminate E.
  - cbn [attempts] in E. destruct (attempt <=? maxRetries); [| discriminate E].
    destruct (fetch_effect w) as (o & w0 & Ef & _ & Hc & _).
    unfold bind at 1 in E. rewrite Ef in E. cbv zeta in E.
    assert (Hnext : forall d,
      bind (sleep d) (fun _ => loop fuel (attempt + 1)) w0 = (Ok (Some v), w1) ->
      cache w1
      = match cache w with
        | Some c0 =>
            if String.eqb method "GET"
            then Some (Cache.set (cacheKey method path query) v None (clock w1) c0)
            else cache w
        | None => None
        end).
    { intros d E'. unfold bind, sleep, modify in E'.
      apply IH in E'. cbn [cache set_clock log_event] in E'.
      rewrite Hc in E'. exact E'. }
    assert (Hcatch : forall err,
      (if attempt =? maxRetries then throw err
       else bind (sleep (RateLimiter.Finite (700 * (attempt + 1))))
              (fun _ => loop fuel (attempt + 1))) w0 = (Ok (Some v), w1) ->
      cache w1
      = match cache w with
        | Some c0 =>
            if String.eqb method "GET"
            then Some (Cache.set (cacheKey method path query) v None (clock w1) c0)
            else cache w
        | None => None
        end).
    { intros err E'. destruct (attempt =? maxRetries);
        [discriminate E' | now apply Hnext in E']. }
    destruct o as [lat r | lat message]; [| now apply Hcatch in E].
    assert (Hsettle :
      (if negb (ok r)
       then (if attempt =? maxRetries then throw (apiError r)
             else bind (sleep (RateLimiter.Finite (700 * (attempt + 1))))
                    (fun _ => loop fuel (attempt + 1)))
       else bind (cacheStore method path query (resultOf r))
              (fun _ => ret (Some (resultOf r)))) w0 = (Ok (Some v), w1) ->
      cache w1
      = match cache w with
        | Some c0 =>
            if String.eqb method "GET"
            then Some (Cache.set (cacheKey method path query) v None (clock w1) c0)
            else cache w
        | None => None
        end).
    { intros E'. destruct (negb (ok r)); [now apply Hcatch in E' |].
      destruct (cacheStore_effect (resultOf r) w0) as (w2 & Es & _ & _ & Hk & Hs).
      unfold bind in E'. rewrite Es in E'. unfold ret in E'.
      inversion E'; subst. rewrite Hs, Hk, Hc. reflexivity. }
    destruct (retryable (status r)).
    + destruct (attempt <? maxRetries); [now apply Hnext in E | now apply Hsettle].
    + now apply Hsettle.
Qed.

(** A call whose method is not ["GET"] leaves the cache alone. *)
Lemma attempts_cache_other (fuel : nat) :
  String.eqb method "GET" = false ->
  forall (attempt : Z) (w : @World num),
    cache (snd (loop fuel attempt w)) = cache w.
Proof.
  intros Hm. induction fuel as [| fuel IH]; intros attempt w.
  - reflexivity.
  - cbn [attempts]. destruct (attempt <=? maxRetries); [| reflexivity].
    destruct (fetch_effect w) as (o & w0 & Ef & _ & Hc & _).
    unfold bind at 1. rewrite Ef. cbv zeta.
    assert (Hnext : forall d,
      cache (snd (bind (sleep d) (fun _ => loop fuel (attempt + 1)) w0)) = cache w).
    { intros d. unfold bind, sleep, modify. rewrite IH. exact Hc. }
    assert (Hcatch : forall err,
      cache (snd ((if attempt =? maxRetries then throw err
                   else bind (sleep (RateLimiter.Finite (700 * (attempt + 1))))
                          (fun _ => loop fuel (attempt + 1))) w0)) = cache w).
    { intros err. destruct (attempt =? maxRetries); [exact Hc | apply Hnext]. }
    destruct o as [lat r | lat message]; [| apply Hcatch].
    assert (Hsettle :
      cache (snd ((if negb (ok r)
           then (if attempt =? maxRetries then throw (apiError r)
                 else bind (sleep (RateLimiter.Finite (700 * (attempt + 1))))
                        (fun _ => loop fuel (attempt + 1)))
           else bind (cacheStore method path query (resultOf r))
                  (fun _ => ret (Some (resultOf r)))) w0)) = cache w).
    { destruct (negb (ok r)); [apply Hcatch |].
      destruct (cacheStore_effect (resultOf r) w0) as (w2 & Es & _ & _ & _ & Hs).
      unfold bind. rewrite Es. cbn. rewrite Hs, Hm, Hc. now destruct (cache w). }
    destruct (retryable (status r)).
    + destruct (attempt <? maxRetries); [apply Hnext | apply Hsettle].
    + apply Hsettle.
Qed.

(** One retry after a caught failure: the loop requests, waits
    [700 * (attempt + 1)] ms and goes round again. *)
Lemma attempts_caught (fuel : nat) (attempt : Z) (w : @World num)
    (o : Outcome) (rest : list Outcome) :
  network w = o :: rest ->
  caught_outcome o ->
  attempt < maxRetries ->
  loop (S fuel) attempt w
  = bind (fetch method path query payload)
      (fun _ => bind (sleep (RateLimiter.Finite (700 * (attempt + 1))))
                  (fun _ => loop fuel (attempt + 1))) w.
Proof.
  intros Hnet Ho Hlt. cbn [attempts].
  destruct (Z.leb_spec attempt maxRetries); [| lia].
  cbv zeta. unfold bind, fetch. rewrite Hnet. cbn beta iota.
  destruct (Z.eqb_spec attempt maxRetries); [lia |].
  destruct o as [lat r | lat message]; [| reflexivity].
  destruct Ho as [Hok Hr]. rewrite Hr, Hok. reflexivity.
Qed.

Lemma attempts_caught_rounds (n : nat) :
  forall (fuel : nat) (attempt : Z) (w : @World num) (outs rest : list Outcome),
    List.length outs = n ->
    Forall caught_outcome outs ->
    network w = outs ++ rest ->
    attempt + Z.of_nat n <= maxRetries ->
    exists w',
      loop (n + fuel) attempt w = loop fuel (attempt + Z.of_nat n) w'
      /\ trace w' = trace w ++ caught_rounds method path query payload n attempt
      /\ network w' = rest.
Proof.
  induction n as [|n IH]; intros fuel attempt w outs rest Hlen Hall Hnet Hle.
  - destruct outs; [| discriminate]. exists w. simpl in *.
    rewrite Z.add_0_r, app_nil_r. auto.
  - destruct outs as [|o outs]; [discriminate |].
    inversion Hall as [|? ? Ho Hall']; subst.
    cbn [plus Nat.add]. rewrite (attempts_caught _ _ _ o (outs ++ rest)); auto;
      [| lia].
    unfold bind at 1, fetch. rewrite Hnet. cbn [app]. cbn beta iota.
    unfold bind at 1, sleep, modify. cbn beta iota.
    match goal with |- context [loop (n + fuel)%nat (attempt + 1) ?w1] =>
      destruct (IH fuel (attempt + 1) w1 outs rest) as (w' & He & Ht & Hn)
    end.
    { simpl in Hlen. lia. }
    { exact Hall'. }
    { reflexivity. }
    { lia. }
    exists w'. rewrite He. repeat split.
    + f_equal. lia.
    + rewrite Ht. simpl. rewrite <- !app_assoc. reflexivity.
    + exact Hn.
Qed.

(** The last attempt allowed, ending in a caught failure: the exception
    is thrown to the caller. *)
Lemma attempts_caught_last (fuel : nat) (w : @World num) (o : Outcome)
    (rest : list Outcome) :
  network w = o :: rest ->
  caught_outcome o ->
  exists w',
    loop (S fuel) maxRetries w = (Throw (errorOf o), w')
    /\ trace w' = trace w ++ [EvFetch method path query payload]
    /\ network w' = rest.
Proof.
  intros Hnet Ho. cbn [attempts]. rewrite Z.leb_refl.
  unfold bind at 1, fetch. rewrite Hnet. cbn beta iota.
  cbv zeta. rewrite Z.eqb_refl.
  destruct o as [lat r | lat message].
  - destruct Ho as [Hok Hr]. rewrite Hr, Hok. cbn [negb]. unfold throw.
    eexists. split; [reflexivity |]. simpl. auto.
  - unfold throw. eexists. split; [reflexivity |]. simpl. auto.
Qed.

End Loop.
Lemma same_outside_trans (w1 w2 w3 : @World num) :
  same_outside w1 w2 -> same_outside w2 w3 -> same_outside w1 w3.
Proof.
  unfold same_outside. intros (A1 & A2 & A3 & A4) (B1 & B2 & B3 & B4).
  repeat split; congruence.
Qed.

Lemma checkLimit_cache (key : string) (w : @World num) :
  cache (snd (checkLimit key w)) = cache w.
Proof.
  unfold checkLimit, bind, gets.
  destruct (RateLimiter.checkLimit key (clock w) (rateLimiter w)) as [[d |] rl'];
    reflexivity.
Qed.

Lemma ttl_get {V} (key : string) (now : Z) (c : Cache.t V) :
  Cache.ttl (snd (Cache.get key now c)) = Cache.ttl c.
Proof.
  unfold Cache.get. destruct (JsMap.get key (Cache.cache c)) as [item |];
    [destruct (now >? Cache.expires item) |]; reflexivity.
Qed.

(** The gate and the cache lookup of [apiFetch]: they never throw, make
    no request, and touch the cache only for the method ["GET"]. *)
Lemma beforeKeyCheck_effect (path method : string) (o : @Options num)
    (w : @World num) :
  exists v w2,
    beforeKeyCheck path method o w = (Ok v, w2)
    /\ same_outside w w2
    /\ (exists sleeps, trace w2 = trace w ++ sleeps /\ Forall is_sleep sleeps)
    /\ match cache w with
       | Some c0 =>
           if String.eqb method "GET" then
             let got := Cache.get (cacheKey method path (opt_query o))
                          (clock (snd (checkLimit "api" w))) c0 in
             v = (if Json.truthy (fst got) then fst got else None)
             /\ cache w2 = Some (snd got)
           else v = None /\ cache w2 = cache w
       | None => v = None /\ cache w2 = None
       end.
Proof.
  pose proof (checkLimit_cache "api" w) as Hcl.
  destruct (KeyFacts.checkLimit_outside "api" w) as (w1 & E1 & O1 & sleeps & T1 & S1).
  rewrite E1 in Hcl. cbn [snd] in Hcl.
  unfold beforeKeyCheck, bind at 1. rewrite E1. cbn [snd].
  unfold cacheLookup, bind, gets, ret. rewrite Hcl.
  destruct (cache w) as [c0 |] eqn:Ec; cbn beta iota.
  - destruct (String.eqb method "GET") eqn:Em; cbn beta iota.
    + destruct (Cache.get (cacheKey method path (opt_query o)) (clock w1) c0)
        as [cached c1] eqn:Eg.
      unfold modify. cbn beta iota. do 2 eexists. split; [reflexivity |].
      split; [| split].
      * destruct O1 as (A & B & C & D). repeat split; assumption.
      * exists sleeps. split; [exact T1 | exact S1].
      * cbn. auto.
    + do 2 eexists. split; [reflexivity |]. split; [exact O1 |].
      split; [exists sleeps; auto |]. rewrite Hcl. auto.
  - do 2 eexists. split; [reflexivity |]. split; [exact O1 |].
    split; [exists sleeps; auto |]. auto.
Qed.

(** [apiFetch] on arguments that pass the validation. *)
Lemma apiFetch_valid (path method : string) (o : @Options num) (w : @World num) :
  valid path -> methodOf o method -> valid method ->
  apiFetch (Some (JStr path)) o w
  = match beforeKeyCheck path method o w with
    | (Ok (Some c), w2) => (Ok (Some c), w2)
    | (Ok None, w2) =>
        if nonempty (getApiKey w2) then
          attempts method path (opt_query o) (payloadOf method o)
            (retriesOf o w2) (Z.to_nat (retriesOf o w2 + 1)) 0 w2
        else
          (Throw (ValidationError "ZAPMAIL_API_KEY not configured" "apiKey"
                    (Some JNull)), w2)
    | (Throw e, w2) => (Throw e, w2)
    end.
Proof.
  intros Hp Hm Hvm.
  destruct (beforeKeyCheck_effect path method o w) as (v & w2 & Eb & _).
  rewrite Eb. unfold beforeKeyCheck in Eb.
  destruct (KeyFacts.checkLimit_outside "api" w) as (w1 & E1 & _).
  unfold bind at 1 in Eb. rewrite E1 in Eb.
  unfold apiFetch.
  KeyFacts.step (KeyFacts.validateString_valid path "path" w Hp).
  unfold methodOf in Hm.
  assert (Em : validateString (Some (JStr method)) "method" w = (Ok method, w))
    by now apply KeyFacts.validateString_valid.
  destruct (opt_method o) as [j |]; subst;
    KeyFacts.step Em; KeyFacts.step E1; KeyFacts.step Eb;
    (destruct v as [c |]; [reflexivity |]);
    unfold bind at 1, gets; destruct (nonempty (getApiKey w2)); reflexivity.
Qed.

(** Either the arguments are rejected, or both are valid strings. *)
Lemma apiFetch_cases (path : value) (o : @Options num) (w : @World num) :
  (exists message fieldName v,
      apiFetch path o w = (Throw (ValidationError message fieldName v), w))
  \/ (exists p m, path = Some (JStr p) /\ valid p /\ methodOf o m /\ valid m).
Proof.
  destruct (validateString_cases path "path" w)
    as [(p & Ep & Hp & E1) | (_ & message & E)].
  - set (method0 := match opt_method o with
                    | None => Some (JStr "GET")
                    | Some m => Some m
                    end).
    destruct (validateString_cases method0 "method" w)
      as [(m & Em & Hm & _) | (_ & message & E)].
    + right. exists p, m. repeat split; try assumption; try apply Hp; try apply Hm.
      unfold methodOf. subst method0. destruct (opt_method o); congruence.
    + left. exists message, "method", method0. unfold apiFetch.
      KeyFacts.step E1. unfold bind at 1. subst method0.
      destruct (opt_method o); now rewrite E.
  - left. exists message, "path", path. unfold apiFetch, bind at 1. now rewrite E.
Qed.

(** The loop never changes the environment. *)
Lemma attempts_env (method path : string) (query payload : value)
    (maxRetries : Z) (fuel : nat) :
  forall (attempt : Z) (w : @World num),
    env (snd (attempts method path query payload maxRetries fuel attempt w))
    = env w.
Proof.
  induction fuel as [| fuel IH]; intros attempt w.
  - reflexivity.
  - cbn [attempts]. destruct (attempt <=? maxRetries); [| reflexivity].
    assert (Hf : exists o w0,
      fetch method path query payload w = (Ok o, w0)
      /\ env w0 = env w).
    { unfold fetch. destruct (network w); do 2 eexists; split; reflexivity. }
    destruct Hf as (o & w0 & Ef & Hc).
    unfold bind at 1. rewrite Ef. cbv zeta.
    assert (Hnext : forall d,
      env
        (snd (bind (sleep d)
                (fun _ => attempts method path query payload maxRetries fuel
                            (attempt + 1)) w0))
      = env w).
    { intros d. unfold bind, sleep, modify. rewrite IH. exact Hc. }
    assert (Hcatch : forall err,
      env
        (snd ((if attempt =? maxRetries then throw err
               else bind (sleep (RateLimiter.Finite (700 * (attempt + 1))))
                      (fun _ => attempts method path query payload maxRetries fuel
                                  (attempt + 1))) w0))
      = env w).
    { intros err. destruct (attempt =? maxRetries); [exact Hc | apply Hnext]. }
    destruct o as [lat r | lat message]; [| apply Hcatch].
    assert (Hsettle :
      env
        (snd ((if negb (ok r)
           then (if attempt =? maxRetries then throw (apiError r)
                 else bind (sleep (RateLimiter.Finite (700 * (attempt + 1))))
                        (fun _ => attempts method path query payload maxRetries fuel
                                    (attempt + 1)))
           else bind (cacheStore method path query (resultOf r))
                  (fun _ => ret (Some (resultOf r)))) w0))
      = env w).
    { destruct (negb (ok r)); [apply Hcatch |].
      unfold cacheStore, bind, gets, modify, ret. cbn beta iota.
      destruct (cache w0); [destruct (String.eqb method "GET") |]; exact Hc. }
    destruct (retryable (status r)).
    + destruct (attempt <? maxRetries); [apply Hnext | apply Hsettle].
    + apply Hsettle.
Qed.

Lemma apiFetch_env (path : value) (o : @Options num) (w : @World num) :
  env (snd (apiFetch path o w)) = env w.
Proof.
  destruct (apiFetch_cases path o w)
    as [(message & fieldName & v & E) | (p & m & -> & Hp & Hm & Hvm)].
  - now rewrite E.
  - rewrite (apiFetch_valid p m o w Hp Hm Hvm).
    destruct (beforeKeyCheck_effect p m o w)
      as (v & w2 & Eb & (_ & K2 & T2 & C2) & _).
    assert (E2 : env w2 = env w) by (unfold env; congruence).
    rewrite Eb. destruct v as [c |]; [exact E2 |].
    destruct (nonempty (getApiKey w2)); [| exact E2].
    rewrite attempts_env. exact E2.
Qed.

(** One call of [apiFetch] sends at most [maxRetries + 1] requests. *)
Lemma apiFetch_fetches (path : value) (o : @Options num) (w : @World num) :
  (fetches (trace (snd (apiFetch path o w)))
   <= fetches (trace w) + Z.to_nat (retriesOf o w + 1))%nat.
Proof.
  destruct (apiFetch_cases path o w)
    as [(message & fieldName & v & E) | (p & m & -> & Hp & Hm & Hvm)].
  - rewrite E. cbn [snd]. lia.
  - rewrite (apiFetch_valid p m o w Hp Hm Hvm).
    destruct (beforeKeyCheck_effect p m o w)
      as (v & w2 & Eb & O2 & (sleeps & T2 & S2) & _).
    rewrite Eb.
    assert (Hf : fetches (trace w2) = fetches (trace w)).
    { rewrite T2, fetches_app, (fetches_sleeps _ S2). lia. }
    assert (Hr : retriesOf o w2 = retriesOf o w).
    { unfold retriesOf. destruct O2 as (_ & _ & _ & C2).
      destruct (opt_maxRetries o); congruence. }
    destruct v as [c |]; [cbn [snd]; lia |].
    destruct (nonempty (getApiKey w2)); [| cbn [snd]; lia].
    rewrite Hr, <- Hf. apply attempts_fetches.
Qed.

(** A [GET] that went to the network is answered from the cache when it
    is repeated in time. *)
Lemma apiFetch_repeat (p : string) (o : @Options num)
    (w w1 : @World num) (c0 : Cache.t (Json.t num)) (v : Json.t num) :
  valid p ->
  methodOf o "GET" ->
  cache w = Some c0 ->
  apiFetch (Some (JStr p)) o w = (Ok (Some v), w1) ->
  fetches (trace w1) <> fetches (trace w) ->
  Json.truthy (Some v) = true ->
  clock (snd (checkLimit "api" w1)) <= clock w1 + Cache.ttl c0 ->
  exists w2,
    apiFetch (Some (JStr p)) o w1 = (Ok (Some v), w2)
    /\ network w2 = network w1
    /\ fetches (trace w2) = fetches (trace w1).
Proof.
  intros Hp Hm Hc E Hreq Htruthy Htime.
  assert (Hget : valid "GET") by (split; [discriminate | cbn; lia]).
  rewrite (apiFetch_valid p "GET" o w Hp Hm Hget) in E.
  destruct (beforeKeyCheck_effect p "GET" o w)
    as (v0 & wb & Eb & _ & (sleeps & Tb & Sb) & Hcache).
  rewrite Eb in E. rewrite Hc in Hcache. cbn [String.eqb Ascii.eqb Bool.eqb] in Hcache.
  cbv zeta in Hcache. destruct Hcache as [Hv0 Hcb].
  destruct v0 as [c |].
  { exfalso. inversion E; subst. apply Hreq.
    rewrite Tb, fetches_app, (fetches_sleeps _ Sb). lia. }
  destruct (nonempty (getApiKey wb)); [| discriminate E].
  apply attempts_returns in E. rewrite Hcb in E.
  cbn [String.eqb Ascii.eqb Bool.eqb] in E.
  rewrite (apiFetch_valid p "GET" o w1 Hp Hm Hget).
  destruct (beforeKeyCheck_effect p "GET" o w1)
    as (v1 & w2 & Eb1 & O1 & (sleeps1 & T1 & S1) & Hcache1).
  rewrite Eb1. rewrite E in Hcache1.
  cbn [String.eqb Ascii.eqb Bool.eqb] in Hcache1. cbv zeta in Hcache1.
  rewrite CacheFacts.get_after_set in Hcache1.
  - cbn [fst] in Hcache1. rewrite Htruthy in Hcache1. destruct Hcache1 as [-> _].
    exists w2. split; [reflexivity |]. split; [apply O1 |].
    rewrite T1, fetches_app, (fetches_sleeps _ S1). lia.
  - unfold Cache.effective_ttl. rewrite ttl_get. exact Htime.
Qed.

End Facts.

End OpsFacts.

(** X1. A call of [apiFetch] whose path is not a non-empty string of at
    most 1000 characters throws a [ValidationError] for the field
    ["path"] carrying the value given; with a good path and a bad method
    it is the field ["method"]. In both cases the call is rejected before
    the executor does anything else: no request is sent and no pause is
    made, no slot of the rate limiter is used, and the cache, the clock
    and the answers waiting on the network are as they were. (What the
    outer [catch] of [apiFetch] does with the error before it throws it
    again, an entry in the log and a count in the metrics, is outside the
    world of this embedding.) *)
Theorem apiFetch_rejects_invalid_arguments {num : Type} `{JsNumber num}
    `{JsBuiltins num} (path : @Json.value num) (o : @Exec.Options num)
    (w : @Exec.World num) :
  let method0 :=
    match Exec.opt_method o with
    | None => Some (JStr "GET")
    | Some m => Some m
    end in
  let untouched (w' : @Exec.World num) :=
    Exec.trace w' = Exec.trace w
    /\ Exec.rateLimiter w' = Exec.rateLimiter w
    /\ Exec.cache w' = Exec.cache w
    /\ Exec.clock w' = Exec.clock w
    /\ Exec.network w' = Exec.network w in
  ((forall s, path = Some (JStr s) -> ~ Exec.valid s) ->
   exists message w',
     Exec.apiFetch path o w
     = (Exec.Throw (Exec.ValidationError message "path" path), w')
     /\ untouched w')
  /\ (forall p,
        path = Some (JStr p) -> Exec.valid p ->
        (forall s, method0 = Some (JStr s) -> ~ Exec.valid s) ->
        exists message w',
          Exec.apiFetch path o w
          = (Exec.Throw (Exec.ValidationError message "method" method0), w')
          /\ untouched w').
Proof.
  intros method0 untouched.
  assert (Hw : untouched w) by (repeat split).
  split.
  - intros Hbad.
    destruct (OpsFacts.validateString_cases path "path" w)
      as [(s & E & Hv & _) | (_ & message & E)].
    + exfalso. exact (Hbad s E Hv).
    + exists message, w. split; [| exact Hw].
      unfold Exec.apiFetch, Exec.bind at 1. now rewrite E.
  - intros p Ep Hp Hbad. subst path.
    destruct (OpsFacts.validateString_cases method0 "method" w)
      as [(s & E & Hv & _) | (_ & message & E)].
    + exfalso. exact (Hbad s E Hv).
    + exists message, w. split; [| exact Hw]. unfold Exec.apiFetch.
      unfold Exec.bind at 1.
      rewrite (KeyFacts.validateString_valid p "path" w Hp).
      unfold Exec.bind at 1. subst method0.
      destruct (Exec.opt_method o); now rewrite E.
Qed.

(** A call without path, and a call whose method is a number, made while
    an answer waits on the network: it is still waiting afterwards. *)
Lemma apiFetch_rejects_invalid_arguments_witness :
  (exists message w',
      Exec.apiFetch (H0:=Sample.builtins []) None Sample.no_options
        Sample.no_key_world
      = (Exec.Throw (Exec.ValidationError message "path" None), w')
      /\ Exec.trace w' = []
      /\ Exec.network w' = Exec.network Sample.no_key_world)
  /\ (exists message w',
        Exec.apiFetch (H0:=Sample.builtins []) (Some (JStr "/v2/user"))
          (Exec.mkOptions (Some (JNum 7)) None None None) Sample.no_key_world
        = (Exec.Throw (Exec.ValidationError message "method" (Some (JNum 7))),
           w')
        /\ Exec.trace w' = []
        /\ Exec.network w' = Exec.network Sample.no_key_world).
Proof.
  split.
  - destruct (apiFetch_rejects_invalid_arguments (H0:=Sample.builtins []) None
                Sample.no_options Sample.no_key_world) as [P _].
    destruct P as (message & w' & E & Ht & _ & _ & _ & Hn).
    { intros s E. discriminate E. }
    exists message, w'. split; [exact E |]. split; [exact Ht | exact Hn].
  - destruct (apiFetch_rejects_invalid_arguments (H0:=Sample.builtins [])
                (Some (JStr "/v2/user"))
                (Exec.mkOptions (Some (JNum 7)) None None None)
                Sample.no_key_world) as [_ P].
    destruct (P "/v2/user") as (message & w' & E & Ht & _ & _ & _ & Hn).
    + reflexivity.
    + split; [discriminate | vm_compute; discriminate].
    + intros s E. discriminate E.
    + exists message, w'. split; [exact E |]. split; [exact Ht | exact Hn].
Defined.

(** X2. Whatever its arguments, the state of the server and the answers
    of the network, one call of [apiFetch] sends at most [maxRetries + 1]
    requests, where [maxRetries] is the option of the call or else the
    configured default; with a negative [maxRetries] it sends none. *)
Theorem apiFetch_request_bound {num : Type} `{JsNumber num} `{JsBuiltins num}
    (path : @Json.value num) (o : @Exec.Options num) (w : @Exec.World num) :
  (Ops.fetches (Exec.trace (snd (Exec.apiFetch path o w)))
   <= Ops.fetches (Exec.trace w) + Z.to_nat (Exec.retriesOf o w + 1))%nat.
Proof. apply OpsFacts.apiFetch_fetches. Qed.

(** X3. With caching on, a [GET] that went to the network and returned a
    truthy result is answered from the cache when it is repeated: the
    second call returns the same result without sending any request,
    provided it passes the rate-limit gate no later than [ttl] ms after
    the first call returned. *)
Theorem apiFetch_repeated_get_is_cached {num : Type} `{JsNumber num}
    `{JsBuiltins num} (p : string) (o : @Exec.Options num)
    (w w1 : @Exec.World num) (c0 : Cache.t (Json.t num)) (v : Json.t num) :
  Exec.valid p ->
  Exec.methodOf o "GET" ->
  Exec.cache w = Some c0 ->
  Exec.apiFetch (Some (JStr p)) o w = (Exec.Ok (Some v), w1) ->
  Ops.fetches (Exec.trace w1) <> Ops.fetches (Exec.trace w) ->
  Json.truthy (Some v) = true ->
  Exec.clock (snd (Exec.checkLimit "api" w1)) <= Exec.clock w1 + Cache.ttl c0 ->
  exists w2,
    Exec.apiFetch (Some (JStr p)) o w1 = (Exec.Ok (Some v), w2)
    /\ Exec.network w2 = Exec.network w1
    /\ Ops.fetches (Exec.trace w2) = Ops.fetches (Exec.trace w1).
Proof. apply OpsFacts.apiFetch_repeat. Qed.

(** The same listing asked for twice in a row: one request in all. *)
Lemma apiFetch_repeated_get_is_cached_witness :
  let w := Scenario.keyed_world [Scenario.answer 200 "OK" "[1,2]"] in
  let w1 := snd (Exec.apiFetch (H0:=Scenario.parser) (Some (JStr "/v2/domains"))
                   Sample.no_options w) in
  exists w2,
    Exec.apiFetch (H0:=Scenario.parser) (Some (JStr "/v2/domains"))
      Sample.no_options w1
    = (Exec.Ok (Some (JArr [JNum 1; JNum 2])), w2)
    /\ Exec.network w2 = Exec.network w1
    /\ Ops.fetches (Exec.trace w2) = Ops.fetches (Exec.trace w1).
Proof.
  intros w w1.
  apply (apiFetch_repeated_get_is_cached (H0:=Scenario.parser) "/v2/domains"
           Sample.no_options w w1 Cache.new_default (JArr [JNum 1; JNum 2])).
  - split; [discriminate | vm_compute; discriminate].
  - reflexivity.
  - reflexivity.
  - vm_compute. reflexivity.
  - vm_compute. discriminate.
  - reflexivity.
  - vm_compute. discriminate.
Defined.

(** X4. A call whose method is not exactly ["GET"] (["POST"], and also
    ["get"] in lower case) neither reads nor writes the cache: whatever
    the arguments and the answers of the network, the cache is the same
    after the call as before. *)
Theorem apiFetch_other_methods_keep_cache {num : Type} `{JsNumber num}
    `{JsBuiltins num} (path : @Json.value num) (o : @Exec.Options num)
    (w : @Exec.World num) :
  ~ Exec.methodOf o "GET" ->
  Exec.cache (snd (Exec.apiFetch path o w)) = Exec.cache w.
Proof.
  intros Hng.
  destruct (OpsFacts.apiFetch_cases path o w)
    as [(message & fieldName & v & E) | (p & m & -> & Hp & Hm & Hvm)].
  - now rewrite E.
  - assert (Hne : String.eqb m "GET" = false).
    { destruct (String.eqb_spec m "GET") as [-> |]; [contradiction | reflexivity]. }
    rewrite (OpsFacts.apiFetch_valid p m o w Hp Hm Hvm).
    destruct (OpsFacts.beforeKeyCheck_effect p m o w)
      as (v & w2 & Eb & _ & _ & Hcache).
    rewrite Eb. rewrite Hne in Hcache.
    assert (Hv : v = None /\ Exec.cache w2 = Exec.cache w).
    { destruct (Exec.cache w); [exact Hcache |].
      destruct Hcache as [-> ->]. auto. }
    destruct Hv as [-> Hc2].
    destruct (Exec.nonempty (Exec.getApiKey w2)); [| exact Hc2].
    rewrite (OpsFacts.attempts_cache_other _ _ _ _ _ _ Hne). exact Hc2.
Qed.

(** A [POST] that succeeds, and a lower-case [get]. *)
Lemma apiFetch_other_methods_keep_cache_witness :
  let w := Scenario.keyed_world [Scenario.answer 200 "OK" "[1,2]"] in
  Exec.cache (snd (Exec.apiFetch (H0:=Scenario.parser) (Some (JStr "/v2/domains"))
                     (Exec.mkOptions (Some (JStr "get")) None None None) w))
  = Exec.cache w.
Proof.
  intros w.
  apply (apiFetch_other_methods_keep_cache (H0:=Scenario.parser)).
  unfold Exec.methodOf. cbn. discriminate.
Defined.

(** X5. The retry loop also goes round again after a failure that is
    thrown inside it: a rejected request (connection failure, timeout) and
    an answer whose status is neither 2xx nor 429 nor 500 or more (a 404,
    a 401). When the first [maxRetries + 1] attempts of a call all end this
    way, the call sends [maxRetries + 1] requests, waits
    [700 * (attempt + 1)] ms after each but the last, and throws the
    failure of the last attempt. *)
Theorem apiFetch_retries_caught_failures {num : Type} `{JsNumber num}
    `{JsBuiltins num} (p m : string) (o : @Exec.Options num)
    (w : @Exec.World num) (outs : list Exec.Outcome) (last : Exec.Outcome)
    (rest : list Exec.Outcome) :
  Exec.valid p -> Exec.methodOf o m -> Exec.valid m ->
  Exec.nonempty (Exec.getApiKey w) = true ->
  fst (Exec.beforeKeyCheck p m o w) = Exec.Ok None ->
  0 <= Exec.retriesOf o w ->
  Exec.network w = outs ++ last :: rest ->
  Z.of_nat (List.length outs) = Exec.retriesOf o w ->
  Forall Ops.caught_outcome outs ->
  Ops.caught_outcome last ->
  exists w',
    Exec.apiFetch (Some (JStr p)) o w = (Exec.Throw (Ops.errorOf last), w')
    /\ Exec.trace w'
       = Exec.trace (snd (Exec.beforeKeyCheck p m o w))
         ++ Ops.caught_rounds m p (Exec.opt_query o) (Exec.payloadOf m o)
              (List.length outs) 0
         ++ [Exec.EvFetch m p (Exec.opt_query o) (Exec.payloadOf m o)]
    /\ Exec.network w' = rest.
Proof.
  intros Hp Hm Hvm Hkey Hmiss Hpos Hnet Hlen Houts Hlast.
  rewrite (KeyFacts.apiFetch_with_key p m o w Hp Hm Hvm Hkey Hmiss).
  destruct (OpsFacts.beforeKeyCheck_effect p m o w)
    as (v & w2 & Eb & (N2 & _) & _).
  rewrite Eb. cbn [snd].
  replace (Z.to_nat (Exec.retriesOf o w + 1)) with (List.length outs + 1)%nat by lia.
  destruct (OpsFacts.attempts_caught_rounds m p (Exec.opt_query o)
              (Exec.payloadOf m o) (Exec.retriesOf o w) (List.length outs) 1 0 w2
              outs (last :: rest) eq_refl Houts)
    as (w3 & E3 & T3 & N3).
  { congruence. }
  { lia. }
  rewrite E3. replace (0 + Z.of_nat (List.length outs)) with (Exec.retriesOf o w) by lia.
  destruct (OpsFacts.attempts_caught_last m p (Exec.opt_query o)
              (Exec.payloadOf m o) (Exec.retriesOf o w) 0 w3 last rest N3 Hlast)
    as (w4 & E4 & T4 & N4).
  exists w4. split; [exact E4 |]. split; [| exact N4].
  rewrite T4, T3, <- app_assoc. reflexivity.
Qed.

(** A path that does not exist, asked for with one retry: two requests,
    700 ms between them, and the [ApiError] of the second 404. *)
Lemma apiFetch_retries_caught_failures_witness :
  let w := Scenario.keyed_world
             [Scenario.answer 404 "Not Found" ""; Scenario.answer 404 "Not Found" ""] in
  let o := Exec.mkOptions None None None (Some 1) in
  exists w',
    Exec.apiFetch (H0:=Scenario.parser) (Some (JStr "/v2/nothing")) o w
    = (Exec.Throw (Exec.ApiError "HTTP 404: Not Found" 404 JNull), w')
    /\ Exec.trace w'
       = [Exec.EvFetch "GET" "/v2/nothing" None None;
          Exec.EvSleep (RateLimiter.Finite 700);
          Exec.EvFetch "GET" "/v2/nothing" None None]
    /\ Exec.network w' = [].
Proof.
  intros w o.
  apply (apiFetch_retries_caught_failures (H0:=Scenario.parser) "/v2/nothing" "GET"
           o w [Scenario.answer 404 "Not Found" ""]
           (Scenario.answer 404 "Not Found" "") []).
  - split; [discriminate | vm_compute; discriminate].
  - reflexivity.
  - split; [discriminate | vm_compute; discriminate].
  - reflexivity.
  - reflexivity.
  - vm_compute. discriminate.
  - reflexivity.
  - reflexivity.
  - repeat constructor.
  - repeat constructor.
Defined.

(** X6. When [checkDomainAvailabilityBatch] returns, its results are the
    domains it was given, one entry each and in the same order
    (repetitions included), and it has sent at most [maxRetries + 1]
    requests per domain. *)
Theorem checkDomainAvailabilityBatch_in_order {num : Type} `{JsNumber num}
    `{JsBuiltins num} (domains : list string) (years : num)
    (w w' : @Exec.World num) (results : list (string * @Json.value num)) :
  Ops.checkDomainAvailabilityBatch domains years w = (Exec.Ok results, w') ->
  map fst results = domains
  /\ (Ops.fetches (Exec.trace w')
      <= Ops.fetches (Exec.trace w)
         + List.length domains * Z.to_nat (Exec.CONFIG_maxRetries w + 1))%nat.
Proof.
  revert w w' results.
  induction domains as [| d domains IH]; intros w w' results E.
  - inversion E; subst. split; [reflexivity | cbn; lia].
  - cbn [Ops.checkDomainAvailabilityBatch] in E.
    unfold Exec.bind at 1 in E.
    pose proof (OpsFacts.apiFetch_fetches
                  (Some (JStr (Exec.stripApiPrefix "/v2/domains/available")))
                  (Exec.mkOptions (Some (JStr (Exec.toUpperCase "POST"))) None
                     (Some (JObj [("domainName", JStr d); ("years", JNum years)]))
                     None) w) as Hb.
    pose proof (OpsFacts.apiFetch_env
                  (Some (JStr (Exec.stripApiPrefix "/v2/domains/available")))
                  (Exec.mkOptions (Some (JStr (Exec.toUpperCase "POST"))) None
                     (Some (JObj [("domainName", JStr d); ("years", JNum years)]))
                     None) w) as Hc.
    unfold Exec.checkDomainAvailabilitySingle, Exec.invokeSlug in E.
    cbn [Str.startsWith String.prefix] in E.
    destruct (Exec.apiFetch _ _ w) as [[res | e] w1]; [| discriminate E].
    cbn [snd] in Hb, Hc. apply (f_equal snd) in Hc. cbn [Ops.env snd] in Hc.
    unfold Exec.bind at 1, Exec.sleep, Exec.modify in E.
    unfold Exec.bind at 1 in E.
    destruct (Ops.checkDomainAvailabilityBatch domains years _)
      as [[out | e] w2] eqn:Eout; [| discriminate E].
    unfold Exec.ret in E. inversion E; subst.
    apply IH in Eout. destruct Eout as [Hmap Hcount].
    cbn [Exec.trace Exec.set_clock Exec.log_event Exec.CONFIG_maxRetries] in Hcount.
    rewrite OpsFacts.fetches_app in Hcount. cbn [map fst]. split; [now rewrite Hmap |].
    unfold Exec.retriesOf in Hb. cbn [Exec.opt_maxRetries] in Hb.
    rewrite Hc in Hcount. cbn [List.length]. cbn in Hcount. lia.
Qed.

(** Two domains checked against a service that answers each request. *)
Lemma checkDomainAvailabilityBatch_in_order_witness :
  let w := Scenario.keyed_world
             [Scenario.answer 200 "OK" "{}"; Scenario.answer 200 "OK" "{}"] in
  let run := Ops.checkDomainAvailabilityBatch (H0:=Scenario.parser)
               ["b.com"; "a.com"] 1 w in
  map fst (match fst run with Exec.Ok results => results | Exec.Throw _ => [] end)
  = ["b.com"; "a.com"]
  /\ (Ops.fetches (Exec.trace (snd run))
      <= Ops.fetches (Exec.trace w)
         + List.length ["b.com"; "a.com"]
           * Z.to_nat (Exec.CONFIG_maxRetries w + 1))%nat.
Proof.
  intros w run.
  apply (checkDomainAvailabilityBatch_in_order (H0:=Scenario.parser)
           ["b.com"; "a.com"] 1 w).
  vm_compute. reflexivity.
Defined.

(* ===================================================================== *)
(** * Further properties of the rate limiter *)

(** X7. When [checkLimit] suspends its caller, the limit being at least
    one request and no recorded timestamp lying in the future, the pause
    is a finite number of milliseconds, more than 0 and at most
    [windowMs]. *)
Theorem checkLimit_wait_bounds (key : string) (now : Z) (rl : RateLimiter.t)
    (d : RateLimiter.ms) :
  1 <= RateLimiter.maxRequests rl ->
  (forall t, In t (RateLimiter.current key rl) -> t <= now) ->
  fst (RateLimiter.checkLimit key now rl) = Some d ->
  exists z, d = RateLimiter.Finite z /\ 0 < z <= RateLimiter.windowMs rl.
Proof.
  intros Hmax Hpast E.
  rewrite RateLimiterFacts.checkLimit_unfold in E. cbv zeta in E. cbn [fst] in E.
  set (rec := RateLimiter.recent (now - RateLimiter.windowMs rl)
                (RateLimiter.current key rl)) in *.
  destruct (Z.geb_spec (Z.of_nat (List.length rec)) (RateLimiter.maxRequests rl))
    as [Hfull |]; [| discriminate E].
  assert (Hne : rec <> []).
  { intros E0. rewrite E0 in Hfull. cbn in Hfull. lia. }
  destruct (RateLimiterFacts.Math_min_least rec Hne) as (o & Emin & Hin & _).
  rewrite Emin in E. cbn in E. inversion E; subst d.
  eexists. split; [reflexivity |].
  apply filter_In in Hin. destruct Hin as [Hin Hgt].
  apply Hpast in Hin. apply Z.gtb_lt in Hgt. lia.
Qed.

(** The third check within a window of 1000 ms that admits two. *)
Lemma checkLimit_wait_bounds_witness :
  let rl := snd (RateLimiter.checks "api" [0; 400] (RateLimiter.new 2 1000)) in
  exists z,
    RateLimiter.Finite 300 = RateLimiter.Finite z
    /\ 0 < z <= RateLimiter.windowMs rl.
Proof.
  intros rl.
  apply (checkLimit_wait_bounds "api" 700 rl (RateLimiter.Finite 300)).
  - vm_compute. discriminate.
  - intros t Hin. vm_compute in Hin.
    destruct Hin as [<- | [<- | []]]; lia.
  - reflexivity.
Defined.

(** X8. The limiter keeps its keys apart: a check of one key changes
    neither the timestamps on record for another key nor the outcome of
    that key's next check. *)
Theorem checkLimit_keys_independent (key other : string) (now later : Z)
    (rl : RateLimiter.t) :
  other <> key ->
  RateLimiter.current other (snd (RateLimiter.checkLimit key now rl))
  = RateLimiter.current other rl
  /\ fst (RateLimiter.checkLimit other later
            (snd (RateLimiter.checkLimit key now rl)))
     = fst (RateLimiter.checkLimit other later rl).
Proof.
  intros Hne.
  assert (Hcur : RateLimiter.current other (snd (RateLimiter.checkLimit key now rl))
                 = RateLimiter.current other rl).
  { rewrite RateLimiterFacts.checkLimit_unfold. cbv zeta. cbn [snd].
    unfold RateLimiter.current. cbn [RateLimiter.requests].
    rewrite JsMapFacts.get_set_other by congruence.
    destruct (JsMap.has key (RateLimiter.requests rl)); [reflexivity |].
    now rewrite JsMapFacts.get_set_other by congruence. }
  split; [exact Hcur |].
  destruct (RateLimiterFacts.current_checkLimit key now rl) as (_ & Hm & Hw).
  rewrite !RateLimiterFacts.checkLimit_unfold with (key := other).
  cbv zeta. cbn [fst]. rewrite Hcur, Hm, Hw. reflexivity.
Qed.

(** A key at its limit does not hold up another key. *)
Lemma checkLimit_keys_independent_witness :
  let rl := snd (RateLimiter.checks "api" [0; 1] (RateLimiter.new 2 1000)) in
  RateLimiter.current "docs" (snd (RateLimiter.checkLimit "api" 2 rl))
  = RateLimiter.current "docs" rl
  /\ fst (RateLimiter.checkLimit "docs" 3 (snd (RateLimiter.checkLimit "api" 2 rl)))
     = fst (RateLimiter.checkLimit "docs" 3 rl).
Proof.
  intros rl. apply (checkLimit_keys_independent "api" "docs" 2 3 rl).
  discriminate.
Defined.

(* ===================================================================== *)
(** * Further properties of the planner *)

Module PlannerFacts.

Import Planner PlanShape.

Lemma lower_idempotent (c : ascii) : Str.lower (Str.lower c) = Str.lower c.
Proof. destruct c as [[] [] [] [] [] [] [] []]; reflexivity. Qed.

Lemma toLowerCase_idempotent (s : string) :
  Str.toLowerCase (Str.toLowerCase s) = Str.toLowerCase s.
Proof.
  induction s as [| c s IH]; [reflexivity |].
  cbn [Str.toLowerCase]. now rewrite lower_idempotent, IH.
Qed.

Lemma existsb_eqb_In (x : string) (l : list string) :
  existsb (String.eqb x) l = true <-> In x l.
Proof.
  rewrite existsb_exists. split.
  - intros (y & Hin & E). apply String.eqb_eq in E. now subst.
  - intros Hin. exists x. split; [exact Hin | apply String.eqb_refl].
Qed.

(** [unique] keeps one copy of every element that was not seen before,
    and nothing else. *)
Lemma unique_spec (l : list string) :
  forall seen,
    NoDup (unique seen l)
    /\ forall x, In x (unique seen l) <-> In x l /\ ~ In x seen.
Proof.
  induction l as [| y l IH]; intros seen.
  - split; [constructor |]. intros x. cbn. tauto.
  - cbn [unique]. destruct (existsb (String.eqb y) seen) eqn:E.
    + apply existsb_eqb_In in E. destruct (IH seen) as [Hnd Hin].
      split; [exact Hnd |]. intros x. rewrite Hin. cbn [In].
      split; [tauto |]. intros [[<- | Hx] Hns]; [contradiction | tauto].
    + assert (Hy : ~ In y seen).
      { intros Hin. apply existsb_eqb_In in Hin. congruence. }
      destruct (IH (y :: seen)) as [Hnd Hin]. split.
      * constructor; [| exact Hnd]. rewrite Hin. cbn [In]. tauto.
      * intros x. cbn [In]. rewrite Hin. cbn [In].
        destruct (string_dec y x) as [-> |]; tauto.
Qed.

Section WithNumbers.

Context {num : Type} `{JsNumber num}.

Lemma stepsFor_ok (matched : option Intent) (q : string) (options : Hints) :
  forallb step_ok (stepsFor matched q options) = true.
Proof.
  destruct matched as [[] |]; try reflexivity.
  - cbn [stepsFor forallb]. apply andb_true_iff. split; [reflexivity |].
    induction (simpleParseDomains q) as [| d l IH]; [reflexivity |].
    cbn [map forallb]. now rewrite IH.
  - cbn [stepsFor]. destruct (Regex.exec export_domain_re q); reflexivity.
Qed.

Lemma stepsFor_nonempty (matched : option Intent) (q : string) (options : Hints) :
  stepsFor matched q options <> [].
Proof.
  destruct matched as [[] |]; try discriminate.
  cbn [stepsFor]. destruct (Regex.exec export_domain_re q); discriminate.
Qed.

End WithNumbers.

End PlannerFacts.

(** X9. Whatever the instruction and the credentials given, every step of
    a rule-based plan is either a request with a description to one of
    eight fixed endpoints (a [GET] or a [POST] under [/v2/]), or a note of
    the kind [info], [compute] or [decision]. No plan is returned only
    when the instruction cannot be converted to a string. *)
Theorem planFromRules_steps_well_formed {num : Type} `{JsNumber num}
    (nl : @Json.value num) (options : @Planner.Hints num) :
  match Planner.planFromRules nl options with
  | Some plan => forallb PlanShape.step_ok (Planner.steps plan) = true
  | None => Json.truthy nl = true /\ Json.toString_value nl = None
  end.
Proof.
  unfold Planner.planFromRules, Planner.normalize.
  destruct (Json.truthy nl).
  - destruct (Json.toString_value nl); cbn [option_map];
      [apply PlannerFacts.stepsFor_ok | now split].
  - apply PlannerFacts.stepsFor_ok.
Qed.

(** X10. [simpleParseDomains] never returns a domain twice, and returns
    every domain in lower case: two spellings of one domain that differ
    in case only are one result. *)
Theorem simpleParseDomains_distinct_lower_case (text : string) :
  NoDup (Planner.simpleParseDomains text)
  /\ Forall (fun d => Str.toLowerCase d = d) (Planner.simpleParseDomains text).
Proof.
  unfold Planner.simpleParseDomains.
  destruct (PlannerFacts.unique_spec
              (map (fun f => Str.toLowerCase
                                (match Regex.group 1 (Regex.captured f) with
                                 | Some s => s
                                 | None => ""
                                 end))
                   (Regex.execAll Planner.domain_re (S (String.length text))
                      (Regex.start text))) [])
    as [Hnd Hin].
  split; [exact Hnd |].
  apply Forall_forall. intros d Hd. apply Hin in Hd. destruct Hd as [Hd _].
  apply in_map_iff in Hd. destruct Hd as (f & <- & _).
  apply PlannerFacts.toLowerCase_idempotent.
Qed.

(** X11. Whenever [plan_and_execute] answers a dry run, the plan it
    reports has at least one step and its strategy is ["rules"] or
    ["llm"], and ["rules"] when the LLM planner is off: a plan of the LLM
    with no steps and the plan that marks the LLM's failure are never
    passed on. The call is refused exactly when the instruction is not a
    non-empty string. *)
Theorem plan_and_execute_dry_run_shape {num : Type} `{JsNumber num}
    `{JsBuiltins num} (llmPlanner : bool) (reply : @Planner.LlmReply num)
    (instruction : @Json.value num) (options : @Planner.Hints num) :
  match Planner.plan_and_execute llmPlanner reply instruction options with
  | Planner.Returned r =>
      Planner.mode r = "dry-run"
      /\ Planner.dr_steps r <> []
      /\ (Planner.dr_strategy r = "rules" \/ Planner.dr_strategy r = "llm")
      /\ (llmPlanner = false -> Planner.dr_strategy r = "rules")
      /\ exists c s, instruction = Some (JStr (String c s))
  | Planner.Thrown message =>
      message = "'instruction' is required"
      /\ forall c s, instruction <> Some (JStr (String c s))
  end.
Proof.
  assert (Hsel : forall i, exists plan,
    Planner.selectPlan llmPlanner reply i options = Some plan
    /\ Planner.steps plan <> []
    /\ (Planner.strategy plan = "rules" \/ Planner.strategy plan = "llm")
    /\ (llmPlanner = false -> Planner.strategy plan = "rules")).
  { intros i. unfold Planner.selectPlan.
    rewrite PlanFacts.planFromRules_string.
    eexists. split; [reflexivity |].
    set (rulePlan := Planner.mkPlan "rules" _).
    assert (Hrules : Planner.steps rulePlan <> []).
    { apply PlannerFacts.stepsFor_nonempty. }
    destruct llmPlanner; [| now auto].
    cbv zeta.
    destruct (Z.ltb_spec 0 (Z.of_nat (List.length
                (Planner.steps (Planner.planFromLLM reply))))) as [Hlen |];
      [| cbn [andb]; split; [exact Hrules | split; [now left | discriminate]]].
    cbn [andb].
    destruct (String.eqb_spec (Planner.strategy (Planner.planFromLLM reply))
                "llm-failed") as [Heq | Hne]; cbn [negb];
      [split; [exact Hrules | split; [now left | discriminate]] |].
    split; [| split; [| discriminate]].
    - intros E. rewrite E in Hlen. cbn in Hlen. lia.
    - right. revert Hne. unfold Planner.planFromLLM.
      destruct reply as [| | data]; try (intros Hne; now contradiction Hne).
      destruct (Planner.replyText data) as [text |];
        [| intros Hne; now contradiction Hne].
      destruct (JSON_parse text) as [j |];
        [| intros Hne; now contradiction Hne].
      destruct j; try (intros Hne; now contradiction Hne);
        match goal with
        | |- context [Json.prop "steps" ?v] =>
            destruct (Json.prop "steps" v) as [[] |];
              try (intros Hne; now contradiction Hne); reflexivity
        end. }
  unfold Planner.plan_and_execute.
  destruct instruction as [[| | | [| c s] | |] |];
    try (split; [reflexivity | intros c' s' E; discriminate E]).
  destruct (Hsel (String c s)) as (plan & -> & Hs & Hst & Hoff).
  cbn [Planner.mode Planner.dr_steps Planner.dr_strategy].
  repeat split; try assumption. now exists c, s.
Qed.

(* ===================================================================== *)
(** * The dynamic tools *)

Module ToolsFacts.

Import Tools.

Lemma get_assign (name v key : string) (o : Obj) :
  JsMap.get key (assign name v o)
  = if String.eqb key name && negb (String.eqb name "__proto__")
    then Some v else JsMap.get key o.
Proof.
  unfold assign. destruct (String.eqb_spec name "__proto__") as [-> | Hp].
  - now rewrite andb_false_r.
  - rewrite andb_true_r. destruct (String.eqb_spec key name) as [-> | Hk].
    + apply JsMapFacts.get_set_same.
    + now apply JsMapFacts.get_set_other.
Qed.

(** The map after the loop has run over [l], started on [acc]. *)
Lemma get_fold (key : string) (l : list Endpoint) :
  forall acc : Obj,
    JsMap.get key
      (fold_left
         (fun map e =>
            let name := toolName (slug e) in
            if negb (reserved name) && negb (hasOwnProperty map name)
            then assign name (slug e) map
            else map) l acc)
    = match JsMap.get key acc with
      | Some s => Some s
      | None =>
          if reserved key || String.eqb key "__proto__" then None
          else option_map slug (firstNamed key l)
      end.
Proof.
  induction l as [| e l IH]; intros acc.
  - cbn [fold_left]. unfold firstNamed. cbn [find option_map].
    destruct (JsMap.get key acc); [reflexivity |].
    now destruct (reserved key || String.eqb key "__proto__").
  - cbn [fold_left]. rewrite IH. cbv zeta. unfold firstNamed. cbn [find].
    unfold hasOwnProperty, JsMap.has.
    destruct (String.eqb_spec (toolName (slug e)) key) as [E | Hne].
    + rewrite E.
      destruct (JsMap.get key acc) as [s |] eqn:Eacc; cbn [negb andb].
      * rewrite andb_false_r, Eacc. reflexivity.
      * rewrite andb_true_r. destruct (reserved key) eqn:Er; cbn [negb orb].
        -- now rewrite Eacc.
        -- rewrite get_assign, String.eqb_refl. cbn [andb].
           destruct (String.eqb key "__proto__"); cbn [negb]; [| reflexivity].
           now rewrite Eacc.
    + destruct (negb (reserved (toolName (slug e)))
                && negb match JsMap.get (toolName (slug e)) acc with
                        | Some _ => true
                        | None => false
                        end); [| reflexivity].
      rewrite get_assign.
      destruct (String.eqb_spec key (toolName (slug e))) as [E |];
        [now symmetry in E |]. reflexivity.
Qed.

(** Every reserved name has a branch of its own. *)
Lemma reserved_builtin (name : string) :
  reserved name = true -> builtin name = true.
Proof.
  unfold reserved, builtin. intros Hr.
  apply existsb_exists in Hr. destruct Hr as (n & Hin & E).
  apply String.eqb_eq in E. subst n.
  apply existsb_exists. exists name. split; [| apply String.eqb_refl].
  unfold RESERVED_NAMES in Hin. unfold builtinNames.
  repeat (destruct Hin as [<- | Hin]; [cbn; tauto |]). destruct Hin.
Qed.

Lemma firstNamed_In (e : Endpoint) (ENDPOINTS : list Endpoint) :
  In e ENDPOINTS -> exists e', firstNamed (toolName (slug e)) ENDPOINTS = Some e'.
Proof.
  unfold firstNamed. induction ENDPOINTS as [| x l IH]; [intros [] |].
  cbn [find]. intros [-> | Hin].
  - rewrite String.eqb_refl. now eexists.
  - destruct (String.eqb (toolName (slug x)) (toolName (slug e)));
      [now eexists | now apply IH].
Qed.

End ToolsFacts.

(** X12. A call of [tools/invoke] whose tool name is one of the 29 names
    that [handleToolsInvoke] answers itself never reaches a dynamic tool.
    Every other name is dispatched to the slug of the first endpoint of
    the manifest whose slug, with every hyphen turned into an underscore,
    is that name, so that later endpoints of the same name are
    unreachable; the name [__proto__] and the names of no endpoint are
    unknown tools. The reserved names are 14 of the 29: an endpoint named
    like one of the other 15 is entered in [DYNAMIC_TOOL_MAP] and yet
    can never be invoked. *)
Theorem tools_invoke_dispatch (ENDPOINTS : list Tools.Endpoint) :
  (forall name,
      Tools.dispatch (Tools.buildDynamicToolMap ENDPOINTS) name
      = if Tools.builtin name then Tools.Builtin name
        else if String.eqb name "__proto__" then Tools.UnknownTool
        else match Tools.firstNamed name ENDPOINTS with
             | Some e => Tools.Dynamic (Tools.slug e)
             | None => Tools.UnknownTool
             end)
  /\ forallb Tools.builtin Tools.RESERVED_NAMES = true
  /\ filter (fun name => negb (Tools.reserved name)) Tools.builtinNames
     = [ "get_metrics"; "clear_cache"; "health_check"; "bulk_update_mailboxes";
         "search_mailboxes"; "get_server_info"; "get_export_info";
         "get_export_scenario"; "validate_export_request"; "export_guidance";
         "get_api_info"; "search_api_endpoints"; "get_api_scenarios";
         "get_api_best_practices"; "generate_api_examples" ]
  /\ (forall e,
        In e ENDPOINTS ->
        Tools.builtin (Tools.toolName (Tools.slug e)) = true ->
        Tools.reserved (Tools.toolName (Tools.slug e)) = false ->
        Tools.hasOwnProperty (Tools.buildDynamicToolMap ENDPOINTS)
          (Tools.toolName (Tools.slug e)) = true
        /\ Tools.dispatch (Tools.buildDynamicToolMap ENDPOINTS)
             (Tools.toolName (Tools.slug e))
           = Tools.Builtin (Tools.toolName (Tools.slug e))).
Proof.
  assert (Hget : forall name,
    JsMap.get name (Tools.buildDynamicToolMap ENDPOINTS)
    = if Tools.reserved name || String.eqb name "__proto__" then None
      else option_map Tools.slug (Tools.firstNamed name ENDPOINTS)).
  { intros name. unfold Tools.buildDynamicToolMap.
    now rewrite ToolsFacts.get_fold. }
  split; [| split; [reflexivity | split; [reflexivity |]]].
  - intros name. unfold Tools.dispatch.
    destruct (Tools.builtin name) eqn:Eb; [reflexivity |].
    assert (Er : Tools.reserved name = false).
    { destruct (Tools.reserved name) eqn:Er; [| reflexivity].
      rewrite <- Eb. symmetry. apply ToolsFacts.reserved_builtin, Er. }
    unfold Tools.dynamicSlug, Tools.hasOwnProperty, JsMap.has.
    rewrite Hget, Er. cbn [orb].
    destruct (String.eqb name "__proto__"); [reflexivity |].
    now destruct (Tools.firstNamed name ENDPOINTS).
  - intros e Hin Hb Hr. split.
    + unfold Tools.hasOwnProperty, JsMap.has. rewrite Hget, Hr. cbn [orb].
      destruct (String.eqb_spec (Tools.toolName (Tools.slug e)) "__proto__")
        as [E | _]; [rewrite E in Hb; discriminate Hb |].
      destruct (ToolsFacts.firstNamed_In e ENDPOINTS Hin) as [e' ->].
      reflexivity.
    + unfold Tools.dispatch. now rewrite Hb.
Qed.

(** A manifest with an endpoint [health-check]: its tool is in the map,
    and the call goes to the built-in health check. *)
Lemma tools_invoke_dispatch_witness :
  let ENDPOINTS :=
    [ Tools.mkEndpoint "list-mailboxes-1" "" "";
      Tools.mkEndpoint "health-check" "" "" ] in
  Tools.hasOwnProperty (Tools.buildDynamicToolMap ENDPOINTS) "health_check" = true
  /\ Tools.dispatch (Tools.buildDynamicToolMap ENDPOINTS) "health_check"
     = Tools.Builtin "health_check".
Proof.
  intros ENDPOINTS.
  destruct (tools_invoke_dispatch ENDPOINTS) as (_ & _ & _ & P).
  apply (P (Tools.mkEndpoint "health-check" "" ""));
    [right; left; reflexivity | reflexivity | reflexivity].
Defined.

(* ===================================================================== *)
(** * The logger *)

(** X13. A logger never writes a debug entry, whatever level it was
    created with: the level ["DEBUG"] has the number 0, which the
    constructor replaces by the number of ["INFO"]. A logger created with
    ["DEBUG"], with no level or with a name that is not a level writes
    exactly the [info], [warn] and [error] entries; and every logger
    created with a name in upper case, as the server does, writes the
    [error] entries. *)
Theorem logger_never_writes_debug (level : option string) :
  Logger.debug (Logger.new level) = false
  /\ (Logger.LOG_LEVELS (match level with Some l => l | None => "INFO" end)
        = Logger.Missing
      \/ level = Some "DEBUG" \/ level = None ->
      Logger.new level = Logger.new (Some "INFO")
      /\ Logger.info (Logger.new level) = true
      /\ Logger.warn (Logger.new level) = true
      /\ Logger.error (Logger.new level) = true)
  /\ (forall l, level = Some l -> Logger.upper_case l ->
      Logger.error (Logger.new level) = true).
Proof.
  split; [| split].
  - assert (Hpos : forall n, Logger.new level = Logger.Threshold n -> 1 <= n).
    { intros n. unfold Logger.new, Logger.LOG_LEVELS.
      repeat match goal with
             | |- context [if String.eqb ?l ?s then _ else _] =>
                 destruct (String.eqb l s);
                   [cbn; intros E; inversion E; lia |]
             end.
      destruct (existsb _ _); cbn; intros E; inversion E; lia. }
    destruct (Logger.new level) as [n |] eqn:E; [| reflexivity].
    specialize (Hpos n eq_refl). unfold Logger.debug, Logger.log. cbn.
    destruct (Z.geb_spec 0 n); [lia | reflexivity].
  - intros [E | [-> | ->]]; try (repeat split; reflexivity).
    unfold Logger.new. rewrite E. repeat split; reflexivity.
  - intros l -> Hup. unfold Logger.new, Logger.LOG_LEVELS.
    repeat match goal with
           | |- context [if String.eqb l ?s then _ else _] =>
               destruct (String.eqb l s); [reflexivity |]
           end.
    destruct (existsb (String.eqb l) Logger.Object_prototype) eqn:E;
      [| reflexivity].
    exfalso. apply existsb_exists in E. destruct E as (x & Hin & E).
    apply String.eqb_eq in E. subst x.
    assert (Hlow : exists c, In c (list_ascii_of_string l)
                             /\ Str.between 97 122 c = true).
    { apply existsb_exists. cbn [In Logger.Object_prototype] in Hin.
      repeat (destruct Hin as [<- | Hin]; [reflexivity |]).
      contradiction. }
    destruct Hlow as (c & Hc & Hl). apply Hup in Hc. congruence.
Qed.

(** The server started with [ZAPMAIL_LOG_LEVEL=debug]. *)
Lemma logger_never_writes_debug_witness :
  Logger.debug (Logger.new (Some "DEBUG")) = false
  /\ Logger.new (Some "DEBUG") = Logger.new (Some "INFO")
  /\ Logger.error (Logger.new (Some "DEBUG")) = true.
Proof.
  destruct (logger_never_writes_debug (Some "DEBUG")) as (Hd & Hsame & Herr).
  split; [exact Hd |]. split.
  - apply Hsame. right. left. reflexivity.
  - apply (Herr "DEBUG" eq_refl). intros c Hin. cbn in Hin.
    repeat (destruct Hin as [<- | Hin]; [reflexivity |]). contradiction.
Defined.

(* ===================================================================== *)
(** * The generator of domain names *)

Module GenerateFacts.
Import Generate.

Lemma mem_In (x : string) (l : list string) : mem x l = true <-> In x l.
Proof.
  unfold mem. rewrite existsb_exists. split.
  - intros (y & Hin & E). apply String.eqb_eq in E. now subst.
  - intros Hin. exists x. split; [exact Hin | apply String.eqb_refl].
Qed.

Lemma mem_false (x : string) (l : list string) : mem x l = false <-> ~ In x l.
Proof.
  rewrite <- mem_In. destruct (mem x l); split; congruence.
Qed.

Lemma fresh_In (excl l : list string) :
  forall seen x,
    In x (fresh excl seen l) <-> In x l /\ ~ In x seen /\ ~ In x excl.
Proof.
  induction l as [| y l IH]; intros seen x.
  - cbn. tauto.
  - cbn [fresh]. destruct (mem y seen) eqn:Es; cbn [negb andb].
    + apply mem_In in Es. rewrite IH. cbn [In].
      split; [tauto |]. intros [[<- | Hx] Hn]; tauto.
    + apply mem_false in Es. destruct (mem y excl) eqn:Ee; cbn [negb].
      * apply mem_In in Ee. rewrite IH. cbn [In].
        split; [tauto |]. intros [[<- | Hx] Hn]; tauto.
      * apply mem_false in Ee. cbn [In]. rewrite IH, in_app_iff. cbn [In].
        destruct (string_dec y x) as [-> |]; tauto.
Qed.

Lemma fresh_NoDup (excl l : list string) :
  forall seen, NoDup (fresh excl seen l).
Proof.
  induction l as [| y l IH]; intros seen; [constructor |].
  cbn [fresh]. destruct (negb (mem y seen) && negb (mem y excl)); [| apply IH].
  constructor; [| apply IH]. rewrite fresh_In, in_app_iff. cbn [In]. tauto.
Qed.

(** Nothing is fresh once every member is seen or excluded. *)
Lemma fresh_nil (excl l seen : list string) :
  (forall x, In x l -> In x seen \/ In x excl) -> fresh excl seen l = [].
Proof.
  intros Hall. destruct (fresh excl seen l) as [| x r] eqn:E; [reflexivity |].
  assert (Hin : In x (fresh excl seen l)) by (rewrite E; now left).
  apply fresh_In in Hin. destruct Hin as (Hl & Hs & He).
  destruct (Hall x Hl); contradiction.
Qed.

Section Loops.

Variables (excl : list string) (desired : Z).

Lemma forTlds_scan (kw sfx : string) (ts : list string) :
  forall st,
    forTlds excl desired kw sfx ts st
    = scan excl desired (map (fun t => (kw ++ sfx ++ t)%string) ts) st.
Proof.
  induction ts as [| t ts IH]; intros st; [reflexivity |].
  cbn [forTlds map scan]. cbv zeta. now rewrite !IH.
Qed.

Lemma scan_app (a b : list string) :
  forall st,
    len st < desired ->
    scan excl desired (a ++ b) st
    = if len (scan excl desired a st) >=? desired then scan excl desired a st
      else scan excl desired b (scan excl desired a st).
Proof.
  induction a as [| x a IH]; intros st Hlt.
  - cbn [app scan]. destruct (Z.geb_spec (len st) desired); [lia | reflexivity].
  - cbn [app scan]. cbv zeta.
    destruct (negb (mem x (uniq st)) && negb (mem x excl)); [| now apply IH].
    destruct (Z.geb_spec (len (mkState (uniq st ++ [x]) (out st ++ [x]))) desired)
      as [Hge | Hlt'].
    + destruct (Z.geb_spec (len (mkState (uniq st ++ [x]) (out st ++ [x]))) desired);
        [reflexivity | lia].
    + now apply IH.
Qed.

Lemma forSuffixes_scan (ts : list string) (kw : string) (sfxs : list string) :
  forall st,
    len st < desired ->
    forSuffixes excl desired ts kw sfxs st
    = scan excl desired (flat_map (fun sfx => map (fun t => (kw ++ sfx ++ t)%string) ts) sfxs) st.
Proof.
  induction sfxs as [| sfx sfxs IH]; intros st Hlt; [reflexivity |].
  cbn [forSuffixes flat_map]. cbv zeta. rewrite scan_app by exact Hlt.
  rewrite forTlds_scan.
  destruct (Z.geb_spec (len (scan excl desired (map (fun t => (kw ++ sfx ++ t)%string) ts) st))
              desired); [reflexivity |].
  now apply IH.
Qed.

Lemma forKeywords_scan (ts kws : list string) :
  forall st,
    len st < desired ->
    forKeywords excl desired ts kws st
    = scan excl desired (flat_map
              (fun kw =>
                 flat_map (fun sfx => map (fun t => (kw ++ sfx ++ t)%string) ts)
                   candidates) kws) st.
Proof.
  induction kws as [| kw kws IH]; intros st Hlt; [reflexivity |].
  cbn [forKeywords flat_map]. cbv zeta. rewrite scan_app by exact Hlt.
  rewrite forSuffixes_scan by exact Hlt.
  destruct (Z.geb_spec
              (len (scan excl desired (flat_map
                            (fun sfx => map (fun t => (kw ++ sfx ++ t)%string) ts)
                            candidates) st)) desired); [reflexivity |].
  now apply IH.
Qed.

(** One pass adds the fresh names, up to the number still wanted. *)
Lemma scan_spec (doms : list string) :
  forall st,
    uniq st = out st ->
    len st < desired ->
    scan excl desired doms st
    = mkState
        (out st ++ firstn (Z.to_nat (desired - len st)) (fresh excl (out st) doms))
        (out st ++ firstn (Z.to_nat (desired - len st)) (fresh excl (out st) doms)).
Proof.
  induction doms as [| x doms IH]; intros [u o] Hu Hlt; cbn [uniq out] in *; subst u.
  - cbn [scan fresh]. rewrite firstn_nil, app_nil_r. reflexivity.
  - cbn [scan fresh uniq out].
    destruct (negb (mem x o) && negb (mem x excl)); [| now apply IH].
    cbv zeta. unfold len in *. cbn [out] in *.
    assert (Hk : Z.to_nat (desired - Z.of_nat (List.length o))
                 = S (Z.to_nat (desired - Z.of_nat (List.length (o ++ [x]))))).
    { rewrite length_app. cbn [List.length]. lia. }
    destruct (Z.geb_spec (Z.of_nat (List.length (o ++ [x]))) desired) as [Hge | Hlt'].
    + rewrite Hk. replace (Z.to_nat (desired - Z.of_nat (List.length (o ++ [x]))))
        with 0%nat by lia.
      cbn [firstn]. reflexivity.
    + rewrite (IH (mkState (o ++ [x]) (o ++ [x])) eq_refl) by exact Hlt'.
      cbn [out]. rewrite Hk. cbn [firstn]. rewrite <- !app_assoc. reflexivity.
Qed.

End Loops.


Lemma pool_spec (keywords : list string) (tlds : option (list string))
    (excludeDomains : option (list string)) :
  NoDup (pool keywords tlds excludeDomains)
  /\ forall d,
       In d (pool keywords tlds excludeDomains)
       <-> In d (enumeration keywords tlds) /\ ~ In d (excluded excludeDomains).
Proof.
  split; [apply fresh_NoDup |]. intros d. unfold pool. rewrite fresh_In.
  cbn [In]. tauto.
Qed.

(** The first pass of the loop. *)
Lemma first_pass (keywords : list string) (tlds : option (list string))
    (excludeDomains : option (list string)) (desired : Z) :
  0 < desired ->
  forKeywords (excluded excludeDomains) desired (suff tlds) (base keywords)
    (mkState [] [])
  = mkState (firstn (Z.to_nat desired) (pool keywords tlds excludeDomains))
      (firstn (Z.to_nat desired) (pool keywords tlds excludeDomains)).
Proof.
  intros Hpos. rewrite forKeywords_scan by (cbn; lia).
  rewrite scan_spec by (cbn; auto; lia). cbn [out app]. unfold len. cbn [out List.length].
  rewrite Z.sub_0_r. reflexivity.
Qed.

(** A pass that starts with the whole pool adds nothing. *)
Lemma later_pass (keywords : list string) (tlds : option (list string))
    (excludeDomains : option (list string)) (desired : Z) :
  Z.of_nat (List.length (pool keywords tlds excludeDomains)) < desired ->
  forKeywords (excluded excludeDomains) desired (suff tlds) (base keywords)
    (mkState (pool keywords tlds excludeDomains) (pool keywords tlds excludeDomains))
  = mkState (pool keywords tlds excludeDomains) (pool keywords tlds excludeDomains).
Proof.
  intros Hlt. rewrite forKeywords_scan by exact Hlt.
  rewrite scan_spec by (cbn; auto). cbn [out].
  rewrite fresh_nil; [now rewrite firstn_nil, app_nil_r |].
  intros x Hx. destruct (mem x (excluded excludeDomains)) eqn:E.
  - right. now apply mem_In.
  - left. apply pool_spec. split; [exact Hx |]. now apply mem_false.
Qed.

Lemma while_stuck (keywords : list string) (tlds : option (list string))
    (excludeDomains : option (list string)) (desired : Z) :
  Z.of_nat (List.length (pool keywords tlds excludeDomains)) < Z.min desired 200 ->
  forall fuel,
    while (excluded excludeDomains) desired (suff tlds) (base keywords) fuel
      (mkState (pool keywords tlds excludeDomains) (pool keywords tlds excludeDomains))
    = None.
Proof.
  intros Hlt. induction fuel as [| fuel IH]; cbn [while]; unfold len; cbn [out];
    destruct (Z.ltb_spec (Z.of_nat (List.length (pool keywords tlds excludeDomains)))
                desired);
    try lia;
    destruct (Z.ltb_spec (Z.of_nat (List.length (pool keywords tlds excludeDomains)))
                200);
    try lia; cbn [andb]; [reflexivity |].
  rewrite later_pass by lia. exact IH.
Qed.

Lemma while_returns (keywords : list string) (tlds : option (list string))
    (excludeDomains : option (list string)) (desired : Z) (fuel : nat) :
  Z.min desired 200 <= Z.of_nat (List.length (pool keywords tlds excludeDomains)) ->
  (1 <= fuel)%nat ->
  exists st,
    while (excluded excludeDomains) desired (suff tlds) (base keywords) fuel
      (mkState [] []) = Some st
    /\ slice0 desired (out st)
       = firstn (Z.to_nat desired) (pool keywords tlds excludeDomains).
Proof.
  intros Hpool Hfuel. destruct fuel as [| fuel]; [lia |]. cbn [while].
  unfold len at 1 2. cbn [out List.length]. change (Z.of_nat 0) with 0.
  destruct (Z.ltb_spec 0 desired) as [Hpos | Hneg]; cbn [andb].
  - rewrite first_pass by exact Hpos.
    set (P := firstn (Z.to_nat desired) (pool keywords tlds excludeDomains)).
    assert (Hlen : Z.of_nat (List.length P)
                   = Z.min desired
                       (Z.of_nat (List.length (pool keywords tlds excludeDomains)))).
    { unfold P. rewrite length_firstn. lia. }
    assert (Hexit : (len (mkState P P) <? desired) && (len (mkState P P) <? 200)
                    = false).
    { unfold len. cbn [out]. rewrite Hlen.
      destruct (Z.ltb_spec
                  (Z.min desired
                     (Z.of_nat (List.length (pool keywords tlds excludeDomains))))
                  desired); [| reflexivity].
      destruct (Z.ltb_spec
                  (Z.min desired
                     (Z.of_nat (List.length (pool keywords tlds excludeDomains))))
                  200); [lia | reflexivity]. }
    exists (mkState P P). split.
    + destruct fuel as [| fuel]; cbn [while]; now rewrite Hexit.
    + cbn [out]. unfold slice0. destruct (Z.ltb_spec desired 0); [lia |].
      unfold P. rewrite firstn_firstn, Nat.min_id. reflexivity.
  - eexists. split; [reflexivity |]. cbn [out]. unfold slice0.
    replace (Z.to_nat desired) with 0%nat by lia.
    destruct (desired <? 0); reflexivity.
Qed.

Lemma while_never (keywords : list string) (tlds : option (list string))
    (excludeDomains : option (list string)) (desired : Z) (fuel : nat) :
  Z.of_nat (List.length (pool keywords tlds excludeDomains)) < Z.min desired 200 ->
  while (excluded excludeDomains) desired (suff tlds) (base keywords) fuel
    (mkState [] []) = None.
Proof.
  intros Hpool. destruct fuel as [| fuel]; cbn [while];
    unfold len at 1 2; cbn [out List.length]; change (Z.of_nat 0) with 0;
    (destruct (Z.ltb_spec 0 desired); [| lia]); cbn [andb];
    [reflexivity |].
  rewrite first_pass by lia. rewrite firstn_all2 by lia.
  now apply while_stuck.
Qed.

End GenerateFacts.

(** X14. Called with at least one keyword, and when the names it can
    offer (keyword, suffix and TLD combined, without repetitions and
    without the excluded ones) number at least [desiredCount] or at least
    200, [generate_domains] returns after one pass of its loop with the
    first [desiredCount] of these names in the order of enumeration: no
    name twice, none of the excluded ones. A [desiredCount] of 0 or less
    gives the empty list; a [desiredCount] left out is 10. *)
Theorem generate_domains_returns (keywords : list string)
    (tlds excludeDomains : option (list string)) (desiredCount : option Z)
    (fuel : nat) :
  keywords <> [] ->
  Z.min (Generate.wanted desiredCount) 200
    <= Z.of_nat (List.length (Generate.pool keywords tlds excludeDomains)) ->
  (1 <= fuel)%nat ->
  Generate.generate_domains fuel keywords tlds excludeDomains desiredCount
  = Some (Generate.Returns
            (firstn (Z.to_nat (Generate.wanted desiredCount))
               (Generate.pool keywords tlds excludeDomains)))
  /\ NoDup (Generate.pool keywords tlds excludeDomains)
  /\ forall d,
       In d (Generate.pool keywords tlds excludeDomains)
       <-> In d (Generate.enumeration keywords tlds)
           /\ ~ In d (Generate.excluded excludeDomains).
Proof.
  intros Hk Hpool Hfuel.
  split; [| apply GenerateFacts.pool_spec].
  destruct (GenerateFacts.while_returns keywords tlds excludeDomains
              (Generate.wanted desiredCount) fuel Hpool Hfuel)
    as (st & Ew & Eslice).
  unfold Generate.generate_domains. rewrite Ew, Eslice.
  destruct keywords; [congruence | reflexivity].
Qed.

(** One keyword and the default TLD give fourteen names: three are asked
    for, and the first name is excluded. *)
Lemma generate_domains_returns_witness :
  Generate.generate_domains 1 ["Acme Inc"] None (Some ["acmeincpro.com"]) (Some 3)
  = Some (Generate.Returns
            ["acmeinchub.com"; "acmeinctech.com"; "acmeincdigital.com"]).
Proof.
  apply (generate_domains_returns ["Acme Inc"] None (Some ["acmeincpro.com"])
           (Some 3) 1).
  - discriminate.
  - vm_compute. discriminate.
  - lia.
Defined.

(** X15. Called with at least one keyword, and when the names it can
    offer number less than [desiredCount] and less than 200,
    [generate_domains] never answers: every pass of its loop after the
    first one adds nothing, and the loop has no other way out. One keyword
    with the default TLD offers 14 names, so that a [desiredCount] of 15
    is enough. *)
Theorem generate_domains_never_returns (keywords : list string)
    (tlds excludeDomains : option (list string)) (desiredCount : option Z) :
  keywords <> [] ->
  Z.of_nat (List.length (Generate.pool keywords tlds excludeDomains))
    < Z.min (Generate.wanted desiredCount) 200 ->
  forall fuel,
    Generate.generate_domains fuel keywords tlds excludeDomains desiredCount
    = None.
Proof.
  intros Hk Hpool fuel. unfold Generate.generate_domains.
  rewrite GenerateFacts.while_never by exact Hpool.
  destruct keywords; [congruence | reflexivity].
Qed.

(** Fifteen names asked for from one keyword: no answer after a thousand
    passes. *)
Lemma generate_domains_never_returns_witness :
  Generate.generate_domains 1000 ["acme"] None None (Some 15) = None.
Proof.
  apply (generate_domains_never_returns ["acme"] None None (Some 15)).
  - discriminate.
  - vm_compute. reflexivity.
Defined.

(* ===================================================================== *)
(** * The tools [health_check] and [bulk_update_mailboxes] *)

Module HandlersFacts.
Import Exec Ops Handlers.
Section Facts.
Context {num : Type} `{JsNumber num} `{JsBuiltins num}.
Local Abbreviation json := (Json.t num) (only parsing).
Local Abbreviation value := (@Json.value num) (only parsing).

Lemma getApiKey_env (w w' : @World num) :
  env w' = env w -> getApiKey w' = getApiKey w.
Proof.
  unfold env. intros E. inversion E as [[Hk Ht Hc]]. unfold getApiKey.
  now rewrite Hk, Ht.
Qed.

(** A connectivity check that is answered. *)
Lemma health_check_connected (detailed : bool) (w w1 : @World num) (v : value) :
  nonempty (getApiKey w) = true ->
  apiFetch (Some (JStr "/v2/user")) (mkOptions None None None None) w = (Ok v, w1) ->
  health_check detailed w
  = (Ok (mkHealth "healthy" "configured" "connected"
           (if detailed then Some v else None) None), w1).
Proof.
  intros Hkey E. unfold health_check, bind at 1, gets. rewrite Hkey.
  unfold try, bind. now rewrite E.
Qed.

(** One turn of the loop always leaves an entry, with the index of the
    turn. *)
Lemma updateOne_returns (rateLimitDelay i : Z) (last : bool) (update : json)
    (w : @World num) :
  exists entry w',
    updateOne rateLimitDelay i last update w = (Ok entry, w')
    /\ indexOf entry = i.
Proof.
  unfold updateOne, try.
  match goal with
  | |- context [match ?body w with _ => _ end] =>
      assert (Hbody : forall entry w', body w = (Ok entry, w') -> indexOf entry = i);
        [| destruct (body w) as [[entry | e] w'] eqn:E;
           [exists entry, w'; split; [reflexivity | now apply (Hbody entry w')]
           | do 2 eexists; split; [reflexivity | reflexivity]]]
  end.
  intros entry w'.
  repeat (unfold bind at 1;
          match goal with
          | |- context [match ?m w with _ => _ end] =>
              destruct (m w) as [[? | ?] ?]; [| discriminate]
          | |- context [match ?m ?w0 with _ => _ end] =>
              destruct (m w0) as [[? | ?] ?]; [| discriminate]
          end).
  match goal with
  | |- context [match ?l with [] => _ | _ :: _ => _ end] => destruct l
  end.
  - unfold ret. intros E. inversion E. reflexivity.
  - repeat (unfold bind at 1;
            match goal with
            | |- context [match ?m ?w0 with _ => _ end] =>
                destruct (m w0) as [[? | ?] ?]; [| discriminate]
            end).
    unfold ret. intros E. inversion E. reflexivity.
Qed.

Lemma updateFrom_returns (rateLimitDelay n : Z) (updates : list json) :
  Forall (fun u => u <> JNull) updates ->
  forall (i : Z) (w : @World num),
    exists entries w',
      updateFrom rateLimitDelay n i updates w
      = (Ok (lefts entries, rights entries), w')
      /\ map indexOf entries = indices i (List.length updates).
Proof.
  induction 1 as [| u us Hu _ IH]; intros i w.
  - exists [], w. split; reflexivity.
  - cbn [updateFrom].
    destruct (updateOne_returns rateLimitDelay i (negb (i <? n - 1)) u w)
      as (entry & w1 & E1 & Hi).
    assert (E1' : match u with
                  | JNull => throw (propertyOfNull "mailboxId")
                  | _ => updateOne rateLimitDelay i (negb (i <? n - 1)) u
                  end w = (Ok entry, w1)).
    { destruct u; try exact E1. congruence. }
    unfold bind at 1. rewrite E1'.
    destruct (IH (i + 1) w1) as (entries & w2 & E2 & Hidx).
    unfold bind at 1. rewrite E2. unfold ret.
    exists (entry :: entries), w2. split.
    + destruct entry; reflexivity.
    + cbn [map List.length indices]. now rewrite Hi, Hidx.
Qed.

End Facts.
End HandlersFacts.

(** X16. After a health check that reached the API, a health check made
    while the cached answer is still valid reports ["healthy"] and
    ["connected"] from that answer without sending any request: it does
    not notice whether the API can still be reached. *)
Theorem health_check_answers_from_cache {num : Type} `{JsNumber num}
    `{JsBuiltins num} (detailed again : bool) (w w1 : @Exec.World num)
    (c0 : Cache.t (Json.t num)) (v : Json.t num) :
  Exec.nonempty (Exec.getApiKey w) = true ->
  Exec.cache w = Some c0 ->
  Exec.apiFetch (Some (JStr "/v2/user")) (Exec.mkOptions None None None None) w
  = (Exec.Ok (Some v), w1) ->
  Ops.fetches (Exec.trace w1) <> Ops.fetches (Exec.trace w) ->
  Json.truthy (Some v) = true ->
  Exec.clock (snd (Exec.checkLimit "api" w1)) <= Exec.clock w1 + Cache.ttl c0 ->
  Handlers.health_check detailed w
  = (Exec.Ok (Handlers.mkHealth "healthy" "configured" "connected"
                (if detailed then Some (Some v) else None) None), w1)
  /\ exists w2,
       Handlers.health_check again w1
       = (Exec.Ok (Handlers.mkHealth "healthy" "configured" "connected"
                     (if again then Some (Some v) else None) None), w2)
       /\ Exec.network w2 = Exec.network w1
       /\ Ops.fetches (Exec.trace w2) = Ops.fetches (Exec.trace w1).
Proof.
  intros Hkey Hc E Hreq Htruthy Htime.
  split; [now apply HandlersFacts.health_check_connected |].
  destruct (OpsFacts.apiFetch_repeat "/v2/user" (Exec.mkOptions None None None None)
              w w1 c0 v) as (w2 & E2 & Hn & Hf); try assumption.
  - split; [discriminate | cbn; lia].
  - reflexivity.
  - exists w2. split; [| split; assumption].
    apply HandlersFacts.health_check_connected; [| exact E2].
    rewrite (HandlersFacts.getApiKey_env w w1); [exact Hkey |].
    pose proof (OpsFacts.apiFetch_env (Some (JStr "/v2/user"))
                  (Exec.mkOptions None None None None) w) as He.
    now rewrite E in He.
Qed.

(** The API answers one request and is then out of reach. *)
Lemma health_check_answers_from_cache_witness :
  let w := Scenario.keyed_world [Scenario.answer 200 "OK" "{}"] in
  let healthy :=
    Handlers.mkHealth (num:=Z) "healthy" "configured" "connected" None None in
  let w1 := snd (Handlers.health_check (H0:=Scenario.parser) false w) in
  Handlers.health_check (H0:=Scenario.parser) false w = (Exec.Ok healthy, w1)
  /\ exists w2,
       Handlers.health_check (H0:=Scenario.parser) false w1 = (Exec.Ok healthy, w2)
       /\ Exec.network w2 = Exec.network w1
       /\ Ops.fetches (Exec.trace w2) = Ops.fetches (Exec.trace w1).
Proof.
  intros w healthy w1.
  apply (health_check_answers_from_cache (H0:=Scenario.parser) false false w w1
           Cache.new_default (JObj [])).
  - reflexivity.
  - reflexivity.
  - vm_compute. reflexivity.
  - vm_compute. discriminate.
  - reflexivity.
  - vm_compute. discriminate.
Defined.

(** X17. Called with a non-empty array of updates none of which is
    [null], [bulk_update_mailboxes] always returns a report, whatever the
    updates contain and whatever the API answers: a failing update never
    stops the others. The report accounts for every update exactly once:
    each index from 0 to [total - 1] has one entry, in [results] or in
    [errors], both lists are in the order of the updates, and
    [successful + failed = total]. Called with anything but a non-empty
    array it throws a [ValidationError] and does nothing. *)
Theorem bulk_update_mailboxes_accounts_for_every_update {num : Type}
    `{JsNumber num} `{JsBuiltins num} (rateLimitDelay : Z)
    (updates : @Json.value num) (w : @Exec.World num) :
  match updates with
  | Some (JArr (u :: us)) =>
      Forall (fun u => u <> JNull) (u :: us) ->
      exists entries w',
        Handlers.bulk_update_mailboxes rateLimitDelay updates w
        = (Exec.Ok (Handlers.mkBulk
                      (Z.of_nat (List.length (u :: us)))
                      (Z.of_nat (List.length (Handlers.lefts entries)))
                      (Z.of_nat (List.length (Handlers.rights entries)))
                      (Handlers.lefts entries) (Handlers.rights entries)), w')
        /\ map Handlers.indexOf entries
           = Handlers.indices 0 (List.length (u :: us))
        /\ Z.of_nat (List.length (Handlers.lefts entries))
           + Z.of_nat (List.length (Handlers.rights entries))
           = Z.of_nat (List.length (u :: us))
  | _ =>
      Handlers.bulk_update_mailboxes rateLimitDelay updates w
      = (Exec.Throw (Exec.ValidationError "'updates' must be a non-empty array"
                       "updates" updates), w)
  end.
Proof.
  destruct updates as [[| | | | [| u us] |] |]; try reflexivity.
  intros Hall.
  destruct (HandlersFacts.updateFrom_returns rateLimitDelay
              (Z.of_nat (List.length (u :: us))) (u :: us) Hall 0 w)
    as (entries & w' & E & Hidx).
  exists entries, w'. split; [| split; [exact Hidx |]].
  - unfold Handlers.bulk_update_mailboxes. cbv zeta.
    unfold Exec.bind. rewrite E. reflexivity.
  - assert (Hlen : List.length entries = List.length (u :: us)).
    { apply (f_equal (@List.length Z)) in Hidx. rewrite length_map in Hidx.
      rewrite Hidx. clear. generalize 0. generalize (u :: us).
      induction l as [| x l IH]; intros z; [reflexivity |].
      cbn [List.length Handlers.indices]. now rewrite IH. }
    rewrite <- Hlen. clear. induction entries as [| [r | e] l IH];
      cbn [Handlers.lefts Handlers.rights List.length]; lia.
Qed.

(** Three updates: one that is sent, one without any field to change and
    one without [mailboxId]. *)
Lemma bulk_update_mailboxes_accounts_for_every_update_witness :
  let u0 := JObj [("mailboxId", JStr "m1"); ("firstName", JStr "Ann")] in
  let us := [JObj [("mailboxId", JStr "m2")]; JObj [("firstName", JStr "Bob")]] in
  let w := Scenario.keyed_world [Scenario.answer 200 "OK" "{}"] in
  exists entries w',
    Handlers.bulk_update_mailboxes (H0:=Scenario.parser) 1000
      (Some (JArr (u0 :: us))) w
    = (Exec.Ok (Handlers.mkBulk
                  (Z.of_nat (List.length (u0 :: us)))
                  (Z.of_nat (List.length (Handlers.lefts entries)))
                  (Z.of_nat (List.length (Handlers.rights entries)))
                  (Handlers.lefts entries) (Handlers.rights entries)), w')
    /\ map Handlers.indexOf entries = Handlers.indices 0 (List.length (u0 :: us))
    /\ Z.of_nat (List.length (Handlers.lefts entries))
       + Z.of_nat (List.length (Handlers.rights entries))
       = Z.of_nat (List.length (u0 :: us)).
Proof.
  intros u0 us w.
  apply (bulk_update_mailboxes_accounts_for_every_update (H0:=Scenario.parser)
           1000 (Some (JArr (u0 :: us))) w).
  repeat constructor; discriminate.
Defined.

(* ===================================================================== *)
(** * The purchase scheduler *)

Module SchedulerFacts.
Import Scheduler Outcomes.

Lemma api_error_is_no_rate_limit : rateLimitMessage "API returned an error" = false.
Proof. reflexivity. Qed.

Lemma purchaseDomain_S (fuel : nat) (domain : string) (retryCount : Z) (s : T) :
  purchaseDomain (S fuel) domain retryCount s
  = let (result, s1) := executeCommand s in
    let catch (message : string) : option (bool * T) :=
      if rateLimitMessage message then
        if retryCount <? MAX_RETRIES then
          purchaseDomain fuel domain (retryCount + 1)
            (sleep (currentDelay s1 * BACKOFF_MULTIPLIER ^ retryCount) s1)
        else Some (false, pushFailed domain s1)
      else Some (false, pushFailed domain s1) in
    match result with
    | inl output =>
        if includes quotedError output then catch "API returned an error"
        else Some (true, pushSuccessful domain s1)
    | inr message => catch message
    end.
Proof. reflexivity. Qed.

(** [purchaseDomain] entered with [retryCount = MAX_RETRIES - n]. *)
Lemma purchaseDomain_from (domain : string) (n : nat) :
  forall (retryCount : Z) (s : T),
    retryCount = MAX_RETRIES - Z.of_nat n ->
    let k := failuresInARow (children s) (spawned s) n in
    let last := children s (spawned s + k) in
    exists s',
      purchaseDomain (S n) domain retryCount s = Some (succeeded last, s')
      /\ spawned s' = S (spawned s + k)
      /\ slept s' = slept s ++ backoffs (currentDelay s) retryCount k
      /\ successfulPurchases s'
         = (if succeeded last then successfulPurchases s ++ [domain]
            else successfulPurchases s)
      /\ failedPurchases s'
         = (if succeeded last then failedPurchases s
            else failedPurchases s ++ [domain])
      /\ currentIndex s' = currentIndex s
      /\ currentDelay s' = currentDelay s
      /\ children s' = children s.
Proof.
  induction n as [| n IH]; intros retryCount s Hr; cbv zeta.
  - cbn [failuresInARow]. rewrite purchaseDomain_S, Nat.add_0_r.
    unfold executeCommand.
    destruct (children s (spawned s)) as [output | code errorOutput] eqn:E;
      cbn [succeeded].
    + destruct (includes quotedError output); cbn [negb].
      * rewrite api_error_is_no_rate_limit. eexists. split; [reflexivity |].
        cbn. rewrite app_nil_r. auto 10.
      * eexists. split; [reflexivity |]. cbn. rewrite app_nil_r. auto 10.
    + destruct (Z.ltb_spec retryCount MAX_RETRIES); [cbn in Hr; lia |].
      destruct (rateLimitMessage (failureMessage code errorOutput));
        eexists; (split; [reflexivity |]); cbn; rewrite app_nil_r; auto 10.
  - cbn [failuresInARow]. rewrite purchaseDomain_S. unfold executeCommand.
    destruct (children s (spawned s)) as [output | code errorOutput] eqn:E;
      cbn [rateLimited].
    + rewrite Nat.add_0_r, E. cbn [succeeded].
      destruct (includes quotedError output); cbn [negb].
      * rewrite api_error_is_no_rate_limit. eexists. split; [reflexivity |].
        cbn. rewrite app_nil_r. auto 10.
      * eexists. split; [reflexivity |]. cbn. rewrite app_nil_r. auto 10.
    + destruct (rateLimitMessage (failureMessage code errorOutput)) eqn:Erl.
      * destruct (Z.ltb_spec retryCount MAX_RETRIES);
          [| rewrite Nat2Z.inj_succ in Hr; lia].
        match goal with
        | |- context [purchaseDomain (S n) domain (retryCount + 1) ?s1] =>
            destruct (IH (retryCount + 1) s1) as (s' & Ep & Hsp & Hsl & Hsu & Hfa & Hci & Hcd & Hch)
        end.
        { rewrite Nat2Z.inj_succ in Hr. lia. }
        cbn [children spawned sleep slept currentDelay successfulPurchases
             failedPurchases currentIndex] in *.
        exists s'. rewrite <- plus_n_Sm. split; [exact Ep |].
        repeat split; try assumption.
        rewrite Hsl. cbn [backoffs]. rewrite <- app_assoc. reflexivity.
      * rewrite Nat.add_0_r, E. cbn [succeeded].
        eexists. split; [reflexivity |]. cbn. rewrite app_nil_r. auto 10.
Qed.

Lemma failuresInARow_le (children : nat -> Exit) (cap : nat) :
  forall from, (failuresInARow children from cap <= cap)%nat.
Proof.
  induction cap as [| cap IH]; intros from; cbn [failuresInARow]; [lia |].
  destruct (rateLimited (children from)); [| lia]. specialize (IH (S from)). lia.
Qed.


(** One turn of the [while] loop. *)
Lemma processAll_turn (fuel : nat) (pre : list string) (d : string)
    (rest : list string) (s : T) :
  currentIndex s = List.length pre ->
  exists (s2 : T) (ok : bool),
    processAll (S fuel) (pre ++ d :: rest) s
    = processAll fuel (pre ++ d :: rest) s2
    /\ currentIndex s2 = List.length (pre ++ [d])
    /\ successfulPurchases s2
       = successfulPurchases s ++ (if ok then [d] else [])
    /\ failedPurchases s2 = failedPurchases s ++ (if ok then [] else [d])
    /\ (spawned s2 <= spawned s + 6)%nat.
Proof.
  intros Hi. cbn [processAll].
  assert (Hlt : (currentIndex s <? List.length (pre ++ d :: rest))%nat = true).
  { apply Nat.ltb_lt. rewrite Hi, length_app. cbn. lia. }
  rewrite Hlt. unfold processBatch, slice, BATCH_SIZE.
  rewrite Hi, skipn_app, Nat.sub_diag, skipn_all. cbn [app skipn firstn].
  cbn [purchaseEach].
  destruct (purchaseDomain_from d (Z.to_nat MAX_RETRIES) 0 s eq_refl)
    as (s1 & Ep & Hsp & _ & Hsu & Hfa & Hci & _ & _).
  pose proof (failuresInARow_le (children s) (Z.to_nat MAX_RETRIES) (spawned s))
    as Hk.
  assert (H5 : Z.to_nat MAX_RETRIES = 5%nat) by reflexivity.
  set (ok := succeeded
               (children s
                  (spawned s
                   + failuresInARow (children s) (spawned s)
                       (Z.to_nat MAX_RETRIES)))) in *.
  rewrite Ep. eexists. exists ok. split; [reflexivity |].
  assert (Hs1 : (currentIndex s1 + 1)%nat = List.length (pre ++ [d])
                /\ successfulPurchases s1
                   = successfulPurchases s ++ (if ok then [d] else [])
                /\ failedPurchases s1 = failedPurchases s ++ (if ok then [] else [d])
                /\ (spawned s1 <= spawned s + 6)%nat).
  { rewrite Hci, Hi, length_app, Hsu, Hfa, Hsp.
    destruct ok; rewrite ?app_nil_r; repeat split; cbn [List.length];
      try reflexivity; lia. }
  destruct ok;
    match goal with
    | |- context [if ?c then _ else _] => destruct c
    end; exact Hs1.
Qed.

(** The turns of the [while] loop that are left when [pre] has been gone
    through. *)
Lemma processAll_spec (rest : list string) :
  forall (fuel : nat) (pre : list string) (s : T),
    currentIndex s = List.length pre ->
    (List.length rest <= fuel)%nat ->
    exists s' outcomes,
      processAll fuel (pre ++ rest) s = Some s'
      /\ map fst outcomes = rest
      /\ successfulPurchases s' = successfulPurchases s ++ select true outcomes
      /\ failedPurchases s' = failedPurchases s ++ select false outcomes
      /\ (spawned s' <= spawned s + 6 * List.length rest)%nat.
Proof.
  induction rest as [| d rest IH]; intros fuel pre s Hi Hfuel.
  - exists s, []. rewrite app_nil_r.
    assert (E : processAll fuel pre s = Some s).
    { destruct fuel; cbn [processAll]; rewrite Hi, Nat.ltb_irrefl; reflexivity. }
    rewrite E. cbn. rewrite !app_nil_r. repeat split; auto; lia.
  - destruct fuel as [| fuel]; [cbn in Hfuel; lia |].
    destruct (processAll_turn fuel pre d rest s Hi)
      as (s2 & ok & Et & Hci & Hsu & Hfa & Hsp).
    destruct (IH fuel (pre ++ [d]) s2 Hci)
      as (s' & outcomes & Ea & Hm & Hsu' & Hfa' & Hsp').
    { cbn in Hfuel. lia. }
    rewrite <- app_assoc in Ea. cbn [app] in Ea.
    exists s', ((d, ok) :: outcomes). rewrite Et. split; [exact Ea |].
    split; [cbn; now rewrite Hm |].
    rewrite Hsu', Hfa', Hsu, Hfa. unfold select. cbn [filter snd List.length].
    destruct ok; cbn [Bool.eqb map fst]; rewrite <- ?app_assoc, ?app_nil_r;
      cbn [app]; repeat split; lia.
Qed.

End SchedulerFacts.

(** X18. A purchase of one domain starts at most 6 processes. It starts
    another one only after a process that ended with a code other than 0
    and an error output that speaks of [429] or [Too Many Requests], and
    waits the current delay, doubled at every retry, before the successive
    retries: 10 s, 20 s, 40 s, 80 s and 160 s with the delay of the script.
    A process that ends with code 0 decides the purchase at once, and as a
    failure when its output contains ["error"], whatever the error is:
    such an answer is never retried. The domain is added to exactly one of
    the two lists. *)
Theorem purchaseDomain_retries (domain : string) (s : Scheduler.T) :
  let k := Scheduler.failuresInARow (Scheduler.children s) (Scheduler.spawned s)
             (Z.to_nat Scheduler.MAX_RETRIES) in
  let last := Scheduler.children s (Scheduler.spawned s + k) in
  (k <= 5)%nat
  /\ (forall output,
        Scheduler.children s (Scheduler.spawned s) = Scheduler.Closes output ->
        k = 0%nat)
  /\ exists s',
       Scheduler.purchaseDomain (S (Z.to_nat Scheduler.MAX_RETRIES)) domain 0 s
       = Some (Scheduler.succeeded last, s')
       /\ Scheduler.spawned s' = S (Scheduler.spawned s + k)
       /\ Scheduler.slept s'
          = Scheduler.slept s ++ Scheduler.backoffs (Scheduler.currentDelay s) 0 k
       /\ Scheduler.successfulPurchases s'
          = (if Scheduler.succeeded last
             then Scheduler.successfulPurchases s ++ [domain]
             else Scheduler.successfulPurchases s)
       /\ Scheduler.failedPurchases s'
          = (if Scheduler.succeeded last
             then Scheduler.failedPurchases s
             else Scheduler.failedPurchases s ++ [domain]).
Proof.
  cbv zeta. split; [apply SchedulerFacts.failuresInARow_le |]. split.
  - intros output E. change (Z.to_nat Scheduler.MAX_RETRIES) with 5%nat.
    cbn [Scheduler.failuresInARow]. now rewrite E.
  - destruct (SchedulerFacts.purchaseDomain_from domain
                (Z.to_nat Scheduler.MAX_RETRIES) 0 s eq_refl)
      as (s' & Ep & Hsp & Hsl & Hsu & Hfa & _).
    exists s'. auto.
Qed.

(** X19. When the process that sets the workspace ends with code 0, a run
    of the scheduler ends with its summary after at most
    [1 + 6 * n] processes for [n] domains, and every domain is in exactly
    one of the lists of purchased and of failed domains, each list in the
    order of the domains. When that first process fails the run ends in a
    fatal error and no purchase is attempted. *)
Theorem scheduler_run_accounts_for_every_domain (fuel : nat)
    (domains : list string) (children : nat -> Scheduler.Exit) :
  (List.length domains <= fuel)%nat ->
  match children 0%nat with
  | Scheduler.Closes _ =>
      exists s outcomes,
        Scheduler.runOn fuel domains (Scheduler.new children)
        = Some (Scheduler.Summary s)
        /\ map fst outcomes = domains
        /\ Scheduler.successfulPurchases s = Outcomes.select true outcomes
        /\ Scheduler.failedPurchases s = Outcomes.select false outcomes
        /\ (Scheduler.spawned s <= 1 + 6 * List.length domains)%nat
  | Scheduler.Fails code errorOutput =>
      exists s,
        Scheduler.runOn fuel domains (Scheduler.new children)
        = Some (Scheduler.Fatal (Scheduler.failureMessage code errorOutput) s)
        /\ Scheduler.spawned s = 1%nat
        /\ Scheduler.successfulPurchases s = []
        /\ Scheduler.failedPurchases s = []
  end.
Proof.
  intros Hfuel. unfold Scheduler.runOn, Scheduler.executeCommand.
  cbn [Scheduler.new Scheduler.children Scheduler.spawned].
  destruct (children 0%nat) as [output | code errorOutput].
  - match goal with
    | |- context [Scheduler.processAll fuel domains ?s0] =>
        destruct (SchedulerFacts.processAll_spec domains fuel [] s0 eq_refl Hfuel)
          as (s & outcomes & E & Hm & Hsu & Hfa & Hsp)
    end.
    cbn [app] in E. exists s, outcomes. rewrite E.
    cbn in Hsu, Hfa, Hsp. repeat split; try assumption; lia.
  - eexists. repeat split.
Qed.

(** The five domains of the script, the workspace being set and every
    purchase answered without an error. *)
Lemma scheduler_run_accounts_for_every_domain_witness :
  exists s outcomes,
    Scheduler.run 5 (fun _ => Scheduler.Closes "{}") = Some (Scheduler.Summary s)
    /\ map fst outcomes = Scheduler.DOMAINS_TO_PURCHASE
    /\ Scheduler.successfulPurchases s = Outcomes.select true outcomes
    /\ Scheduler.failedPurchases s = Outcomes.select false outcomes
    /\ (Scheduler.spawned s <= 1 + 6 * List.length Scheduler.DOMAINS_TO_PURCHASE)%nat.
Proof.
  apply (scheduler_run_accounts_for_every_domain 5 Scheduler.DOMAINS_TO_PURCHASE
           (fun _ => Scheduler.Closes "{}")).
  cbn. lia.
Defined.

(* ===================================================================== *)
(** * The requests of a purchase *)

Module TraceFacts.
Import Exec Ops OpsFacts.
Section Facts.
Context {num : Type} `{JsNumber num} `{JsBuiltins num}.
Local Abbreviation json := (Json.t num) (only parsing).
Local Abbreviation value := (@Json.value num) (only parsing).

(** The events of the loop: pauses and the one request, repeated. *)
Lemma attempts_trace (method path : string) (query payload : value)
    (maxRetries : Z) (fuel : nat) :
  forall (attempt : Z) (w : @World num),
    exists evs,
      trace (snd (attempts method path query payload maxRetries fuel attempt w))
      = trace w ++ evs
      /\ Forall (fun e => is_sleep e \/ e = EvFetch method path query payload) evs.
Proof.
  induction fuel as [| fuel IH]; intros attempt w.
  - exists []. cbn. now rewrite app_nil_r.
  - cbn [attempts]. destruct (attempt <=? maxRetries);
      [| exists []; cbn; now rewrite app_nil_r].
    destruct (fetch_effect method path query payload w) as (o & w0 & Ef & Ht & _).
    unfold bind at 1. rewrite Ef. cbv zeta.
    set (goal := fun w' : @World num =>
           exists evs,
             trace w' = trace w ++ evs
             /\ Forall (fun e => is_sleep e \/ e = EvFetch method path query payload)
                  evs).
    match goal with
    | |- exists evs, trace (snd ?X) = _ /\ _ => change (goal (snd X))
    end.
    assert (H0' : goal w0).
    { exists [EvFetch method path query payload]. split; [exact Ht |].
      constructor; [now right | constructor]. }
    assert (Hnext : forall d,
      goal (snd (bind (sleep d)
                   (fun _ => attempts method path query payload maxRetries fuel
                               (attempt + 1)) w0))).
    { intros d. unfold bind, sleep, modify.
      match goal with
      | |- goal (snd (attempts _ _ _ _ _ _ _ ?w1)) =>
          destruct (IH (attempt + 1) w1) as (evs & Et & Hall)
      end.
      exists (EvFetch method path query payload :: EvSleep d :: evs).
      rewrite Et. cbn [trace set_clock log_event]. rewrite Ht, <- !app_assoc.
      split; [reflexivity |].
      constructor; [now right |]. constructor; [left; now exists d | exact Hall]. }
    assert (Hcatch : forall err,
      goal (snd ((if attempt =? maxRetries then throw err
                  else bind (sleep (RateLimiter.Finite (700 * (attempt + 1))))
                         (fun _ => attempts method path query payload maxRetries fuel
                                     (attempt + 1))) w0))).
    { intros err. destruct (attempt =? maxRetries); [exact H0' | apply Hnext]. }
    destruct o as [lat r | lat message]; [| apply Hcatch].
    assert (Hsettle :
      goal (snd ((if negb (ok r)
           then (if attempt =? maxRetries then throw (apiError r)
                 else bind (sleep (RateLimiter.Finite (700 * (attempt + 1))))
                        (fun _ => attempts method path query payload maxRetries fuel
                                    (attempt + 1)))
           else bind (cacheStore method path query (resultOf r))
                  (fun _ => ret (Some (resultOf r)))) w0))).
    { destruct (negb (ok r)); [apply Hcatch |].
      destruct (cacheStore_effect method path query (resultOf r) w0)
        as (w2 & Es & Ht2 & _).
      unfold bind. rewrite Es. cbn [snd ret]. unfold goal. rewrite Ht2. exact H0'. }
    destruct (retryable (status r)).
    + destruct (attempt <? maxRetries); [apply Hnext | apply Hsettle].
    + apply Hsettle.
Qed.

(** The events of a call of [apiFetch]. *)
Lemma apiFetch_trace (path : value) (o : @Options num) (w : @World num) :
  exists evs,
    trace (snd (apiFetch path o w)) = trace w ++ evs
    /\ Forall (from_call path o) evs.
Proof.
  destruct (apiFetch_cases path o w)
    as [(message & fieldName & v & E) | (p & m & -> & Hp & Hm & Hvm)].
  - exists []. rewrite E. cbn. now rewrite app_nil_r.
  - rewrite (apiFetch_valid p m o w Hp Hm Hvm).
    destruct (beforeKeyCheck_effect p m o w)
      as (v & w2 & Eb & _ & (sleeps & T2 & S2) & _).
    rewrite Eb.
    assert (Hs : Forall (from_call (Some (JStr p)) o) sleeps).
    { eapply Forall_impl; [| exact S2]. intros e He. now left. }
    destruct v as [c |]; [exists sleeps; split; assumption |].
    destruct (nonempty (getApiKey w2)); [| exists sleeps; split; assumption].
    destruct (attempts_trace m p (opt_query o) (payloadOf m o) (retriesOf o w2)
                (Z.to_nat (retriesOf o w2 + 1)) 0 w2) as (evs & Et & Hall).
    exists (sleeps ++ evs). rewrite Et, T2, app_assoc. split; [reflexivity |].
    apply Forall_app. split; [exact Hs |].
    eapply Forall_impl; [| exact Hall]. intros e [He | ->]; [now left |].
    right. exists p, m. auto.
Qed.


(** The request of a call with a string path and a string method. *)
Lemma from_call_request (p m : string) (query body : value) (e : @Event num)
    (m' p' : string) (q' b' : value) :
  from_call (Some (JStr p)) (mkOptions (Some (JStr m)) query body None) e ->
  e = EvFetch m' p' q' b' ->
  m' = m /\ p' = p /\ q' = query
  /\ b' = payloadOf m (mkOptions (Some (JStr m)) query body None).
Proof.
  intros [[d ->] | (p0 & m0 & Ep & Hm & ->)] E; [discriminate E |].
  unfold methodOf in Hm. cbn [opt_method] in Hm.
  inversion Ep; inversion Hm; inversion E; subst. auto.
Qed.

Lemma checkDomainAvailabilitySingle_trace (d : string) (years : num)
    (w : @World num) :
  exists evs,
    trace (snd (checkDomainAvailabilitySingle d years w)) = trace w ++ evs
    /\ forall m p q body,
         In (EvFetch m p q body) evs -> m = "POST" /\ p = "/v2/domains/available".
Proof.
  unfold checkDomainAvailabilitySingle, invokeSlug.
  cbn [Str.startsWith String.prefix].
  match goal with
  | |- context [apiFetch ?path ?o w] =>
      destruct (apiFetch_trace path o w) as (evs & Et & Hall)
  end.
  exists evs. split; [exact Et |]. intros m p q body Hin.
  rewrite Forall_forall in Hall. apply Hall in Hin.
  destruct (from_call_request _ _ _ _ _ m p q body Hin eq_refl) as (-> & -> & _).
  split; reflexivity.
Qed.

Lemma priceLoop_trace (years : num) (domains : list string) :
  forall (total : num) (w : @World num),
    exists evs,
      trace (snd (priceLoop domains years total w)) = trace w ++ evs
      /\ forall m p q body,
           In (EvFetch m p q body) evs -> m = "POST" /\ p = "/v2/domains/available".
Proof.
  induction domains as [| d domains IH]; intros total w.
  - exists []. cbn. rewrite app_nil_r. split; [reflexivity | intros ? ? ? ? []].
  - cbn [priceLoop].
    destruct (checkDomainAvailabilitySingle_trace d years w) as (evs1 & E1 & H1).
    unfold bind at 1.
    destruct (checkDomainAvailabilitySingle d years w) as [[avail | e] w1];
      cbn [snd] in E1; [| exists evs1; split; assumption].
    destruct (resolvePrice avail d) as [price |];
      [| exists evs1; split; assumption].
    match goal with
    | |- context [priceLoop domains years ?t] =>
        destruct (IH t w1) as (evs2 & E2 & H2);
        unfold bind at 1;
        destruct (priceLoop domains years t w1) as [[r | e] w2]
    end; cbn [snd ret] in *;
      (exists (evs1 ++ evs2); rewrite E2, E1, app_assoc; split; [reflexivity |];
       intros m p q body Hin; apply in_app_or in Hin;
       destruct Hin as [Hin | Hin]; [eapply H1 | eapply H2]; exact Hin).
Qed.

Lemma getWalletBalance_trace (w : @World num) :
  exists evs,
    trace (snd (getWalletBalance w)) = trace w ++ evs
    /\ forall m p q body,
         In (EvFetch m p q body) evs -> m = "GET" /\ p = "/v2/wallet/balance".
Proof.
  unfold getWalletBalance.
  match goal with
  | |- context [apiFetch ?path ?o] =>
      destruct (apiFetch_trace path o w) as (evs & Et & Hall)
  end.
  exists evs. split.
  - unfold bind.
    match goal with
    | |- context [apiFetch ?path ?o w] =>
        destruct (apiFetch path o w) as [[data | e] w1]
    end; exact Et.
  - intros m p q body Hin. rewrite Forall_forall in Hall. apply Hall in Hin.
    destruct (from_call_request _ _ _ _ _ m p q body Hin eq_refl) as (-> & -> & _).
    split; reflexivity.
Qed.

Lemma buy_trace (domains : list string) (years : num) (useWallet : bool)
    (w : @World num) :
  exists evs,
    trace (snd (invokeSlug "POST" "/v2/domains/buy"
                  (Some (buyPayload domains years useWallet)) w))
    = trace w ++ evs
    /\ forall m p q body,
         In (EvFetch m p q body) evs ->
         m = "POST" /\ p = "/v2/domains/buy"
         /\ body = Some (buyPayload domains years useWallet).
Proof.
  unfold invokeSlug. cbn [Str.startsWith String.prefix].
  match goal with
  | |- context [apiFetch ?path ?o w] =>
      destruct (apiFetch_trace path o w) as (evs & Et & Hall)
  end.
  exists evs. split; [exact Et |]. intros m p q body Hin.
  rewrite Forall_forall in Hall. apply Hall in Hin.
  destruct (from_call_request _ _ _ _ _ m p q body Hin eq_refl)
    as (-> & -> & _ & ->).
  repeat split; reflexivity.
Qed.

(** The requests of [purchaseDomains]. *)
Lemma purchaseDomains_trace (domains : list string) (years : option num)
    (preferWallet : option bool) (w : @World num) :
  exists evs,
    trace (snd (purchaseDomains domains years preferWallet w)) = trace w ++ evs
    /\ forall m p q body,
         In (EvFetch m p q body) evs ->
         (m = "POST" /\ p = "/v2/domains/available")
         \/ (m = "GET" /\ p = "/v2/wallet/balance" /\ preferWallet <> Some false)
         \/ (m = "POST" /\ p = "/v2/domains/buy"
             /\ exists useWallet,
                  body = Some (buyPayload domains
                                 (match years with Some y => y | None => lit 1 end)
                                 useWallet)
                  /\ (preferWallet = Some false -> useWallet = false)).
Proof.
  unfold purchaseDomains. cbv zeta.
  set (y := match years with Some y => y | None => lit 1 end).
  destruct (priceLoop_trace y domains (lit 0) w) as (evs1 & E1 & H1).
  unfold bind at 1.
  destruct (priceLoop domains y (lit 0) w) as [[r | e] w1]; cbn [snd] in E1;
    [| exists evs1; split; [exact E1 |];
       intros m p q body Hin; left; eapply H1; exact Hin].
  assert (Hwallet : exists evs2,
    forall k : bool -> @M num (@PurchaseResult num),
      (forall b w', (preferWallet = Some false -> b = false) ->
         exists evs3,
           trace (snd (k b w')) = trace w' ++ evs3
           /\ forall m p q body,
                In (EvFetch m p q body) evs3 ->
                m = "POST" /\ p = "/v2/domains/buy"
                /\ exists useWallet,
                     body = Some (buyPayload domains y useWallet)
                     /\ (preferWallet = Some false -> useWallet = false)) ->
      exists evs3,
        trace (snd (bind (if match preferWallet with Some b => b | None => true end
                          then bind getWalletBalance (fun bal => ret (geb bal (fst r)))
                          else ret false) k w1))
        = trace w1 ++ evs2 ++ evs3
        /\ (forall m p q body,
              In (EvFetch m p q body) evs2 ->
              m = "GET" /\ p = "/v2/wallet/balance" /\ preferWallet <> Some false)
        /\ forall m p q body,
             In (EvFetch m p q body) evs3 ->
             m = "POST" /\ p = "/v2/domains/buy"
             /\ exists useWallet,
                  body = Some (buyPayload domains y useWallet)
                  /\ (preferWallet = Some false -> useWallet = false)).
  { destruct (match preferWallet with Some b => b | None => true end) eqn:Ep.
    - destruct (getWalletBalance_trace w1) as (evs2 & E2 & H2).
      exists evs2. intros k Hk. unfold bind at 1 2.
      destruct (getWalletBalance w1) as [[bal | e] w2]; cbn [snd] in E2.
      + unfold ret at 1.
        destruct (Hk (geb bal (fst r)) w2) as (evs3 & E3 & H3).
        { intros ->. discriminate Ep. }
        exists evs3. rewrite E3, E2, <- app_assoc. split; [reflexivity |].
        split; [| exact H3]. intros m p q body Hin.
        destruct (H2 m p q body Hin) as [-> ->]. repeat split.
        intros ->. discriminate Ep.
      + exists []. cbn [snd]. rewrite E2, app_nil_r. split; [reflexivity |].
        split; [| intros ? ? ? ? []]. intros m p q body Hin.
        destruct (H2 m p q body Hin) as [-> ->]. repeat split.
        intros ->. discriminate Ep.
    - exists []. intros k Hk. unfold bind at 1, ret at 1.
      destruct (Hk false w1 (fun _ => eq_refl)) as (evs3 & E3 & H3).
      exists evs3. cbn [app]. split; [exact E3 |].
      split; [intros ? ? ? ? [] | exact H3]. }
  destruct Hwallet as (evs2 & Hwallet).
  match goal with
  | |- context [bind _ ?k w1] => destruct (Hwallet k) as (evs3 & E3 & H2 & H3)
  end.
  { intros b w' Hb.
    destruct (buy_trace domains y b w') as (evs3 & E3 & H3).
    exists evs3. split.
    - unfold bind, buyPayload in *.
      match goal with
      | |- context [invokeSlug ?a ?b ?c w'] =>
          destruct (invokeSlug a b c w') as [[res | e] w3]
      end; exact E3.
    - intros m p q body Hin. destruct (H3 m p q body Hin) as (-> & -> & ->).
      repeat split. exists b. auto. }
  exists (evs1 ++ evs2 ++ evs3). rewrite E3, E1, <- app_assoc.
  split; [reflexivity |]. intros m p q body Hin.
  apply in_app_or in Hin. destruct Hin as [Hin | Hin]; [left; eapply H1; exact Hin |].
  apply in_app_or in Hin. destruct Hin as [Hin | Hin].
  - right. left. eapply H2. exact Hin.
  - right. right. eapply H3. exact Hin.
Qed.

End Facts.
End TraceFacts.

(** X20. Every request [purchaseDomains] sends is an availability check
    ([POST /v2/domains/available]), the wallet query
    ([GET /v2/wallet/balance], only when [preferWallet] is not [false]) or
    the purchase ([POST /v2/domains/buy]). Every purchase request carries
    exactly the domains given, in their order and with the years given,
    whatever the availability service answered about them; and with
    [preferWallet] false its [useWallet] is [false]. *)
Theorem purchaseDomains_requests {num : Type} `{JsNumber num} `{JsBuiltins num}
    (domains : list string) (years : option num) (preferWallet : option bool)
    (w : @Exec.World num) :
  exists evs,
    Exec.trace (snd (Exec.purchaseDomains domains years preferWallet w))
    = Exec.trace w ++ evs
    /\ forall m p q body,
         In (Exec.EvFetch m p q body) evs ->
         (m = "POST" /\ p = "/v2/domains/available")
         \/ (m = "GET" /\ p = "/v2/wallet/balance" /\ preferWallet <> Some false)
         \/ (m = "POST" /\ p = "/v2/domains/buy"
             /\ exists useWallet,
                  body = Some (Ops.buyPayload domains
                                 (match years with Some y => y | None => lit 1 end)
                                 useWallet)
                  /\ (preferWallet = Some false -> useWallet = false)).
Proof. apply TraceFacts.purchaseDomains_trace. Qed.

(* ===================================================================== *)
(** * The local generators of names *)

Module NamesFacts.
Import Names.

Lemma existsb_eqb_false (x : string) (l : list string) :
  existsb (String.eqb x) l = false -> ~ In x l.
Proof.
  intros E Hin. assert (H : existsb (String.eqb x) l = true).
  { apply existsb_exists. exists x. split; [exact Hin | apply String.eqb_refl]. }
  congruence.
Qed.

Lemma NoDup_snoc {A} (l : list A) (x : A) :
  NoDup l -> ~ In x l -> NoDup (l ++ [x]).
Proof.
  intros Hnd Hx. induction Hnd as [| y l Hy Hnd IH]; cbn.
  - constructor; [intros [] | constructor].
  - constructor.
    + rewrite in_app_iff. cbn. intros [H | [H | []]]; [contradiction |].
      subst. apply Hx. now left.
    + apply IH. intros H. apply Hx. now right.
Qed.

Lemma NoDup_firstn {A} (n : nat) (l : list A) : NoDup l -> NoDup (firstn n l).
Proof.
  revert l. induction n as [| n IH]; intros l Hnd; [constructor |].
  destruct l as [| x l]; [constructor |]. cbn [firstn].
  inversion Hnd as [| ? ? Hx Hnd']; subst. constructor; [| now apply IH].
  intros Hin. apply Hx. revert Hin. clear. revert l.
  induction n as [| n IH]; intros l; [intros [] |].
  destruct l as [| y l]; [intros [] |]. cbn. intros [-> | H]; auto.
Qed.

Lemma Forall_firstn {A} (P : A -> Prop) (n : nat) (l : list A) :
  Forall P l -> Forall P (firstn n l).
Proof.
  revert l. induction n as [| n IH]; intros l Hall; [constructor |].
  destruct l as [| x l]; [constructor |]. inversion Hall; subst.
  cbn. constructor; auto.
Qed.

(** *** The mailbox generator *)

Lemma pick_pattern (c : Choice) :
  In (pick c (patterns neutralEuropeanPair))
    ["john.smith"; "johnsmith"; "j.smith"; "smith.john"].
Proof. destruct c; cbn; auto. Qed.

Lemma mailboxLoop_inv (random : nat -> Choice) (domain : string) (count : Z)
    (fuel : nat) :
  forall (i : Z) (turn : nat) (used : list string) (result : list Mailbox),
    used = map mailboxUsername result ->
    NoDup used ->
    Forall (good domain) result ->
    Z.of_nat (List.length result) <= Z.max 0 count ->
    let r := mailboxLoop fuel random domain count i turn used result in
    NoDup (map mailboxUsername r)
    /\ Forall (good domain) r
    /\ Z.of_nat (List.length r) <= Z.max 0 count
    /\ exists more, r = result ++ more.
Proof.
  induction fuel as [| fuel IH]; intros i turn used result Hu Hnd Hall Hlen;
    cbv zeta.
  - cbn. subst used. repeat split; auto. exists []. now rewrite app_nil_r.
  - cbn [mailboxLoop].
    destruct (Z.ltb_spec (Z.of_nat (List.length result)) count) as [Hlt |];
      cbn [andb];
      [| subst used; repeat split; auto; exists []; now rewrite app_nil_r].
    destruct (i <? count * 10);
      [| subst used; repeat split; auto; exists []; now rewrite app_nil_r].
    cbv zeta.
    destruct (existsb (String.eqb (pick (random turn) (patterns neutralEuropeanPair)))
                used) eqn:E.
    + now apply IH.
    + apply existsb_eqb_false in E.
      match goal with
      | |- context [mailboxLoop fuel random domain count (i + 1) (S turn) ?u ?r] =>
          destruct (IH (i + 1) (S turn) u r) as (A & B & C & more & D)
      end.
      * subst used. rewrite map_app. reflexivity.
      * now apply NoDup_snoc.
      * apply Forall_app. split; [exact Hall |]. constructor; [| constructor].
        repeat split; try reflexivity. apply pick_pattern.
      * rewrite length_app. cbn [List.length]. lia.
      * repeat split; auto. rewrite D, <- app_assoc. eexists. reflexivity.
Qed.

(** *** The usernames *)

Section Usernames.

Variables toUpperCase toLowerCase : string -> string.

Lemma sanitize_allowed (s : string) :
  forallb allowed (list_ascii_of_string (sanitize s)) = true.
Proof.
  induction s as [| c s IH]; [reflexivity |].
  cbn [sanitize]. destruct (allowed c) eqn:E; [| exact IH].
  cbn. now rewrite E, IH.
Qed.

Lemma add_inv (first last u : string) (st : State) :
  inv st -> inv (add toLowerCase first last u st).
Proof.
  intros (Hs & Hnd & Hall). unfold add. cbv zeta.
  set (uname := sanitize (toLowerCase u)).
  destruct (existsb (String.eqb uname) (suggestions st)) eqn:E; cbn [negb andb];
    [repeat split; assumption |].
  destruct (Str.is_empty uname) eqn:Ee; cbn [negb andb];
    [repeat split; assumption |].
  destruct (Z.leb_spec (Z.of_nat (String.length uname)) 30);
    [| repeat split; assumption].
  apply existsb_eqb_false in E. repeat split; cbn [suggestions out].
  - rewrite map_app, Hs. reflexivity.
  - now apply NoDup_snoc.
  - apply Forall_app. split; [exact Hall |]. constructor; [| constructor].
    repeat split.
    + intros E0. rewrite E0 in Ee. discriminate Ee.
    + lia.
    + apply sanitize_allowed.
Qed.

Lemma add_length (first last u : string) (st : State) :
  (List.length (out (add toLowerCase first last u st))
   <= S (List.length (out st)))%nat.
Proof.
  unfold add. cbv zeta.
  destruct (_ && _ && _); cbn [out]; [rewrite length_app; cbn; lia | lia].
Qed.

Lemma numbered_inv (single s : string) (n : Z) (fuel : nat) :
  forall (idx : Z) (st : State),
    inv st -> inv (numbered toLowerCase fuel single s n idx st).
Proof.
  induction fuel as [| fuel IH]; intros idx st Hinv; [exact Hinv |].
  cbn [numbered]. destruct (_ && _); [| exact Hinv].
  apply IH. now apply add_inv.
Qed.

(** The loop never makes the list longer than wanted, unless it was
    already. *)
Lemma numbered_length (single s : string) (n : Z) (fuel : nat) :
  forall (idx : Z) (st : State),
    Z.of_nat (List.length (out (numbered toLowerCase fuel single s n idx st)))
    <= Z.max n (Z.of_nat (List.length (out st))).
Proof.
  induction fuel as [| fuel IH]; intros idx st; [cbn; lia |].
  cbn [numbered].
  destruct (Z.ltb_spec (Z.of_nat (List.length (out st))) n); cbn [andb]; [| lia].
  destruct (idx <? n + 6); [| lia].
  etransitivity; [apply IH |].
  pose proof (add_length single "" (s ++ Str.of_Z idx)%string st). lia.
Qed.

Lemma fold_add_inv (first last : string) (us : list string) :
  forall st, inv st -> inv (fold_left (fun st u => add toLowerCase first last u st) us st).
Proof.
  induction us as [| u us IH]; intros st Hinv; [exact Hinv |].
  cbn [fold_left]. apply IH. now apply add_inv.
Qed.

Lemma slice0_sub {A} (n : Z) (l : list A) :
  exists k, slice0 n l = firstn k l.
Proof. unfold slice0. destruct (n <? 0); eexists; reflexivity. Qed.

Lemma names_of_inv (st : State) (n : Z) :
  inv st ->
  NoDup (map username (slice0 n (out st)))
  /\ Forall (fun sg => ok_name (username sg)) (slice0 n (out st))
  /\ (0 <= n -> Z.of_nat (List.length (slice0 n (out st))) <= n).
Proof.
  intros (Hs & Hnd & Hall). rewrite Hs in Hnd, Hall.
  destruct (slice0_sub n (out st)) as (k & Ek). split; [| split].
  - rewrite Ek, <- firstn_map. now apply NoDup_firstn.
  - rewrite Ek. apply Forall_firstn. rewrite Forall_map in Hall. exact Hall.
  - intros Hn. unfold slice0. destruct (Z.ltb_spec n 0); [lia |].
    rewrite length_firstn. lia.
Qed.

End Usernames.

End NamesFacts.

(** X21. Whatever the random choices, the generator of mailboxes returns
    at most 4 mailboxes for a domain, however many are asked for, and never
    more than asked for; all of them are for John Smith on the domain
    given, with different usernames among [john.smith], [johnsmith],
    [j.smith] and [smith.john]. It returns at least one when at least one
    is asked for. *)
Theorem mailboxGenerator_at_most_four (random : nat -> Names.Choice)
    (domainName : string) (count : option Z) :
  let wanted := match count with Some c => c | None => 3 end in
  let r := Names.mailboxGenerator random domainName count in
  NoDup (map Names.mailboxUsername r)
  /\ Forall (Names.good domainName) r
  /\ (List.length r <= 4)%nat
  /\ Z.of_nat (List.length r) <= Z.max 0 wanted
  /\ (1 <= wanted -> r <> []).
Proof.
  cbv zeta. unfold Names.mailboxGenerator.
  set (wanted := match count with Some c => c | None => 3 end).
  destruct (NamesFacts.mailboxLoop_inv random domainName wanted
              (Z.to_nat (wanted * 10)) 0 0 [] [] eq_refl (NoDup_nil _)
              (Forall_nil _)) as (Hnd & Hall & Hlen & _).
  { cbn. lia. }
  split; [exact Hnd |]. split; [exact Hall |]. split; [| split; [exact Hlen |]].
  - rewrite <- (length_map Names.mailboxUsername).
    apply (NoDup_incl_length Hnd
             (l' := ["john.smith"; "johnsmith"; "j.smith"; "smith.john"])).
    intros u Hu. apply in_map_iff in Hu. destruct Hu as (m & <- & Hm).
    rewrite Forall_forall in Hall. apply Hall in Hm. apply Hm.
  - intros Hw. destruct (Z.to_nat (wanted * 10)) as [| fuel] eqn:Ef; [lia |].
    cbn [Names.mailboxLoop]. cbn [List.length].
    destruct (Z.ltb_spec (Z.of_nat 0) wanted); [| cbn in *; lia].
    destruct (Z.ltb_spec 0 (wanted * 10)); [| lia]. cbn [andb existsb app].
    match goal with
    | |- Names.mailboxLoop fuel random domainName wanted ?i ?t ?u ?r <> [] =>
        destruct (NamesFacts.mailboxLoop_inv random domainName wanted fuel i t u r)
          as (_ & _ & _ & more & E)
    end.
    + reflexivity.
    + repeat constructor. intros [].
    + constructor; [| constructor].
      repeat split; try reflexivity. apply NamesFacts.pick_pattern.
    + cbn. lia.
    + cbv zeta in E. rewrite E. discriminate.
Qed.

(** X22. Whatever the name and the number asked for, the usernames
    [generateUsernamesLocal] returns are all different, none is empty or
    longer than 30 characters, and they consist of the characters [a-z],
    [0-9], [.] and [_] only; and they are at most [numberOfNames] when that
    number is not negative. *)
Theorem generateUsernamesLocal_usernames (toUpperCase toLowerCase : string -> string)
    (name : string) (numberOfNames : Z) :
  let r := Names.names
             (Names.generateUsernamesLocal toUpperCase toLowerCase name
                numberOfNames) in
  NoDup (map Names.username r)
  /\ Forall (fun sg => Names.ok_name (Names.username sg)) r
  /\ (0 <= numberOfNames -> Z.of_nat (List.length r) <= numberOfNames).
Proof.
  cbv zeta. unfold Names.generateUsernamesLocal.
  destruct (Str.is_empty name).
  - cbn. repeat split; [constructor | constructor | lia].
  - cbv zeta. cbn [Names.names].
    apply NamesFacts.names_of_inv.
    assert (H0 : Names.inv (Names.mkState [] [])).
    { repeat split; constructor. }
    destruct (Names.split _) as [| p0 [| p1 parts]].
    + apply NamesFacts.numbered_inv. now do 2 apply NamesFacts.add_inv.
    + apply NamesFacts.numbered_inv. now do 2 apply NamesFacts.add_inv.
    + now apply NamesFacts.fold_add_inv.
Qed.

(* ===================================================================== *)
(** * The framing of requests *)

Module TrimFacts.

Lemma trimStart_split (l : list ascii) :
  exists pre, l = pre ++ Str.trimStart l /\ Forall (fun c => Str.is_space c = true) pre.
Proof.
  induction l as [| c l IH]; [exists []; split; [reflexivity | constructor] |].
  cbn [Str.trimStart]. destruct (Str.is_space c) eqn:Ec.
  - destruct IH as (pre & E & Hall). exists (c :: pre). split.
    + cbn. now rewrite <- E.
    + now constructor.
  - exists []. split; [reflexivity | constructor].
Qed.

Lemma trimStart_head (l : list ascii) :
  match Str.trimStart l with
  | [] => True
  | c :: _ => Str.is_space c = false
  end.
Proof.
  induction l as [| c l IH]; [exact I |].
  cbn [Str.trimStart]. destruct (Str.is_space c) eqn:Ec; [exact IH | exact Ec].
Qed.

Lemma trimStart_fixed (l : list ascii) :
  match l with [] => True | c :: _ => Str.is_space c = false end ->
  Str.trimStart l = l.
Proof. destruct l as [| c l]; [reflexivity |]. cbn. now intros ->. Qed.

(** [trim] leaves nothing to trim. *)
Lemma trim_idempotent (s : string) : Str.trim (Str.trim s) = Str.trim s.
Proof.
  unfold Str.trim. rewrite list_ascii_of_string_of_list_ascii.
  set (t := Str.trimStart (list_ascii_of_string s)).
  set (m := Str.trimStart (rev t)).
  assert (Hhead : Str.trimStart (rev m) = rev m).
  { apply trimStart_fixed.
    destruct (trimStart_split (rev t)) as (pre & E & _). fold m in E.
    assert (Et : t = rev m ++ rev pre).
    { rewrite <- rev_app_distr, <- E. now rewrite rev_involutive. }
    pose proof (trimStart_head (list_ascii_of_string s)) as Ht. fold t in Ht.
    destruct (rev m) as [| c r]; [exact I |].
    rewrite Et in Ht. exact Ht. }
  rewrite Hhead, rev_involutive.
  assert (Hm : Str.trimStart m = m).
  { apply trimStart_fixed. apply trimStart_head. }
  now rewrite Hm.
Qed.

End TrimFacts.

Module RpcFacts.
Import Rpc.

Lemma substring_all (s : string) : String.substring 0 (String.length s) s = s.
Proof. induction s as [| c s IH]; [reflexivity |]. cbn. now rewrite IH. Qed.

Lemma substring_prefix (pre post : string) :
  String.substring 0 (String.length pre) (pre ++ post) = pre.
Proof.
  induction pre as [| c pre IH]; cbn.
  - now destruct post.
  - now rewrite IH.
Qed.

Lemma substring_skip (pre : string) (n : nat) (post : string) :
  String.substring (String.length pre) n (pre ++ post) = String.substring 0 n post.
Proof. induction pre as [| c pre IH]; [reflexivity |]. cbn. exact IH. Qed.

Lemma length_append (a b : string) :
  String.length (a ++ b) = (String.length a + String.length b)%nat.
Proof. induction a as [| c a IH]; [reflexivity |]. cbn. now rewrite IH. Qed.

Lemma append_assoc (a b c : string) : ((a ++ b) ++ c = a ++ (b ++ c))%string.
Proof. induction a as [| x a IH]; [reflexivity |]. cbn. now rewrite IH. Qed.

Lemma append_nil_r (a : string) : (a ++ "")%string = a.
Proof. induction a as [| x a IH]; [reflexivity |]. cbn. now rewrite IH. Qed.

(** The first newline cuts the buffer in a line without newline and the
    rest. *)
Lemma indexOfNewline_Some (s : string) (idx : nat) :
  indexOfNewline s = Some idx ->
  exists pre post,
    s = (pre ++ String newline post)%string
    /\ indexOfNewline pre = None
    /\ String.length pre = idx.
Proof.
  revert idx. induction s as [| c s IH]; intros idx E; [discriminate E |].
  cbn [indexOfNewline] in E. destruct (Ascii.eqb_spec c newline) as [-> | Hc].
  - inversion E; subst. exists "", s. auto.
  - destruct (indexOfNewline s) as [i |] eqn:Ei; [| discriminate E].
    inversion E; subst. destruct (IH i eq_refl) as (pre & post & -> & Hn & Hl).
    exists (String c pre), post. cbn [indexOfNewline String.length append].
    destruct (Ascii.eqb_spec c newline); [contradiction |].
    rewrite Hn, Hl. auto.
Qed.

Lemma indexOfNewline_app (pre post : string) :
  indexOfNewline pre = None ->
  indexOfNewline (pre ++ String newline post) = Some (String.length pre).
Proof.
  induction pre as [| c pre IH]; intros Hn;
    cbn [indexOfNewline append String.length].
  - now rewrite Ascii.eqb_refl.
  - cbn [indexOfNewline] in Hn. destruct (Ascii.eqb c newline); [discriminate Hn |].
    destruct (indexOfNewline pre); [discriminate Hn |]. now rewrite IH.
Qed.

(** One turn of the loop on a buffer with a newline. *)
Lemma lines_cut (fuel : nat) (pre post : string) :
  indexOfNewline pre = None ->
  lines (S fuel) (pre ++ String newline post)
  = ((if Str.is_empty (Str.trim pre) then fst (lines fuel post)
      else Str.trim pre :: fst (lines fuel post)),
     snd (lines fuel post)).
Proof.
  intros Hn. cbn [lines]. rewrite (indexOfNewline_app pre post Hn). cbv zeta.
  rewrite substring_prefix.
  replace (String.length (pre ++ String newline post) - S (String.length pre))%nat
    with (String.length post)
    by (rewrite length_append; cbn; lia).
  replace (S (String.length pre)) with (String.length (pre ++ String newline ""))
    by (rewrite length_append; cbn; lia).
  replace (pre ++ String newline post)%string
    with ((pre ++ String newline "") ++ post)%string
    by (rewrite append_assoc; reflexivity).
  rewrite substring_skip, substring_all.
  now destruct (lines fuel post).
Qed.

Lemma lines_none (fuel : nat) (s : string) :
  indexOfNewline s = None -> lines fuel s = ([], s).
Proof. intros Hn. destruct fuel; cbn [lines]; [reflexivity | now rewrite Hn]. Qed.

(** More fuel than the length of the buffer changes nothing. *)
Lemma lines_fuel (s : string) :
  forall fuel fuel',
    (String.length s <= fuel)%nat -> (String.length s <= fuel')%nat ->
    lines fuel s = lines fuel' s.
Proof.
  remember (String.length s) as n eqn:En. revert s En.
  induction n as [n IH] using lt_wf_ind. intros s En fuel fuel' Hf Hf'.
  destruct (indexOfNewline s) as [idx |] eqn:Ei;
    [| now rewrite !lines_none].
  destruct (indexOfNewline_Some s idx Ei) as (pre & post & -> & Hn & _).
  rewrite length_append in En. cbn in En.
  destruct fuel as [| fuel]; [lia |]. destruct fuel' as [| fuel']; [lia |].
  rewrite !lines_cut by exact Hn.
  rewrite (IH (String.length post)) with (fuel := fuel) (fuel' := fuel');
    [reflexivity | lia | reflexivity | lia | lia].
Qed.

(** What is left in the buffer has no newline. *)
Lemma lines_left (s : string) :
  forall fuel, (String.length s <= fuel)%nat ->
    indexOfNewline (snd (lines fuel s)) = None.
Proof.
  remember (String.length s) as n eqn:En. revert s En.
  induction n as [n IH] using lt_wf_ind. intros s En fuel Hf.
  destruct (indexOfNewline s) as [idx |] eqn:Ei;
    [| now rewrite lines_none].
  destruct (indexOfNewline_Some s idx Ei) as (pre & post & -> & Hn & _).
  rewrite length_append in En. cbn in En.
  destruct fuel as [| fuel]; [lia |].
  rewrite lines_cut by exact Hn. cbn [snd].
  apply (IH (String.length post)); [lia | reflexivity | lia].
Qed.

(** The lines of a text that is read in two parts. *)
Lemma lines_append (a : string) :
  forall (b : string) (fa fb fab : nat),
    (String.length a <= fa)%nat ->
    (String.length (snd (lines fa a) ++ b) <= fb)%nat ->
    (String.length (a ++ b) <= fab)%nat ->
    lines fab (a ++ b)
    = (fst (lines fa a) ++ fst (lines fb (snd (lines fa a) ++ b)),
       snd (lines fb (snd (lines fa a) ++ b))).
Proof.
  remember (String.length a) as n eqn:En. revert a En.
  induction n as [n IH] using lt_wf_ind. intros a En b fa fb fab Hfa Hfb Hfab.
  destruct (indexOfNewline a) as [idx |] eqn:Ei.
  - destruct (indexOfNewline_Some a idx Ei) as (pre & post & -> & Hn & _).
    rewrite length_append in En. cbn in En.
    destruct fa as [| fa]; [lia |].
    rewrite lines_cut in * by exact Hn. cbn [fst snd] in *.
    rewrite append_assoc. cbn [append].
    destruct fab as [| fab];
      [rewrite append_assoc, length_append in Hfab; cbn in Hfab; lia |].
    rewrite lines_cut by exact Hn.
    rewrite (IH (String.length post)) with (fa := fa) (fb := fb); try lia;
      try reflexivity; try exact Hfb.
    + cbn [fst snd]. destruct (Str.is_empty (Str.trim pre)); reflexivity.
    + rewrite append_assoc, length_append in Hfab. cbn in Hfab.
      rewrite length_append in Hfab. rewrite length_append. lia.
  - rewrite (lines_none fa a Ei) in *. cbn [fst snd app] in *.
    rewrite (lines_fuel (a ++ b) fab fb Hfab Hfb). now destruct (lines fb (a ++ b)).
Qed.

Lemma feed_concat (chunks : list string) :
  forall buffer,
    indexOfNewline buffer = None ->
    feed chunks buffer = onData buffer (String.concat "" chunks).
Proof.
  induction chunks as [| c cs IH]; intros buffer Hn.
  - cbn [feed String.concat]. unfold onData. rewrite append_nil_r.
    now rewrite lines_none.
  - cbn [feed]. unfold onData at 1.
    destruct (lines (String.length (buffer ++ c)) (buffer ++ c)) as [l1 b1] eqn:E1.
    assert (Hb1 : indexOfNewline b1 = None).
    { pose proof (lines_left (buffer ++ c) _ (le_n _)) as Hl. now rewrite E1 in Hl. }
    rewrite (IH b1 Hb1). unfold onData.
    assert (Ec : String.concat "" (c :: cs) = (c ++ String.concat "" cs)%string).
    { destruct cs; cbn; [now rewrite append_nil_r | reflexivity]. }
    rewrite Ec, <- append_assoc.
    rewrite (lines_append (buffer ++ c) (String.concat "" cs)
               (String.length (buffer ++ c))
               (String.length (b1 ++ String.concat "" cs))
               (String.length ((buffer ++ c) ++ String.concat "" cs)));
      rewrite ?E1; cbn [fst snd]; try lia.
    now destruct (lines _ (b1 ++ String.concat "" cs)).
Qed.

End RpcFacts.

(** X23. The framing of requests does not depend on how the input
    arrives: fed chunk by chunk, starting with an empty buffer, the handler
    hands on the same lines, in the same order, and keeps the same rest in
    its buffer as when the whole input arrives in one chunk. The lines
    handed on are trimmed (no white space is left at either end) and
    never empty, and the rest kept holds no newline. *)
Theorem request_framing_ignores_chunking (chunks : list string) :
  Rpc.feed chunks "" = Rpc.onData "" (String.concat "" chunks)
  /\ Forall (fun line => line <> "" /\ Str.trim line = line)
       (fst (Rpc.feed chunks ""))
  /\ Rpc.indexOfNewline (snd (Rpc.feed chunks "")) = None.
Proof.
  assert (E : Rpc.feed chunks "" = Rpc.onData "" (String.concat "" chunks))
    by now apply RpcFacts.feed_concat.
  split; [exact E |]. rewrite E. unfold Rpc.onData. split.
  - generalize (String.length ("" ++ String.concat "" chunks)).
    generalize ("" ++ String.concat "" chunks)%string.
    intros s fuel. revert s. induction fuel as [| fuel IH]; intros s;
      [constructor |].
    cbn [Rpc.lines]. destruct (Rpc.indexOfNewline s) as [idx |]; [| constructor].
    cbv zeta.
    match goal with
    | |- context [Rpc.lines fuel ?b] =>
        specialize (IH b); destruct (Rpc.lines fuel b) as [rest left]
    end.
    cbn [fst] in *.
    destruct (Str.is_empty (Str.trim (String.substring 0 idx s))) eqn:Ee;
      [exact IH |].
    constructor; [| exact IH].
    split; [| apply TrimFacts.trim_idempotent].
    intros E0. rewrite E0 in Ee. discriminate Ee.
  - apply RpcFacts.lines_left. lia.
Qed.

(* ===================================================================== *)
(** * The credential *)

(** X24. A [ZAPMAIL_API_KEY] that is set but consists of white space
    only hides [ZAPMAIL_API_TOKEN]: whatever the token, no credential is
    found, and a call of [apiFetch] that is not served from the cache
    throws the [ValidationError] of the missing key without sending any
    request. *)
Theorem blank_api_key_hides_token {num : Type} `{JsNumber num} `{JsBuiltins num}
    (key path method : string) (o : @Exec.Options num) (w : @Exec.World num) :
  Exec.ZAPMAIL_API_KEY w = Some key ->
  key <> "" ->
  Str.trim key = "" ->
  Exec.valid path -> Exec.methodOf o method -> Exec.valid method ->
  fst (Exec.beforeKeyCheck path method o w) = Exec.Ok None ->
  Exec.getApiKey w = Some ""
  /\ Exec.apiFetch (Some (JStr path)) o w
     = (Exec.Throw (Exec.ValidationError "ZAPMAIL_API_KEY not configured" "apiKey"
                      (Some JNull)),
        snd (Exec.beforeKeyCheck path method o w))
  /\ Ops.fetches (Exec.trace (snd (Exec.beforeKeyCheck path method o w)))
     = Ops.fetches (Exec.trace w).
Proof.
  intros Hk Hne Hblank Hp Hm Hvm Hmiss.
  assert (Hget : Exec.getApiKey w = Some "").
  { unfold Exec.getApiKey. rewrite Hk. cbn [Exec.nonempty].
    destruct key as [| c key]; [congruence |]. cbn [Str.is_empty negb].
    cbn [Exec.nonempty Str.is_empty negb option_map]. now rewrite Hblank. }
  split; [exact Hget |].
  destruct (KeyFacts.apiFetch_without_key path method o w Hp Hm Hvm)
    as (E & _ & sleeps & Ht & Hs).
  { now rewrite Hget. }
  { exact Hmiss. }
  split; [exact E |].
  rewrite Ht, OpsFacts.fetches_app, (OpsFacts.fetches_sleeps _ Hs). lia.
Qed.

(** A key of two spaces beside a token. *)
Lemma blank_api_key_hides_token_witness :
  let w := Exec.mkWorld (num:=Z) 0 [Scenario.answer 200 "OK" "{}"] (Some "  ")
             (Some "token") 3 (Some Cache.new_default) RateLimiter.new_default [] in
  Exec.getApiKey w = Some ""
  /\ Exec.apiFetch (H0:=Scenario.parser) (Some (JStr "/v2/user")) Sample.no_options w
     = (Exec.Throw (Exec.ValidationError "ZAPMAIL_API_KEY not configured" "apiKey"
                      (Some JNull)),
        snd (Exec.beforeKeyCheck (H0:=Scenario.parser) "/v2/user" "GET"
               Sample.no_options w))
  /\ Ops.fetches
       (Exec.trace (snd (Exec.beforeKeyCheck (H0:=Scenario.parser) "/v2/user" "GET"
                           Sample.no_options w)))
     = Ops.fetches (Exec.trace w).
Proof.
  intros w.
  apply (blank_api_key_hides_token (H0:=Scenario.parser) "  " "/v2/user" "GET"
           Sample.no_options w).
  - reflexivity.
  - discriminate.
  - reflexivity.
  - split; [discriminate | vm_compute; discriminate].
  - reflexivity.
  - split; [discriminate | vm_compute; discriminate].
  - reflexivity.
Defined.

(* ===================================================================== *)
(** * What the expression for domains consumes *)

Module RegexFacts.
Import Regex RegexSem.

(** Whatever follows, a successful match of [r] has consumed characters
    that [r] matches. *)
Lemma m_sound (r : re) :
  forall (p : pos) (k : pos -> option pos) (e : pos),
    m r p k = Some e ->
    exists p' x,
      k p' = Some e /\ matches r x /\ rest p = x ++ rest p'.
Proof.
  induction r as [| f | a IHa b IHb | a IHa b IHb | a IHa | | i a IHa];
    intros p k e E; cbn [m] in E.
  - exists p, []. repeat split; [exact E | constructor].
  - destruct (rest p) as [| c l] eqn:Er; [discriminate E |].
    destruct (f c) eqn:Ef; [| discriminate E].
    exists (mkPos (Some c) l (groups p)), [c]. repeat split; [exact E |].
    now constructor.
  - apply IHa in E. destruct E as (p1 & x1 & E1 & M1 & R1).
    apply IHb in E1. destruct E1 as (p2 & x2 & E2 & M2 & R2).
    exists p2, (x1 ++ x2). repeat split; [exact E2 | now constructor |].
    now rewrite R1, R2, app_assoc.
  - destruct (m a p k) as [e' |] eqn:Ea.
    + inversion E; subst. apply IHa in Ea. destruct Ea as (p1 & x1 & E1 & M1 & R1).
      exists p1, x1. repeat split; [exact E1 | now apply M_AltL | exact R1].
    + apply IHb in E. destruct E as (p1 & x1 & E1 & M1 & R1).
      exists p1, x1. repeat split; [exact E1 | now apply M_AltR | exact R1].
  - remember (List.length (rest p)) as fuel eqn:Ef in E. clear Ef.
    revert p E. induction fuel as [| fuel IH]; intros p E.
    + exists p, []. repeat split; [exact E | constructor].
    + match type of E with
      | match ?inner with _ => _ end = _ => destruct inner as [e' |] eqn:Ein
      end.
      * inversion E; subst. apply IHa in Ein.
        destruct Ein as (p1 & x1 & E1 & M1 & R1).
        destruct (List.length (rest p1) <? List.length (rest p))%nat;
          [| discriminate E1].
        apply IH in E1. destruct E1 as (p2 & x2 & E2 & M2 & R2).
        exists p2, (x1 ++ x2). repeat split; [exact E2 | now constructor |].
        now rewrite R1, R2, app_assoc.
      * exists p, []. repeat split; [exact E | constructor].
  - destruct (xorb (word_before p) (word_after p)); [| discriminate E].
    exists p, []. repeat split; [exact E | constructor].
  - apply IHa in E. destruct E as (p1 & x1 & E1 & M1 & R1).
    eexists. exists x1. repeat split; [exact E1 | now constructor | exact R1].
Qed.

Lemma between_consumed (p p' : pos) (x : list ascii) :
  rest p = x ++ rest p' -> between p p' = string_of_list_ascii x.
Proof.
  intros R. unfold between. rewrite R, length_app.
  replace (List.length x + List.length (rest p') - List.length (rest p'))%nat
    with (List.length x) by lia.
  now rewrite firstn_app, Nat.sub_diag, firstn_all, firstn_O, app_nil_r.
Qed.

(** The first group of an expression of the form [\b(r)\b]. *)
Lemma boundary_group_sound (r : re) (p e : pos) :
  m (seqs [b; Group 1 r; b]) p (fun e => Some e) = Some e ->
  exists x, matches r x /\ group 1 (groups e) = Some (string_of_list_ascii x).
Proof.
  cbn [seqs m]. unfold b. cbn [m].
  destruct (xorb (word_before p) (word_after p)); [| discriminate].
  intros E. apply m_sound in E. destruct E as (p1 & x & E & M & R).
  destruct (xorb _ _); [| discriminate E]. inversion E; subst.
  exists x. split; [exact M |]. cbn [groups group Nat.eqb].
  now rewrite (between_consumed p p1 x R).
Qed.

Lemma search_sound (r : re) (fuel : nat) :
  forall (p : pos) (f : found),
    search r fuel p = Some f ->
    exists p0,
      m r (mkPos (prev p0) (rest p0) []) (fun e => Some e) = Some (after f)
      /\ captured f = groups (after f).
Proof.
  induction fuel as [| fuel IH]; intros p f E; cbn [search] in E.
  - destruct (m r _ _) as [e |] eqn:Em; [| now destruct (rest p)].
    inversion E; subst. exists p. auto.
  - destruct (m r _ _) as [e |] eqn:Em.
    + inversion E; subst. exists p. auto.
    + destruct (rest p) as [| c l]; [discriminate E |]. now apply IH in E.
Qed.

Lemma execAll_sound (r : re) (fuel : nat) :
  forall (p : pos) (f : found),
    In f (execAll r fuel p) ->
    exists p0,
      m r (mkPos (prev p0) (rest p0) []) (fun e => Some e) = Some (after f)
      /\ captured f = groups (after f).
Proof.
  induction fuel as [| fuel IH]; intros p f Hin; cbn [execAll] in Hin;
    [contradiction |].
  destruct (search r (List.length (rest p)) p) as [f0 |] eqn:Es; [| contradiction].
  destruct (List.length (rest (after f0)) <? List.length (rest p))%nat.
  - destruct Hin as [<- | Hin]; [now apply search_sound in Es | now apply IH in Hin].
  - destruct Hin as [<- | []]. now apply search_sound in Es.
Qed.

(** *** What the pieces of [domain_re] consume *)

Lemma matches_Seq (a c : re) (x : list ascii) :
  matches (Seq a c) x -> exists y z, x = y ++ z /\ matches a y /\ matches c z.
Proof. intros M. inversion M; subst. eauto. Qed.

Lemma matches_Chr (f : ascii -> bool) (x : list ascii) :
  matches (Chr f) x -> exists c, x = [c] /\ f c = true.
Proof. intros M. inversion M; subst. eauto. Qed.

Lemma matches_Alt (a c : re) (x : list ascii) :
  matches (Alt a c) x -> matches a x \/ matches c x.
Proof. intros M. inversion M; subst; auto. Qed.

Lemma matches_Star_Chr (f : ascii -> bool) (x : list ascii) :
  matches (Star (Chr f)) x -> forallb f x = true.
Proof.
  intros M. remember (Star (Chr f)) as r eqn:Er.
  induction M as [| | | | | a | a y z My _ Mz IHz | |]; try discriminate Er.
  - reflexivity.
  - inversion Er; subst. apply matches_Chr in My. destruct My as (c & -> & Hc).
    cbn. now rewrite Hc, IHz.
Qed.

(** A character that [chr_i x] accepts, in lower case, when [x] is a
    lower-case letter or the dot. *)
Lemma chr_i_lower (x c : ascii) :
  In x (list_ascii_of_string "comnetrgiap.") ->
  Ascii.eqb (upper c) (upper x) = true ->
  Str.lower c = x.
Proof.
  intros Hx. cbn in Hx.
  repeat (destruct Hx as [<- | Hx];
          [destruct c as [[] [] [] [] [] [] [] []]; cbn; intros E;
           try discriminate E; reflexivity |]).
  contradiction.
Qed.

(** A literal under the [i] flag consumes the literal, up to case. *)
Lemma matches_str_i (s : string) :
  Forall (fun x => In x (list_ascii_of_string "comnetrgiap."))
    (list_ascii_of_string s) ->
  s <> "" ->
  forall x, matches (str_i s) x ->
    Str.toLowerCase (string_of_list_ascii x) = s.
Proof.
  induction s as [| c s IH]; intros Hall Hne x M; [congruence |].
  cbn [list_ascii_of_string] in Hall. inversion Hall as [| ? ? Hc Hall']; subst.
  destruct s as [| c' s].
  - cbn [str_i] in M. unfold chr_i in M. apply matches_Chr in M.
    destruct M as (y & -> & Hy). cbn. now rewrite (chr_i_lower c y Hc Hy).
  - cbn [str_i] in M. apply matches_Seq in M.
    destruct M as (y & z & -> & My & Mz).
    unfold chr_i in My. apply matches_Chr in My. destruct My as (y0 & -> & Hy).
    cbn [app string_of_list_ascii Str.toLowerCase].
    rewrite (chr_i_lower c y0 Hc Hy). f_equal.
    apply IH; [exact Hall' | discriminate | exact Mz].
Qed.

Lemma host_char_lower (c : ascii) :
  (is_letter c || Str.between 48 57 c || (Str.code c =? 45)%N) = true ->
  label_char (Str.lower c) = true.
Proof. destruct c as [[] [] [] [] [] [] [] []]; cbn; congruence. Qed.

Lemma toLowerCase_app (x y : list ascii) :
  Str.toLowerCase (string_of_list_ascii (x ++ y))
  = (Str.toLowerCase (string_of_list_ascii x)
     ++ Str.toLowerCase (string_of_list_ascii y))%string.
Proof. induction x as [| c x IH]; [reflexivity |]. cbn. now rewrite IH. Qed.

Lemma toLowerCase_list (x : list ascii) :
  Str.toLowerCase (string_of_list_ascii x)
  = string_of_list_ascii (map Str.lower x).
Proof. induction x as [| c x IH]; [reflexivity |]. cbn. now rewrite IH. Qed.

(** The characters of a literal are among the listed ones. *)
Ltac listed :=
  apply Forall_forall; intros ? Hc; cbn in Hc;
  repeat (destruct Hc as [<- | Hc]; [cbn; auto 20 |]); contradiction.

(** The text of the group of [domain_re], in lower case. *)
Lemma domain_group_shape (x : list ascii) :
  matches
    (seqs [plus host_char; str_i ".";
           alts [str_i "com"; str_i "net"; str_i "org"; str_i "io";
                 str_i "ai"; str_i "app"; str_i "co"; str_i "in"]]) x ->
  domain_shape (Str.toLowerCase (string_of_list_ascii x)).
Proof.
  intros M. cbn [seqs] in M.
  apply matches_Seq in M. destruct M as (h & y & -> & Mh & M).
  apply matches_Seq in M. destruct M as (dot & t & -> & Md & Mt).
  unfold plus, host_char in Mh. apply matches_Seq in Mh.
  destruct Mh as (h0 & h1 & -> & Mh0 & Mh1).
  apply matches_Chr in Mh0. destruct Mh0 as (c0 & -> & Hc0).
  apply matches_Star_Chr in Mh1.
  assert (Hdot : Str.toLowerCase (string_of_list_ascii dot) = ".").
  { apply (matches_str_i "."); [listed | discriminate | exact Md]. }
  assert (Htld : In (Str.toLowerCase (string_of_list_ascii t)) TLDS).
  { cbn [alts] in Mt.
    repeat (apply matches_Alt in Mt; destruct Mt as [Mt | Mt];
            [match type of Mt with
             | matches (str_i ?s) _ =>
                 rewrite (matches_str_i s);
                   [cbn; auto 20 | listed | discriminate | exact Mt]
             end |]).
    rewrite (matches_str_i "in"); [cbn; auto 20 | listed | discriminate | exact Mt]. }
  exists (map Str.lower ([c0] ++ h1)), (Str.toLowerCase (string_of_list_ascii t)).
  split; [| split; [discriminate | split; [| exact Htld]]].
  - rewrite !toLowerCase_app, Hdot, <- toLowerCase_list. reflexivity.
  - cbn [app map forallb]. rewrite (host_char_lower c0 Hc0). cbn [andb].
    clear - Mh1. induction h1 as [| c h1 IH]; [reflexivity |].
    cbn [forallb map] in *. apply andb_true_iff in Mh1. destruct Mh1 as [Hc Hh].
    now rewrite (host_char_lower c Hc), IH.
Qed.

End RegexFacts.

(** X25. Every domain [simpleParseDomains] finds in a text is one label
    of lower-case letters, digits and hyphens, not empty, followed by a
    dot and one of the top-level domains [com], [net], [org], [io], [ai],
    [app], [co] and [in]. *)
Theorem simpleParseDomains_shape (text d : string) :
  In d (Planner.simpleParseDomains text) -> RegexSem.domain_shape d.
Proof.
  unfold Planner.simpleParseDomains. intros Hin.
  apply PlannerFacts.unique_spec in Hin. destruct Hin as [Hin _].
  apply in_map_iff in Hin. destruct Hin as (f & <- & Hf).
  apply RegexFacts.execAll_sound in Hf. destruct Hf as (p0 & Em & Ec).
  apply RegexFacts.boundary_group_sound in Em. destruct Em as (x & M & G).
  rewrite Ec, G. now apply RegexFacts.domain_group_shape.
Qed.

(** A sentence that names two domains. *)
Lemma simpleParseDomains_shape_witness :
  RegexSem.domain_shape "my-shop.io".
Proof.
  apply (simpleParseDomains_shape "buy Example.COM and my-shop.io" "my-shop.io").
  vm_compute. auto.
Defined.

(* ===================================================================== *)
(** * The rate limiter and the cache as the tools see them *)

Module SlotFacts.
Import Exec Ops OpsFacts.
Section Facts.
Context {num : Type} `{JsNumber num} `{JsBuiltins num}.
Local Abbreviation json := (Json.t num) (only parsing).
Local Abbreviation value := (@Json.value num) (only parsing).

(** The loop changes only the clock, the network, the cache and the
    trace. *)
Lemma attempts_preserves {A : Type} (f : @World num -> A)
    (method path : string) (query payload : value) (maxRetries : Z) :
  (forall t w, f (set_clock t w) = f w) ->
  (forall n w, f (set_network n w) = f w) ->
  (forall c w, f (set_cache c w) = f w) ->
  (forall e w, f (log_event e w) = f w) ->
  forall (fuel : nat) (attempt : Z) (w : @World num),
    f (snd (attempts method path query payload maxRetries fuel attempt w)) = f w.
Proof.
  intros Hclock Hnet Hcache Hlog.
  induction fuel as [| fuel IH]; intros attempt w.
  - reflexivity.
  - cbn [attempts]. destruct (attempt <=? maxRetries); [| reflexivity].
    assert (Hf : exists o w0,
      fetch method path query payload w = (Ok o, w0) /\ f w0 = f w).
    { unfold fetch. destruct (network w); do 2 eexists; (split; [reflexivity |]).
      - apply Hlog.
      - now rewrite Hclock, Hnet, Hlog. }
    destruct Hf as (o & w0 & Ef & Hc).
    unfold bind at 1. rewrite Ef. cbv zeta.
    assert (Hnext : forall d,
      f (snd (bind (sleep d)
                (fun _ => attempts method path query payload maxRetries fuel
                            (attempt + 1)) w0))
      = f w).
    { intros d. unfold bind, sleep, modify. now rewrite IH, Hclock, Hlog. }
    assert (Hcatch : forall err,
      f (snd ((if attempt =? maxRetries then throw err
               else bind (sleep (RateLimiter.Finite (700 * (attempt + 1))))
                      (fun _ => attempts method path query payload maxRetries fuel
                                  (attempt + 1))) w0))
      = f w).
    { intros err. destruct (attempt =? maxRetries); [exact Hc | apply Hnext]. }
    destruct o as [lat r | lat message]; [| apply Hcatch].
    assert (Hsettle :
      f (snd ((if negb (ok r)
           then (if attempt =? maxRetries then throw (apiError r)
                 else bind (sleep (RateLimiter.Finite (700 * (attempt + 1))))
                        (fun _ => attempts method path query payload maxRetries fuel
                                    (attempt + 1)))
           else bind (cacheStore method path query (resultOf r))
                  (fun _ => ret (Some (resultOf r)))) w0))
      = f w).
    { destruct (negb (ok r)); [apply Hcatch |].
      unfold cacheStore, bind, gets, modify, ret. cbn beta iota.
      destruct (cache w0); [destruct (String.eqb method "GET") |];
        cbn [snd]; rewrite ?Hcache; exact Hc. }
    destruct (retryable (status r)).
    + destruct (attempt <? maxRetries); [apply Hnext | apply Hsettle].
    + apply Hsettle.
Qed.

Lemma cacheLookup_rateLimiter (method path : string) (query : value)
    (w : @World num) :
  rateLimiter (snd (cacheLookup method path query w)) = rateLimiter w.
Proof.
  unfold cacheLookup, bind, gets, ret.
  destruct (cache w) as [c0 |]; cbn beta iota; [| reflexivity].
  destruct (String.eqb method "GET"); cbn beta iota; [| reflexivity].
  now destruct (Cache.get (cacheKey method path query) (clock w) c0).
Qed.

Lemma checkLimit_rateLimiter (key : string) (w : @World num) :
  rateLimiter (snd (checkLimit key w))
  = snd (RateLimiter.checkLimit key (clock w) (rateLimiter w)).
Proof.
  unfold checkLimit, bind, gets.
  destruct (RateLimiter.checkLimit key (clock w) (rateLimiter w)) as [[d |] rl'];
    reflexivity.
Qed.

(** Every call with valid arguments takes one slot of the limiter. *)
Lemma apiFetch_rateLimiter (p m : string) (o : @Options num) (w : @World num) :
  valid p -> methodOf o m -> valid m ->
  rateLimiter (snd (apiFetch (Some (JStr p)) o w))
  = snd (RateLimiter.checkLimit "api" (clock w) (rateLimiter w)).
Proof.
  intros Hp Hm Hvm. rewrite (apiFetch_valid p m o w Hp Hm Hvm).
  assert (Hb : rateLimiter (snd (beforeKeyCheck p m o w))
               = snd (RateLimiter.checkLimit "api" (clock w) (rateLimiter w))).
  { unfold beforeKeyCheck, bind at 1.
    pose proof (checkLimit_rateLimiter "api" w) as Hc.
    destruct (checkLimit "api" w) as [[[] | e] w1]; cbn [snd] in *.
    - now rewrite cacheLookup_rateLimiter.
    - exact Hc. }
  destruct (beforeKeyCheck p m o w) as [[[c |] | e] w2]; cbn [snd] in *;
    try exact Hb.
  destruct (nonempty (getApiKey w2)); [| exact Hb].
  rewrite (attempts_preserves rateLimiter); auto.
Qed.

End Facts.
End SlotFacts.

(** X26. Every call of [apiFetch] whose arguments pass the validation
    takes one slot of the rate limiter, whatever comes of it: also a call
    that is answered from the cache and a call that fails for want of a
    credential, neither of which sends a request. The time recorded is the
    time the call was made at, and the retries of the call take no
    further slot. *)
Theorem apiFetch_takes_one_slot {num : Type} `{JsNumber num} `{JsBuiltins num}
    (p m : string) (o : @Exec.Options num) (w : @Exec.World num) :
  Exec.valid p -> Exec.methodOf o m -> Exec.valid m ->
  RateLimiter.current "api" (Exec.rateLimiter (snd (Exec.apiFetch (Some (JStr p)) o w)))
  = RateLimiter.recent
      (Exec.clock w - RateLimiter.windowMs (Exec.rateLimiter w))
      (RateLimiter.current "api" (Exec.rateLimiter w))
    ++ [Exec.clock w].
Proof.
  intros Hp Hm Hvm. rewrite (SlotFacts.apiFetch_rateLimiter p m o w Hp Hm Hvm).
  apply RateLimiterFacts.current_checkLimit.
Qed.

(** A call without credential: one slot and no request. *)
Lemma apiFetch_takes_one_slot_witness :
  RateLimiter.current "api"
    (Exec.rateLimiter
       (snd (Exec.apiFetch (H0:=Scenario.parser) (Some (JStr "/v2/user"))
               Sample.no_options Sample.no_key_world)))
  = RateLimiter.recent
      (Exec.clock Sample.no_key_world
       - RateLimiter.windowMs (Exec.rateLimiter Sample.no_key_world))
      (RateLimiter.current "api" (Exec.rateLimiter Sample.no_key_world))
    ++ [Exec.clock Sample.no_key_world].
Proof.
  apply (apiFetch_takes_one_slot (H0:=Scenario.parser) "/v2/user" "GET"
           Sample.no_options Sample.no_key_world).
  - split; [discriminate | vm_compute; discriminate].
  - reflexivity.
  - split; [discriminate | vm_compute; discriminate].
Defined.

(** X27. The tool [clear_cache] does nothing without a truthy [confirm].
    With it, and with caching on, it empties the cache: the size of the
    cache is 0 afterwards and the next call of [apiFetch], whatever its
    path and query, is not answered from the cache. *)
Theorem clear_cache_empties_the_cache {num : Type} `{JsNumber num}
    `{JsBuiltins num} (confirm : @Json.value num) (w : @Exec.World num) :
  (Json.truthy confirm = false ->
   CacheTool.clear_cache confirm w
   = (Exec.Ok (CacheTool.Error (-32000)
                 "Cache clear requires confirmation. Set confirm: true to proceed."),
      w))
  /\ (Json.truthy confirm = true ->
      forall c0, Exec.cache w = Some c0 ->
      exists w',
        CacheTool.clear_cache confirm w
        = (Exec.Ok (CacheTool.Result "Cache cleared successfully" 0), w')
        /\ option_map Cache.size (Exec.cache w') = Some 0
        /\ forall path method o,
             fst (Exec.beforeKeyCheck path method o w') = Exec.Ok None).
Proof.
  split.
  - intros Hc. unfold CacheTool.clear_cache. now rewrite Hc.
  - intros Hc c0 Hcache. unfold CacheTool.clear_cache. rewrite Hc.
    cbn [negb]. unfold Exec.bind at 1, Exec.gets. rewrite Hcache.
    unfold Exec.bind, Exec.modify, Exec.ret.
    eexists. split; [reflexivity |]. split; [reflexivity |].
    intros path method o.
    match goal with
    | |- fst (Exec.beforeKeyCheck path method o ?w1) = _ =>
        destruct (OpsFacts.beforeKeyCheck_effect path method o w1)
          as (v & w2 & Eb & _ & _ & Hv)
    end.
    rewrite Eb. cbn [fst]. cbn [Exec.cache Exec.set_cache] in Hv.
    destruct (String.eqb method "GET").
    + cbv zeta in Hv. destruct Hv as [-> _]. reflexivity.
    + destruct Hv as [-> _]. reflexivity.
Qed.

(** A cache with one entry, cleared. *)
Lemma clear_cache_empties_the_cache_witness :
  let w := snd (Exec.apiFetch (H0:=Scenario.parser) (Some (JStr "/v2/domains"))
                  Sample.no_options
                  (Scenario.keyed_world [Scenario.answer 200 "OK" "[1,2]"])) in
  exists w',
    CacheTool.clear_cache (Some (JBool true)) w
    = (Exec.Ok (CacheTool.Result "Cache cleared successfully" 0), w')
    /\ option_map Cache.size (Exec.cache w') = Some 0
    /\ forall path method o,
         fst (Exec.beforeKeyCheck (H0:=Scenario.parser) path method o w')
         = Exec.Ok None.
Proof.
  intros w.
  destruct (clear_cache_empties_the_cache (H0:=Scenario.parser) (Some (JBool true)) w)
    as [_ Hclear].
  apply (Hclear eq_refl (match Exec.cache w with
                         | Some c => c
                         | None => Cache.new_default
                         end)).
  vm_compute. reflexivity.
Defined.

(* ===================================================================== *)
(** * The table of names *)

Module PairsFacts.
Import Names.

Lemma map_nth_seq {A} (d : A) (l : list A) (n : nat) :
  (n <= List.length l)%nat ->
  map (fun i => nth (i mod List.length l) l d) (seq 0 n) = firstn n l.
Proof.
  intros Hn.
  apply nth_error_ext. intros i.
  destruct (Nat.lt_ge_cases i n) as [Hi | Hi].
  - rewrite nth_error_map, nth_error_seq.
    destruct (Nat.ltb_spec i n); [| lia]. cbn [option_map Nat.add].
    rewrite Nat.mod_small by lia.
    rewrite nth_error_firstn. destruct (Nat.ltb_spec i n); [| lia].
    symmetry. apply nth_error_nth'. lia.
  - transitivity (@None A).
    + apply nth_error_None. now rewrite length_map, length_seq.
    + symmetry. apply nth_error_None. rewrite length_firstn. lia.
Qed.

Lemma cycle_NoDup {A} (d : A) (l : list A) (n : nat) :
  NoDup l -> l <> [] ->
  NoDup (map (fun i => nth (i mod List.length l) l d) (seq 0 n))
  <-> (n <= List.length l)%nat.
Proof.
  intros Hnd Hl. split.
  - intros Hn. destruct (Nat.le_gt_cases n (List.length l)) as [| Hgt]; [assumption |].
    exfalso.
    assert (Hlen : (0 < List.length l)%nat) by (destruct l; [congruence | cbn; lia]).
    set (f := fun i => nth (i mod List.length l) l d) in *.
    rewrite NoDup_nth_error in Hn.
    specialize (Hn 0%nat (List.length l)).
    rewrite length_map, length_seq in Hn.
    assert (E : 0%nat = List.length l); [| lia].
    apply Hn; [lia |].
    rewrite !nth_error_map, !nth_error_seq.
    destruct (Nat.ltb_spec 0 n); [| lia].
    destruct (Nat.ltb_spec (List.length l) n); [| lia].
    cbn [option_map Nat.add]. unfold f.
    now rewrite Nat.Div0.mod_same, Nat.Div0.mod_0_l.
  - intros Hn. rewrite map_nth_seq by assumption.
    now apply NamesFacts.NoDup_firstn.
Qed.

End PairsFacts.

Module TableFacts.
Import Names.

Lemma db_sound : Forall sound (map snd db).
Proof.
  unfold db. cbn [map snd].
  repeat (apply Forall_cons; [| ]); try apply Forall_nil;
    (split; [| split; reflexivity]);
    cbn [fst snd app];
    repeat (apply NoDup_cons; [cbn [In]; intuition discriminate |]);
    apply NoDup_nil.
Qed.

Lemma groupOf_sound (eKey : string) : sound (groupOf eKey).
Proof.
  pose proof db_sound as Hdb. rewrite Forall_forall in Hdb.
  unfold groupOf.
  destruct (find (fun entry => String.eqb (fst entry) eKey) db) as [entry |] eqn:E.
  - apply Hdb, in_map. now apply find_some in E.
  - apply Hdb. vm_compute. auto.
Qed.

Lemma listOf_sound (group : list (string * string) * list (string * string))
    (gender : string) :
  sound group ->
  NoDup (listOf group (Str.toLowerCase gender))
  /\ List.length (listOf group (Str.toLowerCase gender)) = choices gender.
Proof.
  intros (Hnd & Hm & Hf). unfold listOf, choices. cbv zeta.
  destruct (String.eqb (Str.toLowerCase gender) "male"); cbn [orb].
  - split; [| assumption]. now apply NoDup_app_remove_r in Hnd.
  - destruct (String.eqb (Str.toLowerCase gender) "female").
    + split; [| assumption]. now apply NoDup_app_remove_l in Hnd.
    + split; [assumption |]. rewrite length_app. lia.
Qed.

End TableFacts.

(** X28. [generateNamePairsLocal] returns exactly the number of names
    asked for, and takes them in turn from five names when the gender is
    male or female and from ten for every other gender: the names are
    distinct when no more than that are asked for, and only then. An
    ethnicity that the table does not have gives the European names. *)
Theorem generateNamePairsLocal_repeats (numberOfNames : Z)
    (ethnicity gender : string) :
  Names.inherited (Str.toLowerCase ethnicity) = false ->
  Names.inherited (Str.toLowerCase gender) = false ->
  exists names,
    Names.generateNamePairsLocal numberOfNames ethnicity gender = Some names
    /\ List.length names = Z.to_nat numberOfNames
    /\ (NoDup names <-> (Z.to_nat numberOfNames <= Names.choices gender)%nat)
    /\ (find (fun entry => String.eqb (fst entry) (Str.toLowerCase ethnicity))
          Names.db = None ->
        Names.generateNamePairsLocal numberOfNames "european" gender = Some names).
Proof.
  intros He Hg. unfold Names.generateNamePairsLocal. cbv zeta.
  rewrite He, Hg. cbn [orb].
  change (Names.inherited (Str.toLowerCase "european")) with false. cbn [orb].
  eexists. split; [reflexivity |].
  destruct (TableFacts.listOf_sound _ gender
              (TableFacts.groupOf_sound (Str.toLowerCase ethnicity))) as [Hnd Hlen].
  split; [now rewrite length_map, length_seq |]. split.
  - rewrite <- Hlen. apply PairsFacts.cycle_NoDup; [exact Hnd |].
    intros E. rewrite E in Hlen. unfold Names.choices in Hlen. cbv zeta in Hlen.
    destruct (_ || _) in Hlen; discriminate.
  - intros Hfind.
    assert (E : Names.groupOf (Str.toLowerCase ethnicity)
                = Names.groupOf (Str.toLowerCase "european")).
    { unfold Names.groupOf at 1. now rewrite Hfind. }
    now rewrite E.
Qed.

(** Twelve neutral names of an ethnicity that the table does not have. *)
Lemma generateNamePairsLocal_repeats_witness :
  exists names,
    Names.generateNamePairsLocal 12 "Nordic" "neutral" = Some names
    /\ List.length names = Z.to_nat 12
    /\ (NoDup names <-> (Z.to_nat 12 <= Names.choices "neutral")%nat)
    /\ (find (fun entry => String.eqb (fst entry) (Str.toLowerCase "Nordic"))
          Names.db = None ->
        Names.generateNamePairsLocal 12 "european" "neutral" = Some names).
Proof.
  apply (generateNamePairsLocal_repeats 12 "Nordic" "neutral"); reflexivity.
Defined.

